(** * NetKeiba text extraction: a shallow embedding of the two parser variants

    The repository carries two versions of [NetKeibaParser]:
    - the layout-keyed parser (blocks of lines per horse, win/place sections),
      embedded in module [Layout];
    - the line-keyed parser (one horse or one odds entry per line), embedded
      in module [Legacy].

    JavaScript strings are sequences of UTF-16 code units, regular
    expressions are run by a backtracking matcher with the priorities of the
    ECMAScript semantics, thrown exceptions are values of an outcome type and
    the clock read by [new Date()] is an explicit argument.  Number values
    are binary64 values: [parseInt], [parseFloat] and the division round to
    the nearest value, ties to even; the integers read by [parseInt] are
    kept as naturals. *)

From Stdlib Require Import List Bool Arith NArith ZArith QArith Qround Qpower Lia.
From Stdlib Require Import Strings.String Strings.Ascii Strings.Byte DecimalString.
From Stdlib Require Import Sorting.Sorted Permutation.
From Stdlib Require Import Floats.SpecFloat.
Import ListNotations.

Set Implicit Arguments.
Set Warnings "-register-all".

Local Open Scope string_scope.
Local Open Scope list_scope.

(** ** JavaScript strings *)

Module JsString.

(** A string is the list of its UTF-16 code units. *)
Definition t := list N.

Definition byteN (b : Byte.byte) : N := Byte.to_N b.

(** Decoding of the UTF-8 bytes of a literal of this file into UTF-16 code
    units; code points above U+FFFF become a surrogate pair. *)
Fixpoint utf8_decode (bs : list N) : t :=
  match bs with
  | [] => []
  | b0 :: r0 =>
      if (b0 <? 128)%N then b0 :: utf8_decode r0
      else if (b0 <? 224)%N then
        match r0 with
        | b1 :: r1 =>
            N.lor (N.shiftl (N.land b0 31) 6) (N.land b1 63) :: utf8_decode r1
        | [] => []
        end
      else if (b0 <? 240)%N then
        match r0 with
        | b1 :: b2 :: r2 =>
            N.lor (N.shiftl (N.land b0 15) 12)
              (N.lor (N.shiftl (N.land b1 63) 6) (N.land b2 63))
            :: utf8_decode r2
        | _ => []
        end
      else
        match r0 with
        | b1 :: b2 :: b3 :: r3 =>
            let cp := N.lor (N.shiftl (N.land b0 7) 18)
                        (N.lor (N.shiftl (N.land b1 63) 12)
                           (N.lor (N.shiftl (N.land b2 63) 6) (N.land b3 63))) in
            let v := (cp - 65536)%N in
            (55296 + N.shiftr v 10)%N :: (56320 + N.land v 1023)%N
            :: utf8_decode r3
        | _ => []
        end
  end.

(** The string denoted by a literal. *)
Definition js (s : string) : t :=
  utf8_decode (map byteN (list_byte_of_string s)).

Definition eqb (a b : t) : bool :=
  if list_eq_dec N.eq_dec a b then true else false.

(** The code units removed by [trim] and matched by [\s]: WhiteSpace and
    LineTerminator of ECMAScript. *)
Definition whitespace_ranges : list (N * N) :=
  [ (9, 13); (32, 32); (160, 160); (5760, 5760); (8192, 8202);
    (8232, 8233); (8239, 8239); (8287, 8287); (12288, 12288);
    (65279, 65279) ]%N.

Definition in_ranges (rs : list (N * N)) (c : N) : bool :=
  existsb (fun r => (fst r <=? c)%N && (c <=? snd r)%N) rs.

Definition is_space (c : N) : bool := in_ranges whitespace_ranges c.

Fixpoint trimStart (s : t) : t :=
  match s with
  | c :: s' => if is_space c then trimStart s' else s
  | [] => []
  end.

Definition trimEnd (s : t) : t := rev (trimStart (rev s)).

(** [s.trim()] *)
Definition trim (s : t) : t := trimEnd (trimStart s).

Fixpoint starts_with (p s : t) : bool :=
  match p, s with
  | [], _ => true
  | a :: p', b :: s' => (a =? b)%N && starts_with p' s'
  | _ :: _, [] => false
  end.

(** [s.includes(p)] *)
Fixpoint includes (s p : t) : bool :=
  starts_with p s ||
  match s with
  | [] => false
  | _ :: s' => includes s' p
  end.

Definition newline : N := 10%N.

(** [s.split('\n')], by accumulation of the current piece; the result
    always has at least one element. *)
Fixpoint split_lines_aux (cur : t) (s : t) : list t :=
  match s with
  | [] => [rev cur]
  | c :: s' =>
      if (c =? newline)%N then rev cur :: split_lines_aux [] s'
      else split_lines_aux (c :: cur) s'
  end.

Definition split_lines (s : t) : list t := split_lines_aux [] s.

(** Truthiness of a string: the empty string is falsy. *)
Definition truthy (s : t) : bool :=
  match s with [] => false | _ => true end.

(** Decimal rendering of a natural number, as template literals do. *)
Definition of_nat (n : nat) : t :=
  js (NilZero.string_of_uint (Nat.to_uint n)).

Definition of_Z (z : Z) : t :=
  js (NilZero.string_of_int (Z.to_int z)).

End JsString.

Definition jsstring : Type := JsString.t.
Definition js : string -> jsstring := JsString.js.

(** ** Regular expressions *)

Module Regex.

Inductive regex : Type :=
| Eps
| Chr (c : N)
| Cls (negated : bool) (ranges : list (N * N))
| Dot
| Bol
| Eol
| Seq (r1 r2 : regex)
| Alt (r1 r2 : regex)
| Star (greedy : bool) (r : regex)
| Grp (i : nat) (r : regex).

(** Captures: the latest binding of a group number comes first. *)
Definition captures := list (nat * jsstring).

Definition answer : Type := nat * jsstring * captures.
Definition cont := nat -> jsstring -> captures -> option answer.

(** [.] does not match line terminators. *)
Definition line_terminators : list (N * N) :=
  [ (10, 10); (13, 13); (8232, 8233) ]%N.

(** Backtracking matcher in continuation-passing style.  [p] is the index
    of the first code unit of [s] in the subject.  Alternatives are tried
    left to right; a greedy star tries one more iteration before the
    continuation and a lazy one the continuation first; an iteration that
    consumes nothing is refused, so that [length s] iterations suffice. *)
Fixpoint run (r : regex) (p : nat) (s : jsstring) (c : captures) (k : cont)
  {struct r} : option answer :=
  match r with
  | Eps => k p s c
  | Chr a =>
      match s with
      | b :: s' => if (a =? b)%N then k (S p) s' c else None
      | [] => None
      end
  | Cls neg rs =>
      match s with
      | b :: s' =>
          if xorb neg (JsString.in_ranges rs b) then k (S p) s' c else None
      | [] => None
      end
  | Dot =>
      match s with
      | b :: s' =>
          if JsString.in_ranges line_terminators b then None else k (S p) s' c
      | [] => None
      end
  | Bol => if (p =? 0)%nat then k p s c else None
  | Eol => match s with [] => k p s c | _ :: _ => None end
  | Seq r1 r2 => run r1 p s c (fun p' s' c' => run r2 p' s' c' k)
  | Alt r1 r2 =>
      match run r1 p s c k with
      | Some a => Some a
      | None => run r2 p s c k
      end
  | Star greedy r' =>
      (fix loop (n : nat) (p : nat) (s : jsstring) (c : captures)
         {struct n} : option answer :=
         match n with
         | O => k p s c
         | S n' =>
             let again p' s' c' :=
               if (p <? p')%nat then loop n' p' s' c' else None in
             if greedy then
               match run r' p s c again with
               | Some a => Some a
               | None => k p s c
               end
             else
               match k p s c with
               | Some a => Some a
               | None => run r' p s c again
               end
         end) (List.length s) p s c
  | Grp i r' =>
      run r' p s c (fun p' s' c' => k p' s' ((i, firstn (p' - p) s) :: c'))
  end.

(** The result of [subject.match(re)] for a regular expression without
    the [g] flag: the matched text and the captured groups. *)
Record match_result : Type := MatchResult {
  index : nat;
  matched : jsstring;
  groups : captures
}.

Definition match_at (re : regex) (p : nat) (s : jsstring) : option match_result :=
  match run re p s [] (fun p' s' c' => Some (p', s', c')) with
  | Some (p', _, c') => Some (MatchResult p (firstn (p' - p) s) c')
  | None => None
  end.

(** Leftmost match: start positions are tried from [p] onwards. *)
Fixpoint search_from (re : regex) (p : nat) (s : jsstring) : option match_result :=
  match match_at re p s with
  | Some m => Some m
  | None =>
      match s with
      | [] => None
      | _ :: s' => search_from re (S p) s'
      end
  end.

(** [s.match(re)] *)
Definition exec (re : regex) (s : jsstring) : option match_result :=
  search_from re 0 s.

(** [re.test(s)] *)
Definition test (re : regex) (s : jsstring) : bool :=
  match exec re s with Some _ => true | None => false end.

(** [m[i]]: [None] stands for [undefined]. *)
Fixpoint lookup (i : nat) (c : captures) : option jsstring :=
  match c with
  | [] => None
  | (j, v) :: c' => if (i =? j)%nat then Some v else lookup i c'
  end.

Definition group (m : match_result) (i : nat) : option jsstring :=
  lookup i (groups m).

(** [m[i]] where the group takes part in every match; [m[i] || ''] *)
Definition group_str (m : match_result) (i : nat) : jsstring :=
  match group m i with Some v => v | None => [] end.

(** *** Derived forms *)

Definition Plus (greedy : bool) (r : regex) : regex := Seq r (Star greedy r).
Definition Opt (r : regex) : regex := Alt r Eps.

Fixpoint Rep (n : nat) (r : regex) : regex :=
  match n with O => Eps | S n' => Seq r (Rep n' r) end.

Fixpoint Lit_units (s : jsstring) : regex :=
  match s with
  | [] => Eps
  | [a] => Chr a
  | a :: s' => Seq (Chr a) (Lit_units s')
  end.

Definition Lit (s : string) : regex := Lit_units (js s).

Fixpoint Seqs (rs : list regex) : regex :=
  match rs with
  | [] => Eps
  | [r] => r
  | r :: rs' => Seq r (Seqs rs')
  end.

Fixpoint Alts (rs : list regex) : regex :=
  match rs with
  | [] => Cls false []
  | [r] => r
  | r :: rs' => Alt r (Alts rs')
  end.

Definition OneOf (ws : list string) : regex := Alts (map Lit ws).

Definition digit : regex := Cls false [(48, 57)%N].
Definition digits : regex := Plus true digit.
Definition space : regex := Cls false JsString.whitespace_ranges.
Definition nonspace : regex := Cls true JsString.whitespace_ranges.

(** [\d+(?:\.\d+)?] *)
Definition decimal : regex := Seq digits (Opt (Seq (Lit ".") digits)).

End Regex.

(** ** Numbers *)

Module JsNumber.

Definition is_digit (c : N) : bool := (48 <=? c)%N && (c <=? 57)%N.

Fixpoint take_digits (s : jsstring) : jsstring :=
  match s with
  | c :: s' => if is_digit c then c :: take_digits s' else []
  | [] => []
  end.

Fixpoint drop_digits (s : jsstring) : jsstring :=
  match s with
  | c :: s' => if is_digit c then drop_digits s' else s
  | [] => []
  end.

(** Value of a run of decimal digits, most significant first. *)
Definition digits_value (ds : jsstring) : N :=
  fold_left (fun acc c => (10 * acc + (c - 48))%N) ds 0%N.

Fixpoint pow10 (n : nat) : positive :=
  match n with
  | O => 1%positive
  | S n' => (10 * pow10 n')%positive
  end.

(** A Number value: a finite binary64 value, given by the rational it
    denotes, an infinity or NaN.  The two zeros are one value here: no
    operation of the parser (comparison, truthiness, division by a positive
    constant) tells them apart. *)
Inductive float64 : Type :=
| Finite (q : Q)
| Infinity (negative : bool)
| NaN.

(** [2^e] *)
Definition pow2 (e : Z) : Q := (2 ^ e)%Q.

(** The integer part of the binary logarithm of a positive rational: the
    difference of the logarithms of numerator and denominator, or one
    less. *)
Definition ilog2 (q : Q) : Z :=
  let c := (Z.log2 (Qnum q) - Z.log2 (Zpos (Qden q)))%Z in
  if Qle_bool (pow2 c) q then c else (c - 1)%Z.

(** The nearest integer, the even one of the two at a tie. *)
Definition nearest_even (x : Q) : Z :=
  let f := Qfloor x in
  match Qcompare (x - inject_Z f) (1 # 2) with
  | Lt => f
  | Gt => (f + 1)%Z
  | Eq => if Z.even f then f else (f + 1)%Z
  end.

(** A positive rational [q] rounded to 53 significant bits.  With [e] the
    exponent of [q], not below the least normal exponent -1022, the
    representable values near [q] are the multiples of [2^(e - 52)] (the
    subnormal values are the multiples of [2^(-1074)]). *)
Definition rounded (q : Q) : Q :=
  let ulp := pow2 (Z.max (ilog2 q) (-1022) - 52) in
  (inject_Z (nearest_even (q / ulp)) * ulp)%Q.

(** The binary64 value nearest to a positive rational: a rounded value of
    [2^1024] or more is infinity. *)
Definition round_pos (q : Q) : float64 :=
  let v := rounded q in
  if Qle_bool (pow2 1024) v then Infinity false else Finite (Qred v).

(** [-x] *)
Definition opp (x : float64) : float64 :=
  match x with
  | Finite q => Finite (Qred (- q))
  | Infinity s => Infinity (negb s)
  | NaN => NaN
  end.

(** The Number value of a rational: round to nearest, ties to even. *)
Definition round64 (q : Q) : float64 :=
  match Qnum q with
  | Z0 => Finite 0
  | Zpos _ => round_pos q
  | Zneg _ => opp (round_pos (- q))
  end.

(** [parseInt(s)] on a string that starts with a digit, which is what every
    call site passes (a [\d+] capture): the Number value of the leading
    digits.  It is an integer, exact up to [2^53] and rounded to 53
    significant bits above.  A numeral of more than 308 digits, whose
    Number value is [Infinity], has no value in [N]; it is given its exact
    value. *)
Definition parseInt (s : jsstring) : N :=
  let n := digits_value (take_digits s) in
  match round64 (inject_Z (Z.of_N n)) with
  | Finite q => Z.to_N (Qfloor q)
  | _ => n
  end.

(** [parseFloat(s)] on a string that starts with a digit: the Number value
    of the decimal numeral made of the leading digits and, when a dot
    follows them, of the fraction digits.  The value is correctly rounded,
    as the engines compute it (ECMAScript lets an implementation
    approximate a numeral of more than 20 significant digits). *)
Definition parseFloat (s : jsstring) : float64 :=
  let ip := take_digits s in
  match drop_digits s with
  | c :: s' =>
      if (c =? 46)%N then
        let fp := take_digits s' in
        round64 (Qmake (Z.of_N (digits_value (ip ++ fp))) (pow10 (List.length fp)))
      else round64 (Qmake (Z.of_N (digits_value ip)) 1)
  | [] => round64 (Qmake (Z.of_N (digits_value ip)) 1)
  end.

(** Truthiness of a number: zero and NaN are falsy. *)
Definition truthy (x : float64) : bool :=
  match x with
  | Finite q => negb (Qnum q =? 0)%Z
  | Infinity _ => true
  | NaN => false
  end.

(** [a || b] on numbers. *)
Definition or_else (a b : float64) : float64 := if truthy a then a else b.

(** [x / d] for a positive integer constant [d]. *)
Definition div (x : float64) (d : positive) : float64 :=
  match x with
  | Finite q => round64 (q / inject_Z (Zpos d))
  | Infinity s => Infinity s
  | NaN => NaN
  end.

(** [a <= b]: false when either side is NaN. *)
Definition leb (a b : float64) : bool :=
  match a, b with
  | NaN, _ | _, NaN => false
  | Infinity true, _ => true
  | _, Infinity false => true
  | Infinity false, _ => false
  | _, Infinity true => false
  | Finite x, Finite y => Qle_bool x y
  end.

(** [a < b]: false when either side is NaN. *)
Definition ltb (a b : float64) : bool :=
  match a, b with
  | NaN, _ | _, NaN => false
  | Infinity false, _ => false
  | _, Infinity true => false
  | Infinity true, _ => true
  | _, Infinity false => true
  | Finite x, Finite y => negb (Qle_bool y x)
  end.

(** The Number value of an integer. *)
Definition of_Z (z : Z) : float64 := round64 (inject_Z z).

(** A value of the floating-point specification of the Standard Library
    ([Floats.SpecFloat], the IEEE 754 operations on sign, significand and
    exponent) as a Number value. *)
Definition of_spec (x : spec_float) : float64 :=
  match x with
  | S754_zero _ => Finite 0
  | S754_infinity s => Infinity s
  | S754_nan => NaN
  | S754_finite s m e =>
      let v := Qred (inject_Z (Zpos m) * pow2 e) in
      Finite (if s then Qred (- v) else v)
  end.

(** The binary64 quotient of two positive integers by the division of that
    specification, which takes significands of any size. *)
Definition ieee_quotient (n d : positive) : spec_float :=
  SFdiv 53 1024 (S754_finite false n 0) (S754_finite false d 0).

End JsNumber.

(** ** Exceptions *)

(** The value carried by a [throw]; every value thrown by the parser is an
    [Error] object ([new Error(msg)], or the [ReferenceError] raised by an
    assignment to an undeclared identifier in module code), so that
    [error instanceof Error ? error.message : 'Unknown error'] is its
    message. *)
Inductive thrown : Type :=
| ErrorObject (message : jsstring)
| ReferenceError (message : jsstring).

Definition thrown_message (e : thrown) : jsstring :=
  match e with
  | ErrorObject m => m
  | ReferenceError m => m
  end.

Inductive outcome (A : Type) : Type :=
| Return (a : A)
| Throw (e : thrown).

Arguments Return {A} a.
Arguments Throw {A} e.

Definition bind {A B : Type} (m : outcome A) (f : A -> outcome B) : outcome B :=
  match m with
  | Return a => f a
  | Throw e => Throw e
  end.

(** [try { body } catch (error) { handler }] *)
Definition try_catch {A : Type} (body : outcome A) (handler : thrown -> outcome A)
  : outcome A :=
  match body with
  | Return a => Return a
  | Throw e => handler e
  end.

Declare Scope outcome_scope.
Delimit Scope outcome_scope with outcome.
Notation "x <- m ;; k" := (bind m (fun x => k))
  (at level 61, m at next level, right associativity) : outcome_scope.

Definition returns {A : Type} (m : outcome A) : Prop := exists a, m = Return a.
Definition throws {A : Type} (m : outcome A) : Prop := exists e, m = Throw e.

(** ** Data model (types/enums.ts, types/parser.ts) *)

Inductive Gender : Type := MALE | FEMALE | GELDING.
Inductive TrackCondition : Type := FIRM | GOOD | YIELDING | SOFT.
Inductive Surface : Type := TURF | DIRT.
Inductive RaceClass : Type :=
  G1 | G2 | G3 | LISTED | OPEN | CLASS_3 | CLASS_2 | CLASS_1 | MAIDEN.

(** A [Date] value: built from calendar fields by [new Date(y, m, d)], or
    read from the clock by [new Date()]. *)
Inductive JsDate : Type :=
| DateOfFields (year monthIndex day : Z)
| DateOfClock (now : Z).

Record RaceInfo : Type := mkRaceInfo {
  venue : jsstring;
  raceNumber : N;
  title : jsstring;
  distance : N;
  surface : Surface;
  condition : TrackCondition;
  raceClass : RaceClass;
  date : JsDate
}.

Record HorseData : Type := mkHorseData {
  number : N;
  name : jsstring;
  age : N;
  gender : Gender;
  weight : JsNumber.float64;
  jockeyName : jsstring;
  trainerName : jsstring
}.

Record OddsData : Type := mkOddsData {
  horseNumber : N;
  winOdds : JsNumber.float64;
  placeOddsMin : JsNumber.float64;
  placeOddsMax : JsNumber.float64
}.

Inductive ParseErrorType : Type := RACE_INFO | HORSE_DATA | ODDS_DATA | VALIDATION.

Record ParseError : Type := mkParseError {
  type : ParseErrorType;
  field : jsstring;
  message : jsstring;
  rawData : option jsstring;
  lineNumber : option nat
}.

Record ParseResult (T : Type) : Type := mkParseResult {
  success : bool;
  data : option T;
  errors : list ParseError;
  warnings : list jsstring
}.

Arguments mkParseResult {T} _ _ _ _.

Record ParserConfig : Type := mkParserConfig {
  strictMode : bool;
  skipInvalidHorses : bool;
  defaultOdds : JsNumber.float64;
  maxHorses : Z
}.

(** The configuration of [new NetKeibaParser()]; [defaultOdds] is the
    literal [99.9]. *)
Definition defaultConfig : ParserConfig :=
  mkParserConfig false true (JsNumber.round64 (999 # 10)) 18.

(** The form record returned by the public roster entry point. *)
Inductive GenderString : Type := male | female | gelding.

Record HorseDataForm : Type := mkHorseDataForm {
  form_number : N;
  form_name : jsstring;
  form_age : N;
  form_gender : GenderString;
  form_weight : JsNumber.float64;
  form_jockeyName : jsstring;
  form_trainerName : jsstring;
  form_ownerName : jsstring
}.

Definition has_field (f : string) (e : ParseError) : bool :=
  JsString.eqb (field e) (js f).

(** [s === 'literal'] *)
Definition is_lit (s : jsstring) (l : string) : bool := JsString.eqb s (js l).

(** [a || 'literal'] on an optional capture. *)
Definition str_or (a : option jsstring) (l : string) : jsstring :=
  match a with
  | Some s => if JsString.truthy s then s else js l
  | None => js l
  end.

(** ** Collections *)

(** A [Map] with number keys, in insertion order: [set] on a present key
    replaces the value in place, on an absent key it appends the entry. *)
Module JsMap.

Section WithValues.

Variable V : Type.

Definition t := list (N * V).

Fixpoint get (k : N) (m : t) : option V :=
  match m with
  | [] => None
  | (k', v) :: m' => if (k =? k')%N then Some v else get k m'
  end.

Fixpoint set (k : N) (v : V) (m : t) : t :=
  match m with
  | [] => [(k, v)]
  | (k', v') :: m' =>
      if (k =? k')%N then (k, v) :: m' else (k', v') :: set k v m'
  end.

Definition keys (m : t) : list N := map fst m.

End WithValues.

End JsMap.

(** A [Set] of numbers, in insertion order. *)
Module JsSet.

Definition has (x : N) (s : list N) : bool := existsb (N.eqb x) s.

Definition add (s : list N) (x : N) : list N :=
  if has x s then s else s ++ [x].

(** [new Set(iterable)] *)
Definition of_list (l : list N) : list N := fold_left add l [].

End JsSet.

(** ** Values of unknown type (types/validation.ts) *)

(** The values [validateParsedData] may receive.  An object is the list of
    its own properties; an array has no named property besides [length]. *)
Inductive JsValue : Type :=
| VUndefined
| VNull
| VBool (b : bool)
| VNumber (x : JsNumber.float64)
| VString (s : jsstring)
| VObject (props : list (jsstring * JsValue))
| VArray (items : list JsValue).

Record ValidationError : Type := mkValidationError {
  v_field : jsstring;
  v_message : jsstring;
  v_value : JsValue
}.

Record ValidationResult : Type := mkValidationResult {
  isValid : bool;
  v_errors : list ValidationError
}.

Module JsObject.

Definition truthy (v : JsValue) : bool :=
  match v with
  | VUndefined | VNull => false
  | VBool b => b
  | VNumber q => JsNumber.truthy q
  | VString s => JsString.truthy s
  | VObject _ | VArray _ => true
  end.

(** [typeof v === 'object'] *)
Definition is_object (v : JsValue) : bool :=
  match v with
  | VNull | VObject _ | VArray _ => true
  | _ => false
  end.

Fixpoint assoc (key : jsstring) (props : list (jsstring * JsValue))
  : option JsValue :=
  match props with
  | [] => None
  | (k, v) :: props' => if JsString.eqb key k then Some v else assoc key props'
  end.

(** [key in v] together with [v[key]], for a key that is neither an index
    nor [length]: [None] when the property is absent. *)
Definition get (key : string) (v : JsValue) : option JsValue :=
  match v with
  | VObject props => assoc (js key) props
  | _ => None
  end.

End JsObject.

(** ** Helpers shared by the two parser variants *)

Module Common.

Import Regex.

Definition parseSurface (surfaceStr : jsstring) : Surface :=
  if is_lit surfaceStr "芝" then TURF
  else if is_lit surfaceStr "ダート" then DIRT
  else TURF.

Definition parseTrackCondition (conditionStr : jsstring) : TrackCondition :=
  if is_lit conditionStr "良" then FIRM
  else if is_lit conditionStr "稍重" then GOOD
  else if is_lit conditionStr "重" then YIELDING
  else if is_lit conditionStr "不良" then SOFT
  else FIRM.

Definition parseRaceClass (classStr : jsstring) : RaceClass :=
  if is_lit classStr "G1" then G1
  else if is_lit classStr "G2" then G2
  else if is_lit classStr "G3" then G3
  else if is_lit classStr "Listed" then LISTED
  else if is_lit classStr "オープン" then OPEN
  else if is_lit classStr "3勝クラス" then CLASS_3
  else if is_lit classStr "2勝クラス" then CLASS_2
  else if is_lit classStr "1勝クラス" then CLASS_1
  else if is_lit classStr "未勝利" then MAIDEN
  else OPEN.

Definition parseGender (genderStr : jsstring) : Gender :=
  if is_lit genderStr "牡" then MALE
  else if is_lit genderStr "牝" then FEMALE
  else if is_lit genderStr "セ" then GELDING
  else MALE.

Definition convertGenderToString (g : Gender) : GenderString :=
  match g with
  | MALE => male
  | FEMALE => female
  | GELDING => gelding
  end.

(** The conversion done by [parseHorseData] on each record. *)
Definition toForm (horse : HorseData) : HorseDataForm :=
  mkHorseDataForm (number horse) (name horse) (age horse)
    (convertGenderToString (gender horse)) (weight horse)
    (jockeyName horse) (trainerName horse) [].

(** [result.errors?.[0]?.message || 'パースに失敗しました'] *)
Definition firstErrorMessage (errs : list ParseError) : jsstring :=
  match errs with
  | e :: _ => if JsString.truthy (message e) then message e
              else js "パースに失敗しました"
  | [] => js "パースに失敗しました"
  end.

(** The public roster entry point, over the result of the internal one:
    it throws unless the internal result is successful and has data. *)
Definition parseHorseDataOf (result : ParseResult (list HorseData))
  : outcome (list HorseDataForm) :=
  match success result, data result with
  | true, Some horses => Return (map toForm horses)
  | _, _ => Throw (ErrorObject (firstErrorMessage (errors result)))
  end.

(** [/^(\d+)\s+(\d+(?:\.\d+)?)\s+(\d+(?:\.\d+)?)-(\d+(?:\.\d+)?)/] *)
Definition oddsLinePattern : regex :=
  Seqs [Bol; Grp 1 digits; Plus true space; Grp 2 decimal; Plus true space;
        Grp 3 decimal; Lit "-"; Grp 4 decimal].

(** [/^(\d+)\s+(\d+(?:\.\d+)?)/] *)
Definition oddsSimplePattern : regex :=
  Seqs [Bol; Grp 1 digits; Plus true space; Grp 2 decimal].

(** [parseOddsLine], a private method present in both variants (only the
    line-keyed [parseOdds] calls it). *)
Definition parseOddsLine (line : jsstring) (_lineNumber : nat) : outcome OddsData :=
  match exec oddsLinePattern line with
  | None =>
      match exec oddsSimplePattern line with
      | Some simpleMatch =>
          let numberStr := group_str simpleMatch 1 in
          let winOddsStr := group_str simpleMatch 2 in
          Return (mkOddsData (JsNumber.parseInt numberStr)
                    (JsNumber.parseFloat winOddsStr)
                    (JsNumber.div (JsNumber.parseFloat winOddsStr) 3)
                    (JsNumber.div (JsNumber.parseFloat winOddsStr) 2))
      | None =>
          Throw (ErrorObject (js "オッズデータの形式が正しくありません: " ++ line))
      end
  | Some m =>
      Return (mkOddsData (JsNumber.parseInt (group_str m 1))
                (JsNumber.parseFloat (group_str m 2))
                (JsNumber.parseFloat (group_str m 3))
                (JsNumber.parseFloat (group_str m 4)))
  end.

Definition noHorseError (text : jsstring) : ParseError :=
  mkParseError HORSE_DATA (js "general")
    (js "有効な馬データが見つかりませんでした") (Some text) None.

Definition maxHorsesWarning (cfg : ParserConfig) : jsstring :=
  js "出走頭数が上限（" ++ JsString.of_Z (maxHorses cfg) ++ js "頭）を超えています".

(** What follows the loop of [parseHorseDataInternal], the same in both
    variants: the two roster-level checks and the result. *)
Definition finishRoster (cfg : ParserConfig) (text : jsstring)
    (st : list HorseData * list ParseError * list jsstring)
  : ParseResult (list HorseData) :=
  let '(horses, errors, warnings) := st in
  let errors :=
    if (List.length horses =? 0)%nat then errors ++ [noHorseError text]
    else errors in
  let warnings :=
    if (maxHorses cfg <? Z.of_nat (List.length horses))%Z
    then warnings ++ [maxHorsesWarning cfg]
    else warnings in
  mkParseResult (List.length errors =? 0)%nat (Some horses) errors warnings.

(** [validateParsedData], the same in both variants. *)
Definition validateParsedData (data : JsValue) : ValidationResult :=
  if negb (JsObject.truthy data) || negb (JsObject.is_object data) then
    mkValidationResult false
      [mkValidationError (js "data") (js "データが無効です") data]
  else
    let errors :=
      (match JsObject.get "venue" data with
       | Some (VString v) =>
           if negb (JsString.truthy v)
              || (List.length (JsString.trim v) =? 0)%nat
           then [mkValidationError (js "venue") (js "競馬場名は必須です") (VString v)]
           else []
       | _ => []
       end)
      ++ (match JsObject.get "distance" data with
          | Some (VNumber d) =>
              if JsNumber.ltb d (JsNumber.Finite 1000)
                 || JsNumber.ltb (JsNumber.Finite 4000) d
              then [mkValidationError (js "distance")
                      (js "距離は1000m-4000mの範囲で入力してください") (VNumber d)]
              else []
          | _ => []
          end)
      ++ (match JsObject.get "raceNumber" data with
          | Some (VNumber n) =>
              if JsNumber.ltb n (JsNumber.Finite 1)
                 || JsNumber.ltb (JsNumber.Finite 12) n
              then [mkValidationError (js "raceNumber")
                      (js "レース番号は1-12の範囲で入力してください") (VNumber n)]
              else []
          | _ => []
          end) in
    mkValidationResult (List.length errors =? 0)%nat errors.

(** A roster as the array of objects it is at run time. *)
Definition genderValue (g : Gender) : JsValue :=
  VString (match g with
           | MALE => js "male"
           | FEMALE => js "female"
           | GELDING => js "gelding"
           end).

Definition horseValue (h : HorseData) : JsValue :=
  VObject [ (js "number", VNumber (JsNumber.of_Z (Z.of_N (number h))));
            (js "name", VString (name h));
            (js "age", VNumber (JsNumber.of_Z (Z.of_N (age h))));
            (js "gender", genderValue (gender h));
            (js "weight", VNumber (weight h));
            (js "jockeyName", VString (jockeyName h));
            (js "trainerName", VString (trainerName h)) ].

Definition rosterValue (horses : list HorseData) : JsValue :=
  VArray (map horseValue horses).

(** [text.split('\n').filter(line => line.trim())] *)
Definition nonblank_lines (text : jsstring) : list jsstring :=
  filter (fun line => JsString.truthy (JsString.trim line))
         (JsString.split_lines text).

End Common.

(** ** The layout-keyed parser *)

Module Layout.

Import Regex Common.

(** *** Race information *)

(** [/(\d+):(\d+)発走.*(芝|ダート)(\d+)m.*馬場:(良|稍重|重|不良)/] *)
Definition raceDetails : regex :=
  Seqs [Grp 1 digits; Lit ":"; Grp 2 digits; Lit "発走"; Star true Dot;
        Grp 3 (OneOf ["芝"; "ダート"]); Grp 4 digits; Lit "m"; Star true Dot;
        Lit "馬場:"; Grp 5 (OneOf ["良"; "稍重"; "重"; "不良"])].

(** [/(\d+)回\s*(東京|中山|阪神|京都|中京|新潟|福島|小倉|札幌|函館)\s*(\d+)日目.*?(G[123]|リステッド|Listed|オープン|3勝クラス|2勝クラス|1勝クラス|未勝利|新馬)/] *)
Definition meetingInfo : regex :=
  Seqs [Grp 1 digits; Lit "回"; Star true space;
        Grp 2 (OneOf ["東京"; "中山"; "阪神"; "京都"; "中京"; "新潟"; "福島";
                      "小倉"; "札幌"; "函館"]);
        Star true space; Grp 3 digits; Lit "日目"; Star false Dot;
        Grp 4 (Alts [Seq (Lit "G") (Cls false [(49, 51)%N]);
                     Lit "リステッド"; Lit "Listed"; Lit "オープン";
                     Lit "3勝クラス"; Lit "2勝クラス"; Lit "1勝クラス";
                     Lit "未勝利"; Lit "新馬"])].

(** [/(\d+)R/] *)
Definition raceNumberGuess : regex := Seq (Grp 1 digits) (Lit "R").

Definition raceInfoError (f msg : string) (text : jsstring) : ParseError :=
  mkParseError RACE_INFO (js f) (js msg) (Some text) None.

Definition raceNumberWarning : jsstring :=
  js "レース番号が特定できないため、デフォルト値を使用します。".

Definition isCritical (e : ParseError) : bool :=
  has_field "title" e || has_field "raceDetails" e || has_field "meetingInfo" e.

(** The pushes on [errors] of the three field checks, in order. *)
Definition raceInfoErrors (text titleMatch : jsstring)
    (raceDetailsMatch meetingMatch : option match_result) : list ParseError :=
  (if JsString.truthy titleMatch then []
   else [raceInfoError "title" "レース名が見つかりません" text])
  ++ (match raceDetailsMatch with
      | Some _ => []
      | None => [raceInfoError "raceDetails" "レース詳細情報が見つかりません" text]
      end)
  ++ (match meetingMatch with
      | Some _ => []
      | None => [raceInfoError "meetingInfo" "開催情報が見つかりません" text]
      end).

(** The body of the [try] block of [parseRaceInfo]; [now] is the value of
    the clock read by [new Date()]. *)
Definition parseRaceInfoBody (cfg : ParserConfig) (text : jsstring) (now : Z)
  : ParseResult RaceInfo :=
  let lines := JsString.split_lines text in
  let line0 := hd [] lines in
  let titleMatch := if JsString.truthy line0 then JsString.trim line0 else [] in
  let raceDetailsMatch := exec raceDetails text in
  let meetingMatch := exec meetingInfo text in
  let errors := raceInfoErrors text titleMatch raceDetailsMatch meetingMatch in
  let '(raceNumber, warnings) :=
    match exec raceNumberGuess text with
    | Some m => (JsNumber.parseInt (group_str m 1), [])
    | None => (11%N, [raceNumberWarning])
    end in
  if (0 <? List.length errors)%nat && strictMode cfg then
    mkParseResult false None errors warnings
  else if (0 <? List.length errors)%nat
          && (0 <? List.length (filter isCritical errors))%nat then
    mkParseResult false None errors warnings
  else
    let raceInfo :=
      {| venue := str_or (option_map (fun m => group_str m 2) meetingMatch) "不明";
         raceNumber := raceNumber;
         title := str_or (Some titleMatch) "不明";
         distance := match raceDetailsMatch with
                     | Some m => JsNumber.parseInt (group_str m 4)
                     | None => 0%N
                     end;
         surface := parseSurface
                      (str_or (option_map (fun m => group_str m 3) raceDetailsMatch) "芝");
         condition := parseTrackCondition
                      (str_or (option_map (fun m => group_str m 5) raceDetailsMatch) "良");
         raceClass := parseRaceClass
                      (str_or (option_map (fun m => group_str m 4) meetingMatch) "オープン");
         date := DateOfClock now |} in
    mkParseResult true (Some raceInfo) errors warnings.

(** [parseRaceInfo]: no statement of the [try] block throws, so the
    handler, which would add a ["general"] error, is never entered. *)
Definition parseRaceInfo (cfg : ParserConfig) (text : jsstring) (now : Z)
  : outcome (ParseResult RaceInfo) :=
  try_catch (Return (parseRaceInfoBody cfg text now))
    (fun error =>
       Return (mkParseResult false None
                 [mkParseError RACE_INFO (js "general")
                    (js "パース中にエラーが発生しました: " ++ thrown_message error)
                    (Some text) None] [])).

(** *** Roster *)

(** [/^(\d+)\s+(\d+)\s*$/] *)
Definition frameHorseLine : regex :=
  Seqs [Bol; Grp 1 digits; Plus true space; Grp 2 digits; Star true space; Eol].

(** [/^(\d+)\s+(\d+)/] *)
Definition frameHorseHead : regex :=
  Seqs [Bol; Grp 1 digits; Plus true space; Grp 2 digits].

Definition nl : jsstring := [JsString.newline].

(** The loop of [splitIntoHorseBlocks] over the remaining lines, with the
    state [blocks], [currentBlock], [inHorseData]. *)
Fixpoint splitLoop (lines : list jsstring) (blocks : list jsstring)
    (currentBlock : jsstring) (inHorseData : bool) : list jsstring :=
  match lines with
  | [] =>
      if JsString.truthy (JsString.trim currentBlock) && inHorseData
      then blocks ++ [JsString.trim currentBlock]
      else blocks
  | line :: rest =>
      if test frameHorseLine line then
        let blocks' :=
          if JsString.truthy (JsString.trim currentBlock) && inHorseData
          then blocks ++ [JsString.trim currentBlock]
          else blocks in
        let currentBlock' :=
          match rest with
          | next :: _ => line ++ nl ++ next
          | [] => line
          end in
        splitLoop rest blocks' currentBlock' true
      else if inHorseData then
        splitLoop rest blocks (currentBlock ++ nl ++ line) inHorseData
      else
        splitLoop rest blocks currentBlock inHorseData
  end.

Definition splitIntoHorseBlocks (text : jsstring) : list jsstring :=
  splitLoop (JsString.split_lines text) [] [] false.

(** [/[ァ-ヶー\u3040-\u309F\u30A0-\u30FFa-zA-Z]/] *)
Definition nameLetter : regex :=
  Cls false [(0x30A1, 0x30F6); (0x30FC, 0x30FC); (0x3040, 0x309F);
             (0x30A0, 0x30FF); (97, 122); (65, 90)]%N.

Definition nameNoise : list string :=
  ["("; ")"; "kg"; "人気"; "美浦"; "栗東"; "差"; "逃"; "先"; "牡"; "牝"; "セ";
   "週"; "休養"].

(** The condition under which a trimmed line is pushed on
    [candidateNames]. *)
Definition isNameCandidate (line : jsstring) : bool :=
  JsString.truthy line
  && test nameLetter line
  && forallb (fun w => negb (JsString.includes line (js w))) nameNoise.

(** [/(\d+\.\d+)\s*\((\d+)人気\)/] *)
Definition oddsPattern : regex :=
  Seqs [Grp 1 (Seqs [digits; Lit "."; digits]); Star true space; Lit "(";
        Grp 2 digits; Lit "人気"; Lit ")"].

(** [/(牡|牝|セ)(\d+)(黒鹿|栗|鹿|青鹿|芦|白)/] *)
Definition genderAgeColorPattern : regex :=
  Seqs [Grp 1 (OneOf ["牡"; "牝"; "セ"]); Grp 2 digits;
        Grp 3 (OneOf ["黒鹿"; "栗"; "鹿"; "青鹿"; "芦"; "白"])].

(** [/(\d+)kg\(([+-]?\d+)\)/] *)
Definition weightPattern : regex :=
  Seqs [Grp 1 digits; Lit "kg"; Lit "(";
        Grp 2 (Seq (Opt (Cls false [(43, 43); (45, 45)]%N)) digits); Lit ")"].

(** [/^[\u3040-\u309F\u30A0-\u30FF\u4e00-\u9faf\u3041-\u3096\u30a1-\u30fa\uff41-\uff5a\uff21-\uff3a\u30fcア-ンa-zA-Z\u30fbー、。、。・·\u3005]+$/] *)
Definition jockeyLetters : regex :=
  Seqs [Bol;
        Plus true
          (Cls false [(0x3040, 0x309F); (0x30A0, 0x30FF); (0x4E00, 0x9FAF);
                      (0x3041, 0x3096); (0x30A1, 0x30FA); (0xFF41, 0xFF5A);
                      (0xFF21, 0xFF3A); (0x30FC, 0x30FC); (0x30A2, 0x30F3);
                      (97, 122); (65, 90); (0x30FB, 0x30FB); (0x30FC, 0x30FC);
                      (0x3001, 0x3001); (0x3002, 0x3002); (0x3001, 0x3001);
                      (0x3002, 0x3002); (0x30FB, 0x30FB); (0xB7, 0xB7);
                      (0x3005, 0x3005)]%N);
        Eol].

(** [/[差逃先大][中大週]/] *)
Definition runningStyle : regex :=
  Seq (Alts [Lit "差"; Lit "逃"; Lit "先"; Lit "大"])
      (Alts [Lit "中"; Lit "大"; Lit "週"]).

(** [/^\d+\.\d+/] *)
Definition decimalHead : regex := Seqs [Bol; digits; Lit "."; digits].

(** [/^(\d+\.\d+)/] *)
Definition weightHead : regex := Seq Bol (Grp 1 (Seqs [digits; Lit "."; digits])).

(** [/^\d{4}/] *)
Definition yearHead : regex := Seq Bol (Rep 4 digit).

(** [/(美浦|栗東)・([^\s]+)/] *)
Definition trainerPattern : regex :=
  Seqs [Grp 1 (OneOf ["美浦"; "栗東"]); Lit "・"; Grp 2 (Plus true nonspace)].

Definition jockeyNoise : list string :=
  ["kg"; "人気"; "休養"; "鉄砲"; "ヵ月"; "走目"].

(** The condition of the jockey-name branch on a trimmed line, the flag
    [foundGenderAge] apart. *)
Definition isJockeyName (line : jsstring) : bool :=
  JsString.truthy line
  && (2 <=? List.length line)%nat
  && (List.length line <=? 8)%nat
  && test jockeyLetters line
  && negb (JsString.includes line (js "美浦"))
  && negb (JsString.includes line (js "栗東"))
  && negb (test runningStyle line)
  && forallb (fun w => negb (JsString.includes line (js w))) jockeyNoise
  && negb (is_lit line "映像を見る")
  && negb (test decimalHead line)
  && negb (test yearHead line).

(** [for (const line of lines) { const match = line.match(re); if (match) ... break }] *)
Fixpoint firstMatch (re : regex) (lines : list jsstring) : option match_result :=
  match lines with
  | [] => None
  | line :: rest =>
      match exec re line with
      | Some m => Some m
      | None => firstMatch re rest
      end
  end.

(** The jockey loop of [parseHorseBlock] over the remaining lines; the
    result is [(jockeyName, weight)]. *)
Fixpoint scanJockey (lines : list jsstring) (foundGenderAge : bool)
  : jsstring * JsNumber.float64 :=
  match lines with
  | [] => ([], JsNumber.Finite 55)
  | raw :: rest =>
      let line := JsString.trim raw in
      if test genderAgeColorPattern line then scanJockey rest true
      else if is_lit line "" && foundGenderAge then scanJockey rest foundGenderAge
      else if foundGenderAge && isJockeyName line then
        (line,
         match rest with
         | next :: _ =>
             match exec weightHead (JsString.trim next) with
             | Some weightMatch => JsNumber.parseFloat (group_str weightMatch 1)
             | None => JsNumber.Finite 55
             end
         | [] => JsNumber.Finite 55
         end)
      else scanJockey rest foundGenderAge
  end.

(** [parseHorseBlock].  The assignments [odds = ...] and [bodyWeight = ...]
    target identifiers whose declarations are commented out; in module
    code such an assignment raises a [ReferenceError]. *)
Definition parseHorseBlock (block : jsstring) (blockNumber : nat)
  : outcome HorseData :=
  let lines := JsString.split_lines block in
  let firstLine := hd [] lines in
  match exec frameHorseHead firstLine with
  | None => Throw (ErrorObject (js "枠番・馬番が見つかりません: " ++ firstLine))
  | Some frameHorseMatch =>
      let horseNumber := JsNumber.parseInt (group_str frameHorseMatch 2) in
      let candidateNames :=
        filter isNameCandidate (map JsString.trim (firstn 4 (skipn 2 lines))) in
      let horseName :=
        match candidateNames with
        | _ :: second :: _ => second
        | [first] => first
        | [] => []
        end in
      if negb (JsString.truthy horseName) then
        Throw (ErrorObject (js "馬名が見つかりません: ブロック"
                              ++ JsString.of_nat blockNumber))
      else if existsb (test oddsPattern) lines then
        Throw (ReferenceError (js "odds is not defined"))
      else
        let '(gender, age) :=
          match firstMatch genderAgeColorPattern lines with
          | Some m => (group_str m 1, JsNumber.parseInt (group_str m 2))
          | None => (js "male", 4%N)
          end in
        if existsb (test weightPattern) lines then
          Throw (ReferenceError (js "bodyWeight is not defined"))
        else
          let '(jockeyName, weight) := scanJockey lines false in
          let trainerName :=
            match firstMatch trainerPattern lines with
            | Some m => JsString.trim (group_str m 2)
            | None => []
            end in
          Return (mkHorseData horseNumber horseName age (parseGender gender)
                    weight jockeyName trainerName)
  end.

Definition blockError (i : nat) (error : thrown) (block : jsstring) : ParseError :=
  mkParseError HORSE_DATA (js "horseBlock")
    (JsString.of_nat (i + 1) ++ js "番目の馬データパースに失敗: "
       ++ thrown_message error)
    (Some block) (Some (i + 1)%nat).

(** The [for] loop of [parseHorseDataInternal] from index [i] on, over the
    state [horses], [errors], [warnings]. *)
Fixpoint blockLoop (cfg : ParserConfig) (blocks : list jsstring) (i : nat)
    (horses : list HorseData) (errors : list ParseError)
    (warnings : list jsstring)
  : list HorseData * list ParseError * list jsstring :=
  match blocks with
  | [] => (horses, errors, warnings)
  | block :: rest =>
      match parseHorseBlock block (i + 1) with
      | Return horse =>
          blockLoop cfg rest (S i) (horses ++ [horse]) errors warnings
      | Throw error =>
          let parseError := blockError i error block in
          if skipInvalidHorses cfg then
            blockLoop cfg rest (S i) horses errors
              (warnings ++ [message parseError])
          else
            blockLoop cfg rest (S i) horses (errors ++ [parseError]) warnings
      end
  end.

Definition parseHorseDataInternalBody (cfg : ParserConfig) (text : jsstring)
  : ParseResult (list HorseData) :=
  finishRoster cfg text
    (blockLoop cfg (splitIntoHorseBlocks text) 0 [] [] []).

(** [parseHorseDataInternal]: what [parseHorseBlock] throws is caught
    inside the loop, so the outer handler is never entered. *)
Definition parseHorseDataInternal (cfg : ParserConfig) (text : jsstring)
  : outcome (ParseResult (list HorseData)) :=
  try_catch (Return (parseHorseDataInternalBody cfg text))
    (fun error =>
       Return (mkParseResult false None
                 [mkParseError HORSE_DATA (js "general")
                    (js "馬データパース中にエラーが発生しました: "
                       ++ thrown_message error)
                    (Some text) None] [])).

(** [parseHorseData], the public roster entry point. *)
Definition parseHorseData (cfg : ParserConfig) (text : jsstring)
  : outcome (list HorseDataForm) :=
  bind (parseHorseDataInternal cfg text) parseHorseDataOf.

(** *** Odds *)

(** The value of [currentSection]: [''], ['win'] or ['place']. *)
Inductive section : Type := NoSection | WinSection | PlaceSection.

(** [/^(.+?)\s+(\d+(?:\.\d+)?)$/] *)
Definition winLine : regex :=
  Seqs [Bol; Grp 1 (Plus false Dot); Plus true space; Grp 2 decimal; Eol].

(** [/^(.+?)\s+(\d+(?:\.\d+)?)\s*-\s*(\d+(?:\.\d+)?)$/] *)
Definition placeLine : regex :=
  Seqs [Bol; Grp 1 (Plus false Dot); Plus true space; Grp 2 decimal;
        Star true space; Lit "-"; Star true space; Grp 3 decimal; Eol].

Definition isHeaderLine (line : jsstring) : bool :=
  (JsString.includes line (js "枠") && JsString.includes line (js "馬"))
  || (JsString.includes line (js "番") && JsString.includes line (js "印"))
  || (JsString.includes line (js "選択") && JsString.includes line (js "馬名")).

Record oddsState : Type := mkOddsState {
  currentSection : section;
  winOddsData : JsMap.t JsNumber.float64;
  placeOddsData : JsMap.t (JsNumber.float64 * JsNumber.float64)
}.

(** The scan loop of [parseOdds] over the remaining lines.  When a marker
    line is followed by a data line that matches in the current section,
    the data line is consumed with it ([i++]). *)
Fixpoint oddsLoop (lines : list jsstring) (st : oddsState) : oddsState :=
  match lines with
  | [] => st
  | raw :: rest =>
      let line := JsString.trim raw in
      if negb (JsString.truthy line) then oddsLoop rest st
      else if is_lit line "単勝" then
        oddsLoop rest (mkOddsState WinSection (winOddsData st) (placeOddsData st))
      else if is_lit line "複勝" then
        oddsLoop rest (mkOddsState PlaceSection (winOddsData st) (placeOddsData st))
      else if isHeaderLine line then oddsLoop rest st
      else
        match exec frameHorseLine line, rest with
        | Some frameHorseMatch, next :: rest' =>
            let horseNumber := JsNumber.parseInt (group_str frameHorseMatch 2) in
            let nextLine := JsString.trim next in
            match currentSection st with
            | WinSection =>
                match exec winLine nextLine with
                | Some winMatch =>
                    let odds := JsNumber.parseFloat (group_str winMatch 2) in
                    oddsLoop rest'
                      (mkOddsState (currentSection st)
                         (JsMap.set horseNumber odds (winOddsData st))
                         (placeOddsData st))
                | None => oddsLoop rest st
                end
            | PlaceSection =>
                match exec placeLine nextLine with
                | Some placeMatch =>
                    let minOdds := JsNumber.parseFloat (group_str placeMatch 2) in
                    let maxOdds := JsNumber.parseFloat (group_str placeMatch 3) in
                    oddsLoop rest'
                      (mkOddsState (currentSection st) (winOddsData st)
                         (JsMap.set horseNumber (minOdds, maxOdds)
                            (placeOddsData st)))
                | None => oddsLoop rest st
                end
            | NoSection => oddsLoop rest st
            end
        | _, _ => oddsLoop rest st
        end
  end.

(** The record pushed for one horse number of the union. *)
Definition combine (cfg : ParserConfig) (st : oddsState) (horseNumber : N)
  : OddsData :=
  let winOdds :=
    match JsMap.get horseNumber (winOddsData st) with
    | Some w => JsNumber.or_else w (defaultOdds cfg)
    | None => defaultOdds cfg
    end in
  let placeOdds := JsMap.get horseNumber (placeOddsData st) in
  {| horseNumber := horseNumber;
     winOdds := winOdds;
     placeOddsMin := match placeOdds with
                     | Some (min, _) =>
                         JsNumber.or_else min (JsNumber.div winOdds 3)
                     | None => JsNumber.div winOdds 3
                     end;
     placeOddsMax := match placeOdds with
                     | Some (_, max) =>
                         JsNumber.or_else max (JsNumber.div winOdds 2)
                     | None => JsNumber.div winOdds 2
                     end |}.

(** [oddsData.sort((a, b) => a.horseNumber - b.horseNumber)]: the sort is
    stable, an element goes before the first one that is not smaller. *)
Fixpoint insertByNumber (x : OddsData) (l : list OddsData) : list OddsData :=
  match l with
  | [] => [x]
  | y :: l' =>
      if (horseNumber x <=? horseNumber y)%N then x :: y :: l'
      else y :: insertByNumber x l'
  end.

Fixpoint sortByNumber (l : list OddsData) : list OddsData :=
  match l with
  | [] => []
  | x :: l' => insertByNumber x (sortByNumber l')
  end.

Definition scanOdds (text : jsstring) : oddsState :=
  oddsLoop (nonblank_lines text) (mkOddsState NoSection [] []).

Definition allHorseNumbers (st : oddsState) : list N :=
  JsSet.of_list (JsMap.keys (winOddsData st) ++ JsMap.keys (placeOddsData st)).

Definition parseOddsBody (cfg : ParserConfig) (text : jsstring)
  : ParseResult (list OddsData) :=
  let st := scanOdds text in
  let oddsData := map (combine cfg st) (allHorseNumbers st) in
  mkParseResult true (Some (sortByNumber oddsData)) [] [].

(** [parseOdds]: nothing is ever pushed on [errors] or [warnings], and no
    statement of the [try] block throws. *)
Definition parseOdds (cfg : ParserConfig) (text : jsstring)
  : outcome (ParseResult (list OddsData)) :=
  try_catch (Return (parseOddsBody cfg text))
    (fun error =>
       Return (mkParseResult false None
                 [mkParseError ODDS_DATA (js "general")
                    (js "オッズデータパース中にエラーが発生しました: "
                       ++ thrown_message error)
                    (Some text) None] [])).

End Layout.

(** ** The line-keyed parser *)

Module Legacy.

Import Regex Common.

(** *** Race information *)

(** [/(東京|中山|阪神|京都|中京|新潟|福島|小倉|札幌|函館)/] *)
Definition venuePattern : regex :=
  Grp 1 (OneOf ["東京"; "中山"; "阪神"; "京都"; "中京"; "新潟"; "福島";
                "小倉"; "札幌"; "函館"]).

(** [/(\d+)R/] *)
Definition raceNumberPattern : regex := Seq (Grp 1 digits) (Lit "R").

(** [/(\d+R\s+)([^\s]+)/] *)
Definition titlePattern : regex :=
  Seq (Grp 1 (Seqs [digits; Lit "R"; Plus true space]))
      (Grp 2 (Plus true nonspace)).

(** [/(芝|ダート)(\d+)m/] *)
Definition distancePattern : regex :=
  Seqs [Grp 1 (OneOf ["芝"; "ダート"]); Grp 2 digits; Lit "m"].

(** [/(良|稍重|重|不良)/] *)
Definition conditionPattern : regex :=
  Grp 1 (OneOf ["良"; "稍重"; "重"; "不良"]).

(** [/(G[123]|Listed|オープン|3勝クラス|2勝クラス|1勝クラス|未勝利)/] *)
Definition classPattern : regex :=
  Grp 1 (Alts [Seq (Lit "G") (Cls false [(49, 51)%N]); Lit "Listed";
               Lit "オープン"; Lit "3勝クラス"; Lit "2勝クラス";
               Lit "1勝クラス"; Lit "未勝利"]).

(** [/(\d{4})年(\d{1,2})月(\d{1,2})日/] *)
Definition datePattern : regex :=
  Seqs [Grp 1 (Rep 4 digit); Lit "年"; Grp 2 (Seq digit (Opt digit)); Lit "月";
        Grp 3 (Seq digit (Opt digit)); Lit "日"].

Definition raceInfoError (f msg : string) (text : jsstring) : ParseError :=
  mkParseError RACE_INFO (js f) (js msg) (Some text) None.

Definition missing {A : Type} (m : option A) (e : ParseError) : list ParseError :=
  match m with Some _ => [] | None => [e] end.

Definition missingWarning {A : Type} (m : option A) (w : string) : list jsstring :=
  match m with Some _ => [] | None => [js w] end.

Definition isCritical (e : ParseError) : bool :=
  has_field "venue" e || has_field "raceNumber" e || has_field "distance" e.

(** The body of the [try] block of [parseRaceInfo]; [now] is the value of
    the clock read by [new Date()]. *)
Definition parseRaceInfoBody (cfg : ParserConfig) (text : jsstring) (now : Z)
  : ParseResult RaceInfo :=
  let venueMatch := exec venuePattern text in
  let raceNumberMatch := exec raceNumberPattern text in
  let titleMatch := exec titlePattern text in
  let distanceMatch := exec distancePattern text in
  let conditionMatch := exec conditionPattern text in
  let classMatch := exec classPattern text in
  let dateMatch := exec datePattern text in
  let errors :=
    missing venueMatch (raceInfoError "venue" "競馬場名が見つかりません" text)
    ++ missing raceNumberMatch
         (raceInfoError "raceNumber" "レース番号が見つかりません" text)
    ++ missing titleMatch (raceInfoError "title" "レース名が見つかりません" text)
    ++ missing distanceMatch
         (raceInfoError "distance" "距離・コース情報が見つかりません" text)
    ++ missing dateMatch (raceInfoError "date" "開催日が見つかりません" text) in
  let warnings :=
    missingWarning conditionMatch
      "馬場状態が見つかりません。デフォルト値（良）を使用します。"
    ++ missingWarning classMatch
      "レースクラスが見つかりません。デフォルト値（オープン）を使用します。" in
  if (0 <? List.length errors)%nat && strictMode cfg then
    mkParseResult false None errors warnings
  else if (0 <? List.length errors)%nat
          && (0 <? List.length (filter isCritical errors))%nat then
    mkParseResult false None errors warnings
  else
    let raceInfo :=
      {| venue := str_or (option_map (fun m => group_str m 1) venueMatch) "不明";
         raceNumber := match raceNumberMatch with
                       | Some m => JsNumber.parseInt (group_str m 1)
                       | None => 0%N
                       end;
         title := str_or (option_map (fun m => group_str m 2) titleMatch) "不明";
         distance := match distanceMatch with
                     | Some m => JsNumber.parseInt (group_str m 2)
                     | None => 0%N
                     end;
         surface := parseSurface
                      (str_or (option_map (fun m => group_str m 1) distanceMatch) "芝");
         condition := parseTrackCondition
                      (str_or (option_map (fun m => group_str m 1) conditionMatch) "良");
         raceClass := parseRaceClass
                      (str_or (option_map (fun m => group_str m 1) classMatch) "オープン");
         date := match dateMatch with
                 | Some m =>
                     DateOfFields
                       (Z.of_N (JsNumber.parseInt (group_str m 1)))
                       (Z.of_N (JsNumber.parseInt (group_str m 2)) - 1)
                       (Z.of_N (JsNumber.parseInt (group_str m 3)))
                 | None => DateOfClock now
                 end |} in
    mkParseResult true (Some raceInfo) errors warnings.

(** [parseRaceInfo]: no statement of the [try] block throws. *)
Definition parseRaceInfo (cfg : ParserConfig) (text : jsstring) (now : Z)
  : outcome (ParseResult RaceInfo) :=
  try_catch (Return (parseRaceInfoBody cfg text now))
    (fun error =>
       Return (mkParseResult false None
                 [mkParseError RACE_INFO (js "general")
                    (js "パース中にエラーが発生しました: " ++ thrown_message error)
                    (Some text) None] [])).

(** *** Roster *)

(** [/^(\d+)\s+([^\s]+)\s+(牡|牝|セ)(\d+)\s+(\d+(?:\.\d+)?)\s+([^\s]+)\s+([^\s]+)/] *)
Definition horseLinePattern : regex :=
  Seqs [Bol; Grp 1 digits; Plus true space; Grp 2 (Plus true nonspace);
        Plus true space; Grp 3 (OneOf ["牡"; "牝"; "セ"]); Grp 4 digits;
        Plus true space; Grp 5 decimal; Plus true space;
        Grp 6 (Plus true nonspace); Plus true space;
        Grp 7 (Plus true nonspace)].

Definition parseHorseLine (line : jsstring) (_lineNumber : nat)
  : outcome HorseData :=
  match exec horseLinePattern line with
  | None => Throw (ErrorObject (js "馬データの形式が正しくありません: " ++ line))
  | Some m =>
      Return (mkHorseData (JsNumber.parseInt (group_str m 1))
                (JsString.trim (group_str m 2))
                (JsNumber.parseInt (group_str m 4))
                (parseGender (group_str m 3))
                (JsNumber.parseFloat (group_str m 5))
                (JsString.trim (group_str m 6))
                (JsString.trim (group_str m 7)))
  end.

Definition lineError (i : nat) (error : thrown) (line : jsstring) : ParseError :=
  mkParseError HORSE_DATA (js "horseLine")
    (JsString.of_nat (i + 1) ++ js "行目の馬データパースに失敗: "
       ++ thrown_message error)
    (Some line) (Some (i + 1)%nat).

(** The [for] loop of [parseHorseDataInternal] from index [i] on. *)
Fixpoint lineLoop (cfg : ParserConfig) (lines : list jsstring) (i : nat)
    (horses : list HorseData) (errors : list ParseError)
    (warnings : list jsstring)
  : list HorseData * list ParseError * list jsstring :=
  match lines with
  | [] => (horses, errors, warnings)
  | raw :: rest =>
      let line := JsString.trim raw in
      if negb (JsString.truthy line) then
        lineLoop cfg rest (S i) horses errors warnings
      else
        match parseHorseLine line (i + 1) with
        | Return horse =>
            lineLoop cfg rest (S i) (horses ++ [horse]) errors warnings
        | Throw error =>
            let parseError := lineError i error line in
            if skipInvalidHorses cfg then
              lineLoop cfg rest (S i) horses errors
                (warnings ++ [message parseError])
            else
              lineLoop cfg rest (S i) horses (errors ++ [parseError]) warnings
        end
  end.

Definition parseHorseDataInternalBody (cfg : ParserConfig) (text : jsstring)
  : ParseResult (list HorseData) :=
  finishRoster cfg text (lineLoop cfg (nonblank_lines text) 0 [] [] []).

(** [parseHorseDataInternal]: what [parseHorseLine] throws is caught inside
    the loop. *)
Definition parseHorseDataInternal (cfg : ParserConfig) (text : jsstring)
  : outcome (ParseResult (list HorseData)) :=
  try_catch (Return (parseHorseDataInternalBody cfg text))
    (fun error =>
       Return (mkParseResult false None
                 [mkParseError HORSE_DATA (js "general")
                    (js "馬データパース中にエラーが発生しました: "
                       ++ thrown_message error)
                    (Some text) None] [])).

(** [parseHorseData], the public roster entry point. *)
Definition parseHorseData (cfg : ParserConfig) (text : jsstring)
  : outcome (list HorseDataForm) :=
  bind (parseHorseDataInternal cfg text) parseHorseDataOf.

(** *** Odds *)

Definition oddsLineWarning (i : nat) (error : thrown) : jsstring :=
  JsString.of_nat (i + 1) ++ js "行目のオッズデータパースに失敗: "
    ++ thrown_message error.

(** The [for] loop of [parseOdds] from index [i] on. *)
Fixpoint oddsLoop (lines : list jsstring) (i : nat) (oddsData : list OddsData)
    (warnings : list jsstring) : list OddsData * list jsstring :=
  match lines with
  | [] => (oddsData, warnings)
  | raw :: rest =>
      let line := JsString.trim raw in
      if negb (JsString.truthy line) then oddsLoop rest (S i) oddsData warnings
      else
        match parseOddsLine line (i + 1) with
        | Return odds => oddsLoop rest (S i) (oddsData ++ [odds]) warnings
        | Throw error =>
            oddsLoop rest (S i) oddsData (warnings ++ [oddsLineWarning i error])
        end
  end.

Definition parseOddsBody (text : jsstring) : ParseResult (list OddsData) :=
  let '(oddsData, warnings) := oddsLoop (nonblank_lines text) 0 [] [] in
  mkParseResult true (Some oddsData) [] warnings.

Definition parseOdds (cfg : ParserConfig) (text : jsstring)
  : outcome (ParseResult (list OddsData)) :=
  try_catch (Return (parseOddsBody text))
    (fun error =>
       Return (mkParseResult false None
                 [mkParseError ODDS_DATA (js "general")
                    (js "オッズデータパース中にエラーが発生しました: "
                       ++ thrown_message error)
                    (Some text) None] [])).

End Legacy.

(** ** Vocabulary of the statements *)

Module Roster.

(** A fragment with its index and the outcome of its extraction. *)
Definition fragment_outcome : Type := nat * jsstring * outcome HorseData.

Fixpoint outcomesFrom (parse : jsstring -> nat -> outcome HorseData)
    (i : nat) (fragments : list jsstring) : list fragment_outcome :=
  match fragments with
  | [] => []
  | f :: rest => (i, f, parse f (i + 1)%nat) :: outcomesFrom parse (S i) rest
  end.

(** The records of the fragments whose extraction returns, in order. *)
Fixpoint records (os : list fragment_outcome) : list HorseData :=
  match os with
  | [] => []
  | (_, _, Return h) :: os' => h :: records os'
  | (_, _, Throw _) :: os' => records os'
  end.

(** The diagnostics of the fragments whose extraction throws, in order. *)
Fixpoint failures (mkError : nat -> thrown -> jsstring -> ParseError)
    (os : list fragment_outcome) : list ParseError :=
  match os with
  | [] => []
  | (_, _, Return _) :: os' => failures mkError os'
  | (i, f, Throw e) :: os' => mkError i e f :: failures mkError os'
  end.

(** The roster-level diagnostics added after the loop. *)
Definition noHorse (text : jsstring) (horses : list HorseData) : list ParseError :=
  match horses with [] => [Common.noHorseError text] | _ :: _ => [] end.

Definition overflow (cfg : ParserConfig) (horses : list HorseData) : list jsstring :=
  if (maxHorses cfg <? Z.of_nat (List.length horses))%Z
  then [Common.maxHorsesWarning cfg] else [].

(** The fragment-failure policy, as a relation between the outcomes of the
    fragments and the result of the roster extractor. *)
Definition policy (cfg : ParserConfig) (text : jsstring)
    (mkError : nat -> thrown -> jsstring -> ParseError)
    (os : list fragment_outcome) (r : ParseResult (list HorseData)) : Prop :=
  data r = Some (records os)
  /\ success r = (List.length (errors r) =? 0)%nat
  /\ if skipInvalidHorses cfg then
       errors r = noHorse text (records os)
       /\ warnings r = map message (failures mkError os) ++ overflow cfg (records os)
     else
       errors r = failures mkError os ++ noHorse text (records os)
       /\ warnings r = overflow cfg (records os).

(** What the public entry point does with the result of the internal
    one. *)
Definition entry_point (internal : outcome (ParseResult (list HorseData)))
    (entry : outcome (list HorseDataForm)) : Prop :=
  exists r horses,
    internal = Return r /\ data r = Some horses
    /\ if success r then entry = Return (map Common.toForm horses)
       else errors r <> []
            /\ entry = Throw (ErrorObject (Common.firstErrorMessage (errors r))).

End Roster.

(** The fragments of a roster text and their outcomes, in each variant. *)
Definition layoutFragments (text : jsstring) : list Roster.fragment_outcome :=
  Roster.outcomesFrom Layout.parseHorseBlock 0 (Layout.splitIntoHorseBlocks text).

Definition legacyFragments (text : jsstring) : list Roster.fragment_outcome :=
  Roster.outcomesFrom Legacy.parseHorseLine 0
    (map JsString.trim (Common.nonblank_lines text)).

(** Two race-info results that differ at most in the [date] field. *)
Definition sameButDate (a b : ParseResult RaceInfo) : Prop :=
  success a = success b /\ errors a = errors b /\ warnings a = warnings b
  /\ match data a, data b with
     | Some x, Some y =>
         venue x = venue y /\ raceNumber x = raceNumber y /\ title x = title y
         /\ distance x = distance y /\ surface x = surface y
         /\ condition x = condition y /\ raceClass x = raceClass y
     | None, None => True
     | _, _ => False
     end.

(** The order of the records by horse number. *)
Definition le_number (a b : OddsData) : Prop :=
  (horseNumber a <= horseNumber b)%N.

(** [0 <= x] *)
Definition nonneg (x : JsNumber.float64) : Prop :=
  JsNumber.leb (JsNumber.Finite 0) x = true.

(** The odds kept in the two maps are not negative. *)
Definition nonneg_maps (st : Layout.oddsState) : Prop :=
  Forall (fun kv => nonneg (snd kv)) (Layout.winOddsData st)
  /\ Forall (fun kv => nonneg (fst (snd kv)) /\ nonneg (snd (snd kv)))
            (Layout.placeOddsData st).

(** Success flag, number of records, of errors and of warnings of a result. *)
Definition summary {A : Type} (o : outcome (ParseResult (list A)))
  : option (bool * option nat * nat * nat) :=
  match o with
  | Return r =>
      Some (success r, option_map (@List.length A) (data r),
            List.length (errors r), List.length (warnings r))
  | Throw _ => None
  end.

(** ** Sample inputs *)

Module Samples.

Definition tab : jsstring := [9%N].
Definition nl : jsstring := [10%N].

Definition unlines (ls : list jsstring) : jsstring :=
  match ls with
  | [] => []
  | l :: ls' => fold_left (fun acc x => acc ++ nl ++ x) ls' l
  end.

(** A header in the layout of the site (title, details, meeting). *)
Definition keenelandInfo : jsstring :=
  unlines [ js "キーンランドC";
            js "15:35発走 / 芝1200m (右 B) / 天候:晴 / 馬場:良";
            js "2回 札幌 2日目 サラ系３歳以上 オープン" ].

(** [SAMPLE_RACE_INFO_1] and [INVALID_RACE_INFO] of the test data. *)
Definition derbyInfo : jsstring :=
  nl ++ js "東京競馬場 第11R 日本ダービー(G1) 芝2400m 良 2024年5月26日" ++ nl.

Definition invalidInfo : jsstring :=
  nl ++ js "競馬場名なし レース番号なし 距離なし" ++ nl.

(** A header of the line layout without a date. *)
Definition noDateInfo : jsstring := js "東京競馬場 第11R 日本ダービー(G1) 芝2400m 良".

(** [SAMPLE_RACE_INFO_1] without its race-number marker. *)
Definition noMarkerInfo : jsstring :=
  js "東京競馬場 日本ダービー(G1) 芝2400m 良 2024年5月26日".

(** The first entry of [REAL_NETKEIBA_DATA]. *)
Definition realFragment1 : list jsstring :=
  [ js "1" ++ tab ++ js "1" ++ tab; js "--"; js "マインドユアビスケッツ";
    js "ツインクルトーズB"; js "ツインクルスター"; js "(サクラバクシンオー)";
    js "美浦・牧  "; js "差中1週"; js "514kg(0)"; js "176.3 (16人気)";
    js "牝5栗"; []; js "古川吉"; js "55.0"; [] ].

(** An entry in the same layout without body-weight and popularity
    lines, for horse number [n]. *)
Definition plainFragment (frame n : string) (horse jockey : string)
  : list jsstring :=
  [ js frame ++ tab ++ js n ++ tab; js "--"; js horse; js "レイピア";
    js "アンナトルテ"; js "(エンパイアメーカー)"; js "栗東・中竹  ";
    js "差中5週"; js "牡3鹿"; []; js jockey; js "55.0"; [] ].

(** An entry without any name line. *)
Definition namelessFragment (frame n : string) : list jsstring :=
  [ js frame ++ tab ++ js n ++ tab; js "--"; js "(サクラバクシンオー)";
    js "牡3鹿"; [] ].

Definition realRoster : jsstring :=
  unlines (realFragment1 ++ plainFragment "2" "3" "タワーオブロンドン" "北村友").

(** The first fragment of [realRoster], as the segmentation cuts it. *)
Definition realBlock1 : jsstring :=
  nth 0 (Layout.splitIntoHorseBlocks realRoster) [].

(** Five entries, the third malformed. *)
Definition fiveFragments : jsstring :=
  unlines (plainFragment "1" "1" "アルファ" "北村友"
           ++ plainFragment "2" "2" "ブラボー" "松山"
           ++ namelessFragment "3" "3"
           ++ plainFragment "4" "4" "チャーリー" "古川吉"
           ++ plainFragment "5" "5" "デルタ" "武豊").

(** Two entries carrying the same horse number. *)
Definition duplicateFragments : jsstring :=
  unlines (plainFragment "1" "4" "アルファ" "北村友"
           ++ plainFragment "2" "4" "ブラボー" "松山").

(** [INVALID_HORSE_DATA] of the test data. *)
Definition invalidHorseData : jsstring :=
  unlines [ []; js "馬番なし 馬名なし"; js "1 正常な馬 牡3 57.0 騎手名 調教師名";
            js "不正な行データ"; [] ].

(** Five lines in the line layout, the third malformed. *)
Definition fiveLines : jsstring :=
  unlines [ js "1 テストホース1 牡4 57.0 田辺裕信 国枝栄";
            js "2 テストホース2 牝4 55.0 石橋脩 藤沢和雄";
            js "不正な行データ";
            js "4 テストホース4 牡3 56.0 三浦皇成 清水久詞";
            js "5 テストホース5 牝3 54.0 柴田大知 武井亮" ].

Definition duplicateLines : jsstring :=
  unlines [ js "4 テストホース1 牡4 57.0 田辺裕信 国枝栄";
            js "4 テストホース2 牝4 55.0 石橋脩 藤沢和雄" ].

Definition marker (n : string) : jsstring := js n ++ tab ++ js n.
Definition winData (horse odds : string) : jsstring := js horse ++ tab ++ js odds.

(** Win odds for horses 1 to 8, place odds for horses 1 to 4. *)
Definition winEightPlaceFour : jsstring :=
  unlines [ js "単勝";
            marker "1"; winData "アルファ" "3.2";
            marker "2"; winData "ブラボー" "5.8";
            marker "3"; winData "チャーリー" "8.1";
            marker "4"; winData "デルタ" "12.5";
            marker "8"; winData "エコー" "6.7";
            marker "7"; winData "フォックス" "4.5";
            marker "6"; winData "ゴルフ" "2.1";
            marker "5"; winData "ホテル" "15.2";
            js "複勝";
            marker "1"; winData "アルファ" "1.1 - 1.3";
            marker "2"; winData "ブラボー" "1.8 - 2.2";
            marker "3"; winData "チャーリー" "2.5 - 3.1";
            marker "4"; winData "デルタ" "3.8 - 4.6" ].

(** A marker whose data line carries no odds. *)
Definition brokenPair : jsstring :=
  unlines [ js "単勝"; marker "1"; js "ツインクルトーズ" ].

(** A place entry with an inverted range below one. *)
Definition invertedPlace : jsstring :=
  unlines [ js "単勝"; marker "1"; winData "アルファ" "0.5";
            js "複勝"; marker "1"; winData "アルファ" "0.9 - 0.2" ].

(** A line of the line layout with the same odds. *)
Definition invertedLine : jsstring := js "1 0.5 0.9-0.2".

(** [INVALID_ODDS_DATA] of the test data. *)
Definition invalidOddsData : jsstring :=
  unlines [ []; js "1 オッズなし"; js "2 5.8 1.8-2.2"; js "不正なオッズ行"; [] ].

(** A win section whose only entry carries the odds 0. *)
Definition zeroWin : jsstring :=
  unlines [ js "単勝"; marker "1"; winData "アルファ" "0" ].

(** Win odds 3 and a place range whose maximum is written 0. *)
Definition halfZeroPlace : jsstring :=
  unlines [ js "単勝"; marker "1"; winData "アルファ" "3";
            js "複勝"; marker "1"; winData "アルファ" "5 - 0" ].

Definition strictKeep : ParserConfig :=
  mkParserConfig true false (JsNumber.round64 (999 # 10)) 18.

End Samples.

(** ** The error reporter (services/parsers/errorReporter.ts) *)

Module Reporter.

Record ErrorReport : Type := mkErrorReport {
  summary : jsstring;
  totalErrors : nat;
  totalWarnings : nat;
  errorsByType : list (ParseErrorType * list ParseError);
  suggestions : list jsstring;
  timestamp : Z
}.

Definition type_eqb (a b : ParseErrorType) : bool :=
  match a, b with
  | RACE_INFO, RACE_INFO | HORSE_DATA, HORSE_DATA
  | ODDS_DATA, ODDS_DATA | VALIDATION, VALIDATION => true
  | _, _ => false
  end.

(** [parts.join(sep)] *)
Fixpoint join (sep : jsstring) (parts : list jsstring) : jsstring :=
  match parts with
  | [] => []
  | [x] => x
  | x :: rest => x ++ sep ++ join sep rest
  end.

(** One step of the [reduce] of [groupErrorsByType]: the error goes to the
    end of the group of its type, a new group going to the end of the
    object's keys. *)
Fixpoint addToGroup (error : ParseError)
    (groups : list (ParseErrorType * list ParseError))
  : list (ParseErrorType * list ParseError) :=
  match groups with
  | [] => [(type error, [error])]
  | (t, es) :: rest =>
      if type_eqb (type error) t then (t, es ++ [error]) :: rest
      else (t, es) :: addToGroup error rest
  end.

Definition groupErrorsByType (errors : list ParseError)
  : list (ParseErrorType * list ParseError) :=
  fold_left (fun groups error => addToGroup error groups) errors [].

(** [errorTypes.has(t)] and [errorFields.has(f)] *)
Definition hasType (t : ParseErrorType) (errors : list ParseError) : bool :=
  existsb (fun e => type_eqb (type e) t) errors.

Definition hasField (f : string) (errors : list ParseError) : bool :=
  existsb (has_field f) errors.

Definition pushIf (c : bool) (items : list string) : list jsstring :=
  if c then map js items else [].

Definition generateSuggestions (errors : list ParseError) : list jsstring :=
  (if hasType RACE_INFO errors then
     pushIf (hasField "venue" errors)
       ["競馬場名が正しく記載されているか確認してください（例：東京、中山、阪神など）"]
     ++ pushIf (hasField "distance" errors)
       ["距離情報が「芝1600m」や「ダート1800m」の形式で記載されているか確認してください"]
     ++ pushIf (hasField "raceNumber" errors)
       ["レース番号が「第11R」の形式で記載されているか確認してください"]
     ++ pushIf (hasField "date" errors)
       ["開催日が「2024年5月26日」の形式で記載されているか確認してください"]
   else [])
  ++ pushIf (hasType HORSE_DATA errors)
       ["馬データが「馬番 馬名 性別年齢 斤量 騎手名 調教師名」の形式で記載されているか確認してください";
        "各項目がスペースで区切られているか確認してください";
        "性別は「牡」「牝」「セ」のいずれかで記載されているか確認してください"]
  ++ pushIf (hasType ODDS_DATA errors)
       ["オッズデータが「馬番 単勝オッズ 複勝オッズ範囲」の形式で記載されているか確認してください";
        "複勝オッズは「1.1-1.3」の形式で記載されているか確認してください"]
  ++ pushIf (hasType VALIDATION errors)
       ["入力データの値が適切な範囲内にあるか確認してください";
        "必須項目が全て入力されているか確認してください"]
  ++ pushIf (0 <? List.length errors)%nat
       ["NetKeibaから最新の形式でデータをコピーしているか確認してください";
        "不要な空行や特殊文字が含まれていないか確認してください"].

Definition cleanSummary : jsstring := js "パースが正常に完了しました。".

Definition generateSummary (errors : list ParseError) (warnings : list jsstring)
  : jsstring :=
  if (List.length errors =? 0)%nat && (List.length warnings =? 0)%nat then
    cleanSummary
  else
    let parts :=
      (if (0 <? List.length errors)%nat
       then [JsString.of_nat (List.length errors) ++ js "件のエラーが発生しました"]
       else [])
      ++ (if (0 <? List.length warnings)%nat
          then [JsString.of_nat (List.length warnings) ++ js "件の警告があります"]
          else []) in
    join (js "、") parts ++ js "。".

(** [generateReport]; [now] is the value of the clock read by
    [new Date()]. *)
Definition generateReport {T : Type} (results : list (ParseResult T)) (now : Z)
  : ErrorReport :=
  let allErrors := flat_map (@errors T) results in
  let allWarnings := flat_map (@warnings T) results in
  {| summary := generateSummary allErrors allWarnings;
     totalErrors := List.length allErrors;
     totalWarnings := List.length allWarnings;
     errorsByType := groupErrorsByType allErrors;
     suggestions := generateSuggestions allErrors;
     timestamp := now |}.

End Reporter.

(** ** The input wizard (features/data-input/components) *)

(** A row of the odds form of step 3. *)
Record OddsRow : Type := mkOddsRow {
  row_number : N;
  row_winOdds : JsNumber.float64;
  row_placeOddsMin : JsNumber.float64;
  row_placeOddsMax : JsNumber.float64
}.

(** Step 2: [handleNetKeibaDataParse] of [Step2HorsesData]. *)
Module Step2.

Inductive tab : Type := paste | manual.

(** The state the handler writes: the [horses] value of the form and the
    three state variables of the component. *)
Record state : Type := mkState {
  horses : list HorseDataForm;
  activeTab : tab;
  parseError : option jsstring;
  isParsingNetKeiba : bool
}.

Definition unparsable : jsstring :=
  js "データを解析できませんでした。形式を確認してください。".

(** The state after the handler has run; [parseHorseData] is the method of
    [new NetKeibaParser()] and [rawData] the value of the form field
    ([None] for [undefined]). *)
Definition handleNetKeibaDataParse
    (parseHorseData : jsstring -> outcome (list HorseDataForm))
    (st : state) (rawData : option jsstring) : state :=
  match rawData with
  | None => st
  | Some raw =>
      if negb (JsString.truthy raw) then st
      else
        match parseHorseData raw with
        | Return parsedData =>
            if (0 <? List.length parsedData)%nat then
              mkState parsedData manual None false
            else
              mkState (horses st) (activeTab st) (Some unparsable) false
        | Throw error =>
            mkState (horses st) (activeTab st) (Some (thrown_message error)) false
        end
  end.

End Step2.

(** Step 3: [handleParseNetKeibaText] of [Step3OddsData]. *)
Module Step3.

Inductive inputMethod : Type := manual | text.

Record parseResult : Type := mkParseResultMessage {
  pr_success : bool;
  pr_message : jsstring;
  pr_data : option (list OddsData)
}.

Record state : Type := mkState {
  horses : list OddsRow;
  result : option parseResult;
  method : inputMethod
}.

Definition toRow (odds : OddsData) : OddsRow :=
  mkOddsRow (horseNumber odds) (winOdds odds) (placeOddsMin odds)
    (placeOddsMax odds).

Definition loadedMessage (n : nat) : jsstring :=
  JsString.of_nat n ++ js "頭のオッズデータを正常に読み込みました。".

(** The state after the handler has run on the text of the text area;
    [parseOdds] is the method of [new NetKeibaParser()]. *)
Definition handleParseNetKeibaText
    (parseOdds : jsstring -> outcome (ParseResult (list OddsData)))
    (st : state) (netKeibaText : jsstring) : state :=
  if negb (JsString.truthy (JsString.trim netKeibaText)) then
    mkState (horses st)
      (Some (mkParseResultMessage false
               (js "NetKeibaのオッズテキストを入力してください。") None))
      (method st)
  else
    match parseOdds netKeibaText with
    | Return r =>
        match success r, data r with
        | true, Some oddsData =>
            mkState (map toRow oddsData)
              (Some (mkParseResultMessage true
                       (loadedMessage (List.length oddsData)) (Some oddsData)))
              manual
        | _, _ =>
            mkState (horses st)
              (Some (mkParseResultMessage false
                       (match errors r with
                        | e :: _ =>
                            if JsString.truthy (message e) then message e
                            else js "オッズデータの解析に失敗しました。"
                        | [] => js "オッズデータの解析に失敗しました。"
                        end) None))
              (method st)
        end
    | Throw error =>
        mkState (horses st)
          (Some (mkParseResultMessage false
                   (js "エラーが発生しました: " ++ thrown_message error) None))
          (method st)
    end.

End Step3.

(** Step 4: the completeness checks of [Step4Confirmation]. *)
Module Step4.

(** The basic information of step 1 (schemas/raceInputSchema.ts). *)
Record RaceBasicInfoForm : Type := mkRaceBasicInfoForm {
  b_date : jsstring;
  b_venue : jsstring;
  b_raceNumber : JsNumber.float64;
  b_title : jsstring;
  b_distance : JsNumber.float64;
  b_surface : Surface;
  b_trackCondition : TrackCondition;
  b_raceClass : jsstring;
  b_prize : option JsNumber.float64
}.

(** [Partial<RaceInputForm>]: each of the three parts may be absent. *)
Record data : Type := mkData {
  basicInfo : option RaceBasicInfoForm;
  horsesData : option (list HorseDataForm);
  oddsData : option (list OddsRow)
}.

(** [numbers.indexOf(num)], from index [i] on; -1 when absent. *)
Fixpoint indexOfFrom (num : N) (numbers : list N) (i : Z) : Z :=
  match numbers with
  | [] => (-1)%Z
  | x :: rest => if (x =? num)%N then i else indexOfFrom num rest (i + 1)
  end.

Definition indexOf (num : N) (numbers : list N) : Z := indexOfFrom num numbers 0.

(** [l.filter((num, index) => numbers.indexOf(num) !== index)], from index
    [i] on. *)
Fixpoint notFirstFrom (numbers : list N) (l : list N) (i : Z) : list N :=
  match l with
  | [] => []
  | num :: rest =>
      if negb (indexOf num numbers =? i)%Z
      then num :: notFirstFrom numbers rest (i + 1)
      else notFirstFrom numbers rest (i + 1)
  end.

Definition duplicates (numbers : list N) : list N :=
  notFirstFrom numbers numbers 0.

Definition of_N (n : N) : jsstring := JsString.of_nat (N.to_nat n).

Definition isEmptyOrAbsent {A : Type} (l : option (list A)) : bool :=
  match l with
  | None => true
  | Some l' => (List.length l' =? 0)%nat
  end.

Definition errors (d : data) : list jsstring :=
  (match basicInfo d with
   | None => [js "レース基本情報が入力されていません"]
   | Some _ => []
   end)
  ++ (if isEmptyOrAbsent (horsesData d)
      then [js "出走馬の情報が入力されていません"] else [])
  ++ (if isEmptyOrAbsent (oddsData d)
      then [js "オッズ情報が入力されていません"] else [])
  ++ (match horsesData d with
      | Some hs =>
          let dups := duplicates (map form_number hs) in
          if (0 <? List.length dups)%nat
          then [js "重複した馬番があります: "
                  ++ Reporter.join (js ", ") (map of_N dups)]
          else []
      | None => []
      end).

Definition warnings (d : data) : list jsstring :=
  match horsesData d, oddsData d with
  | Some hs, Some os =>
      if negb (List.length hs =? List.length os)%nat
      then [js "出走馬数とオッズ情報の数が一致していません"] else []
  | _, _ => []
  end.

Definition canSubmit (d : data) (isSubmitting : bool) : bool :=
  (List.length (errors d) =? 0)%nat && negb isSubmitting.

End Step4.

(** ** Vocabulary of the further statements *)

(** [report.errorsByType[t]]: [None] stands for [undefined]. *)
Fixpoint groupOf (t : ParseErrorType)
    (groups : list (ParseErrorType * list ParseError))
  : option (list ParseError) :=
  match groups with
  | [] => None
  | (t', es) :: rest =>
      if Reporter.type_eqb t t' then Some es else groupOf t rest
  end.

(** The errors of one type, in order. *)
Definition ofType (t : ParseErrorType) (errors : list ParseError)
  : list ParseError :=
  filter (fun e => Reporter.type_eqb (type e) t) errors.

(** The number of errors kept in the groups. *)
Definition groupedCount (groups : list (ParseErrorType * list ParseError)) : nat :=
  list_sum (map (fun g => List.length (snd g)) groups).

(** The invariants of a record returned for a fragment of the layout-keyed
    roster. *)
Definition wellFormedHorse (h : HorseData) : Prop :=
  name h <> []
  /\ Layout.isNameCandidate (name h) = true
  /\ (jockeyName h = []
      \/ (Layout.isJockeyName (jockeyName h) = true
          /\ (2 <= List.length (jockeyName h) <= 8)%nat))
  /\ nonneg (weight h).

(** ** What a regular expression matches *)

Module RegexSpec.

Import Regex.

(** [matches r p s c p' s' c']: from position [p], with [s] left to read
    and the captures [c], the expression [r] can consume a prefix of [s]
    and leave [s'] at position [p'] with the captures [c'].  The relation
    describes every way of matching; [run] explores them in the order of
    the ECMAScript priorities. *)
Inductive matches
  : regex -> nat -> jsstring -> captures -> nat -> jsstring -> captures -> Prop :=
| M_Eps p s c : matches Eps p s c p s c
| M_Chr a p s c : matches (Chr a) p (a :: s) c (S p) s c
| M_Cls neg rs b p s c :
    xorb neg (JsString.in_ranges rs b) = true ->
    matches (Cls neg rs) p (b :: s) c (S p) s c
| M_Dot b p s c :
    JsString.in_ranges line_terminators b = false ->
    matches Dot p (b :: s) c (S p) s c
| M_Bol s c : matches Bol 0 s c 0 s c
| M_Eol p c : matches Eol p [] c p [] c
| M_Seq r1 r2 p s c p1 s1 c1 p2 s2 c2 :
    matches r1 p s c p1 s1 c1 ->
    matches r2 p1 s1 c1 p2 s2 c2 ->
    matches (Seq r1 r2) p s c p2 s2 c2
| M_AltL r1 r2 p s c p' s' c' :
    matches r1 p s c p' s' c' -> matches (Alt r1 r2) p s c p' s' c'
| M_AltR r1 r2 p s c p' s' c' :
    matches r2 p s c p' s' c' -> matches (Alt r1 r2) p s c p' s' c'
| M_Star0 g r p s c : matches (Star g r) p s c p s c
| M_StarS g r p s c p1 s1 c1 p2 s2 c2 :
    matches r p s c p1 s1 c1 ->
    (p < p1)%nat ->
    matches (Star g r) p1 s1 c1 p2 s2 c2 ->
    matches (Star g r) p s c p2 s2 c2
| M_Grp i r p s c p' s' c' :
    matches r p s c p' s' c' ->
    matches (Grp i r) p s c p' s' ((i, firstn (p' - p) s) :: c').

(** The numbers of the groups of an expression. *)
Fixpoint groups_of (r : regex) : list nat :=
  match r with
  | Seq r1 r2 | Alt r1 r2 => groups_of r1 ++ groups_of r2
  | Star _ r' => groups_of r'
  | Grp i r' => i :: groups_of r'
  | _ => []
  end.

(** A code unit that [\s] does not match. *)
Definition nonspace_unit (b : N) : Prop := JsString.is_space b = false.

(** A code unit that [\d] matches. *)
Definition digit_unit (b : N) : Prop := (48 <= b <= 57)%N.

End RegexSpec.

(** ** Vocabulary of the matcher and of the segmentation *)

(** The iteration of [run] on a starred expression, with its fuel. *)
Definition star_loop (greedy : bool) (r : Regex.regex) (k : Regex.cont)
  : nat -> nat -> jsstring -> Regex.captures -> option Regex.answer :=
  fix loop (n : nat) (p : nat) (s : jsstring) (c : Regex.captures) {struct n} :=
    match n with
    | O => k p s c
    | S n' =>
        let again p' s' c' :=
          if (p <? p')%nat then loop n' p' s' c' else None in
        if greedy then
          match Regex.run r p s c again with
          | Some a => Some a
          | None => k p s c
          end
        else
          match k p s c with
          | Some a => Some a
          | None => Regex.run r p s c again
          end
    end.

(** A fragment is a trimmed text that starts with a marker line. *)
Definition starts_with_marker (block : jsstring) : Prop :=
  exists line tail,
    block = JsString.trim (line ++ tail)
    /\ Regex.test Layout.frameHorseLine line = true
    /\ ~ In JsString.newline line.

(** The three ways in which [parseHorseBlock] fails on the fragment of
    number [n]. *)
Definition fragment_cause (n : nat) (cause : thrown) : Prop :=
  cause = ErrorObject (js "馬名が見つかりません: ブロック" ++ JsString.of_nat n)
  \/ cause = ReferenceError (js "odds is not defined")
  \/ cause = ReferenceError (js "bodyWeight is not defined").

(** * Properties *)

(** ** Strings and numbers *)

Lemma JsString_eqb_eq (a b : jsstring) : JsString.eqb a b = true <-> a = b.
Proof.
  unfold JsString.eqb. destruct (list_eq_dec N.eq_dec a b); split; congruence.
Qed.

Lemma JsString_eqb_refl (a : jsstring) : JsString.eqb a a = true.
Proof. now apply JsString_eqb_eq. Qed.

Lemma nonblank_lines_nonblank (text : jsstring) :
  Forall (fun line => JsString.truthy (JsString.trim line) = true)
         (Common.nonblank_lines text).
Proof.
  unfold Common.nonblank_lines. apply Forall_forall. intros line Hin.
  apply filter_In in Hin. tauto.
Qed.

(** ** The roster loop *)

Section RosterLoop.

Variable cfg : ParserConfig.
Variable text : jsstring.

Lemma finishRoster_fields (H : list HorseData) (E : list ParseError)
    (W : list jsstring) :
  let r := Common.finishRoster cfg text (H, E, W) in
  data r = Some H
  /\ success r = (List.length (errors r) =? 0)%nat
  /\ errors r = E ++ Roster.noHorse text H
  /\ warnings r = W ++ Roster.overflow cfg H.
Proof.
  unfold Common.finishRoster, Roster.noHorse, Roster.overflow. cbn zeta.
  destruct H as [|h H']; cbn [List.length Nat.eqb];
    destruct (maxHorses cfg <? _)%Z; cbn;
    rewrite ?app_nil_r; auto.
Qed.

(** The loop over the fragments appends, to each of its three lists, what
    the outcomes of the remaining fragments contribute. *)
Lemma blockLoop_outcomes (blocks : list jsstring) :
  forall (i : nat) (H : list HorseData) (E : list ParseError) (W : list jsstring),
    let os := Roster.outcomesFrom Layout.parseHorseBlock i blocks in
    Layout.blockLoop cfg blocks i H E W =
      (H ++ Roster.records os,
       E ++ (if skipInvalidHorses cfg then []
             else Roster.failures Layout.blockError os),
       W ++ (if skipInvalidHorses cfg
             then map message (Roster.failures Layout.blockError os)
             else [])).
Proof.
  induction blocks as [|block rest IH]; intros i H E W; cbn zeta.
  - cbn. destruct (skipInvalidHorses cfg); now rewrite !app_nil_r.
  - cbn [Layout.blockLoop Roster.outcomesFrom Roster.records Roster.failures].
    destruct (Layout.parseHorseBlock block (i + 1)) as [horse|error].
    + rewrite IH. cbn zeta. now rewrite <- app_assoc.
    + destruct (skipInvalidHorses cfg); rewrite IH; cbn zeta; cbn [map];
        now rewrite <- ?app_assoc.
Qed.

Lemma lineLoop_outcomes (lines : list jsstring) :
  Forall (fun line => JsString.truthy (JsString.trim line) = true) lines ->
  forall (i : nat) (H : list HorseData) (E : list ParseError) (W : list jsstring),
    let os := Roster.outcomesFrom Legacy.parseHorseLine i
                (map JsString.trim lines) in
    Legacy.lineLoop cfg lines i H E W =
      (H ++ Roster.records os,
       E ++ (if skipInvalidHorses cfg then []
             else Roster.failures Legacy.lineError os),
       W ++ (if skipInvalidHorses cfg
             then map message (Roster.failures Legacy.lineError os)
             else [])).
Proof.
  induction 1 as [|line rest Hline Hrest IH]; intros i H E W; cbn zeta.
  - cbn. destruct (skipInvalidHorses cfg); now rewrite !app_nil_r.
  - cbn [Legacy.lineLoop map Roster.outcomesFrom Roster.records Roster.failures].
    rewrite Hline. cbn [negb].
    destruct (Legacy.parseHorseLine (JsString.trim line) (i + 1)) as [horse|error].
    + rewrite IH. cbn zeta. now rewrite <- app_assoc.
    + destruct (skipInvalidHorses cfg); rewrite IH; cbn zeta; cbn [map];
        now rewrite <- ?app_assoc.
Qed.

Lemma layout_policy :
  Roster.policy cfg text Layout.blockError (layoutFragments text)
    (Layout.parseHorseDataInternalBody cfg text).
Proof.
  unfold Layout.parseHorseDataInternalBody, layoutFragments, Roster.policy.
  rewrite blockLoop_outcomes. cbn zeta. cbn [app].
  destruct (finishRoster_fields
              (Roster.records (Roster.outcomesFrom Layout.parseHorseBlock 0
                                 (Layout.splitIntoHorseBlocks text)))
              (if skipInvalidHorses cfg then []
               else Roster.failures Layout.blockError
                      (Roster.outcomesFrom Layout.parseHorseBlock 0
                         (Layout.splitIntoHorseBlocks text)))
              (if skipInvalidHorses cfg
               then map message
                      (Roster.failures Layout.blockError
                         (Roster.outcomesFrom Layout.parseHorseBlock 0
                            (Layout.splitIntoHorseBlocks text)))
               else []))
    as (Hd & Hs & He & Hw).
  rewrite Hd, Hs, He, Hw.
  destruct (skipInvalidHorses cfg); cbn [app]; auto.
Qed.

Lemma legacy_policy :
  Roster.policy cfg text Legacy.lineError (legacyFragments text)
    (Legacy.parseHorseDataInternalBody cfg text).
Proof.
  unfold Legacy.parseHorseDataInternalBody, legacyFragments, Roster.policy.
  rewrite (lineLoop_outcomes (nonblank_lines_nonblank text)).
  cbn zeta. cbn [app].
  destruct (finishRoster_fields
              (Roster.records (Roster.outcomesFrom Legacy.parseHorseLine 0
                                 (map JsString.trim (Common.nonblank_lines text))))
              (if skipInvalidHorses cfg then []
               else Roster.failures Legacy.lineError
                      (Roster.outcomesFrom Legacy.parseHorseLine 0
                         (map JsString.trim (Common.nonblank_lines text))))
              (if skipInvalidHorses cfg
               then map message
                      (Roster.failures Legacy.lineError
                         (Roster.outcomesFrom Legacy.parseHorseLine 0
                            (map JsString.trim (Common.nonblank_lines text))))
               else []))
    as (Hd & Hs & He & Hw).
  rewrite Hd, Hs, He, Hw.
  destruct (skipInvalidHorses cfg); cbn [app]; auto.
Qed.

End RosterLoop.

Lemma policy_success_when_skipping cfg text mkError os r :
  Roster.policy cfg text mkError os r ->
  skipInvalidHorses cfg = true -> Roster.records os <> [] -> success r = true.
Proof.
  intros (_ & Hs & Hpol) Hskip Hne. rewrite Hskip in Hpol.
  destruct Hpol as (He & _). rewrite Hs, He.
  unfold Roster.noHorse. destruct (Roster.records os); [contradiction|reflexivity].
Qed.

Lemma policy_failure_when_keeping cfg text mkError os r :
  Roster.policy cfg text mkError os r ->
  skipInvalidHorses cfg = false -> Roster.failures mkError os <> [] ->
  success r = false.
Proof.
  intros (_ & Hs & Hpol) Hskip Hne. rewrite Hskip in Hpol.
  destruct Hpol as (He & _). rewrite Hs, He.
  destruct (Roster.failures mkError os); [contradiction|reflexivity].
Qed.

Lemma entry_point_of_policy cfg text mkError os r :
  Roster.policy cfg text mkError os r ->
  Roster.entry_point (Return r) (bind (Return r) Common.parseHorseDataOf).
Proof.
  intros (Hd & Hs & _). exists r, (Roster.records os).
  split; [reflexivity|]. split; [exact Hd|].
  cbn [bind]. unfold Common.parseHorseDataOf. rewrite Hd.
  destruct (success r) eqn:Hsucc; [reflexivity|].
  split; [|reflexivity].
  intros Hnil. rewrite Hnil in Hs. cbn in Hs. congruence.
Qed.

(** ** Exceptions and results *)

(** C1, as amended: on every text, configuration and clock value, each
    extractor that returns a [ParseResult] (race info, internal roster, odds,
    in both variants) returns normally; the public roster entry point
    [parseHorseData] returns the converted records when the internal result
    is successful and otherwise throws an [Error] carrying the message of
    the first recorded error. *)
Theorem C1_extractors_return_and_entry_point_throws_on_failure :
  forall (cfg : ParserConfig) (text : jsstring) (now : Z),
    returns (Layout.parseRaceInfo cfg text now)
    /\ returns (Layout.parseHorseDataInternal cfg text)
    /\ returns (Layout.parseOdds cfg text)
    /\ returns (Legacy.parseRaceInfo cfg text now)
    /\ returns (Legacy.parseHorseDataInternal cfg text)
    /\ returns (Legacy.parseOdds cfg text)
    /\ Roster.entry_point (Layout.parseHorseDataInternal cfg text)
                          (Layout.parseHorseData cfg text)
    /\ Roster.entry_point (Legacy.parseHorseDataInternal cfg text)
                          (Legacy.parseHorseData cfg text).
Proof.
  intros cfg text now.
  repeat split; try (eexists; reflexivity).
  - exact (entry_point_of_policy (layout_policy cfg text)).
  - exact (entry_point_of_policy (legacy_policy cfg text)).
Qed.

(** C1, as stated, fails: the public roster entry point throws on a roster
    text from which no horse can be read. *)
Lemma C1_entry_point_throws_on_unparsable_roster :
  Layout.parseHorseData defaultConfig Samples.invalidHorseData
    = Throw (ErrorObject (js "有効な馬データが見つかりませんでした"))
  /\ Legacy.parseHorseData defaultConfig (js "不正な行データ")
    = Throw (ErrorObject (js "有効な馬データが見つかりませんでした")).
Proof. split; vm_compute; reflexivity. Qed.

(** ** Fragment-failure policy *)

(** C3: in both variants the roster extractor returns the records of the
    fragments whose extraction succeeds, in order.  With
    [skipInvalidHorses] each failed fragment contributes its message to the
    warnings and nothing to the errors, and the result is successful as soon
    as one record remains; without it each failed fragment contributes its
    error and one failure makes the result unsuccessful. *)
Theorem C3_fragment_failure_policy :
  forall (cfg : ParserConfig) (text : jsstring),
    (exists r,
        Layout.parseHorseDataInternal cfg text = Return r
        /\ Roster.policy cfg text Layout.blockError (layoutFragments text) r
        /\ (skipInvalidHorses cfg = true ->
            Roster.records (layoutFragments text) <> [] -> success r = true)
        /\ (skipInvalidHorses cfg = false ->
            Roster.failures Layout.blockError (layoutFragments text) <> [] ->
            success r = false))
    /\ (exists r,
        Legacy.parseHorseDataInternal cfg text = Return r
        /\ Roster.policy cfg text Legacy.lineError (legacyFragments text) r
        /\ (skipInvalidHorses cfg = true ->
            Roster.records (legacyFragments text) <> [] -> success r = true)
        /\ (skipInvalidHorses cfg = false ->
            Roster.failures Legacy.lineError (legacyFragments text) <> [] ->
            success r = false)).
Proof.
  intros cfg text. split.
  - exists (Layout.parseHorseDataInternalBody cfg text).
    pose proof (layout_policy cfg text) as Hpol.
    split; [reflexivity|]. split; [exact Hpol|]. split.
    + now apply policy_success_when_skipping with (1 := Hpol).
    + now apply policy_failure_when_keeping with (1 := Hpol).
  - exists (Legacy.parseHorseDataInternalBody cfg text).
    pose proof (legacy_policy cfg text) as Hpol.
    split; [reflexivity|]. split; [exact Hpol|]. split.
    + now apply policy_success_when_skipping with (1 := Hpol).
    + now apply policy_failure_when_keeping with (1 := Hpol).
Qed.

(** The scenario of the specification: one malformed fragment among five. *)
Example one_malformed_among_five_skipped :
  summary (Layout.parseHorseDataInternal defaultConfig Samples.fiveFragments)
    = Some (true, Some 4, 0, 1)%nat
  /\ summary (Legacy.parseHorseDataInternal defaultConfig Samples.fiveLines)
    = Some (true, Some 4, 0, 1)%nat.
Proof. split; vm_compute; reflexivity. Qed.

Example one_malformed_among_five_kept :
  summary (Layout.parseHorseDataInternal Samples.strictKeep Samples.fiveFragments)
    = Some (false, Some 4, 1, 0)%nat
  /\ summary (Legacy.parseHorseDataInternal Samples.strictKeep Samples.fiveLines)
    = Some (false, Some 4, 1, 0)%nat.
Proof. split; vm_compute; reflexivity. Qed.

(** ** Race information *)

Lemma layout_errors_critical text titleMatch rd mm e :
  In e (Layout.raceInfoErrors text titleMatch rd mm) ->
  Layout.isCritical e = true /\ has_field "raceNumber" e = false.
Proof.
  unfold Layout.raceInfoErrors.
  destruct (JsString.truthy titleMatch), rd, mm; cbn [app In];
    intuition (subst; split; reflexivity).
Qed.

Lemma filter_all {A : Type} (f : A -> bool) (l : list A) :
  (forall x, In x l -> f x = true) -> filter f l = l.
Proof.
  induction l as [|x l IH]; intros Hall; cbn; [reflexivity|].
  rewrite (Hall x (or_introl eq_refl)), IH; [reflexivity|].
  intros y Hy. apply Hall. now right.
Qed.

Lemma layout_critical_filter text titleMatch rd mm :
  filter Layout.isCritical (Layout.raceInfoErrors text titleMatch rd mm)
    = Layout.raceInfoErrors text titleMatch rd mm.
Proof.
  apply filter_all. intros e He. now apply layout_errors_critical in He.
Qed.

(** C2, as amended: the result of [parseRaceInfo] depends on the clock only
    through the [date] field.  Two calls on the same text with the same
    configuration agree on the success flag, the errors, the warnings and
    every field of the record but [date]; in the line-keyed variant they
    agree on [date] as well when the text carries a date, whereas the
    layout-keyed variant always takes [date] from the clock. *)
Theorem C2_race_info_reads_the_clock_only_for_date :
  forall (cfg : ParserConfig) (text : jsstring) (now1 now2 : Z),
    (exists r1 r2,
        Layout.parseRaceInfo cfg text now1 = Return r1
        /\ Layout.parseRaceInfo cfg text now2 = Return r2
        /\ sameButDate r1 r2
        /\ (forall d, data r1 = Some d -> date d = DateOfClock now1))
    /\ (exists r1 r2,
        Legacy.parseRaceInfo cfg text now1 = Return r1
        /\ Legacy.parseRaceInfo cfg text now2 = Return r2
        /\ sameButDate r1 r2
        /\ (Regex.exec Legacy.datePattern text <> None -> r1 = r2)
        /\ (Regex.exec Legacy.datePattern text = None ->
            forall d, data r1 = Some d -> date d = DateOfClock now1)).
Proof.
  intros cfg text now1 now2. split.
  - exists (Layout.parseRaceInfoBody cfg text now1),
           (Layout.parseRaceInfoBody cfg text now2).
    split; [reflexivity|]. split; [reflexivity|].
    unfold Layout.parseRaceInfoBody, sameButDate. cbn zeta.
    destruct (Regex.exec Layout.raceNumberGuess text);
      destruct (_ && strictMode cfg); cbn [success data errors warnings];
      try destruct (_ && _); cbn [success data errors warnings];
      repeat split; try discriminate; intros d Hd; injection Hd as <-;
      reflexivity.
  - exists (Legacy.parseRaceInfoBody cfg text now1),
           (Legacy.parseRaceInfoBody cfg text now2).
    split; [reflexivity|]. split; [reflexivity|].
    unfold Legacy.parseRaceInfoBody, sameButDate. cbn zeta.
    destruct (Regex.exec Legacy.datePattern text) as [dm|];
      destruct (_ && strictMode cfg); cbn [success data errors warnings];
      try destruct (_ && _); cbn [success data errors warnings];
      repeat split; try discriminate; try congruence;
      try (intros; reflexivity);
      intros _ d Hd; try discriminate; injection Hd as <-; reflexivity.
Qed.

(** C2, as stated, fails: two successful calls on the same text return
    records whose [date] fields differ when the clock has moved. *)
Lemma C2_date_differs_between_two_calls :
  exists r1 r2 d1 d2,
    Layout.parseRaceInfo defaultConfig Samples.keenelandInfo 0 = Return r1
    /\ Layout.parseRaceInfo defaultConfig Samples.keenelandInfo 1 = Return r2
    /\ success r1 = true /\ success r2 = true
    /\ data r1 = Some d1 /\ data r2 = Some d2
    /\ date d1 = DateOfClock 0 /\ date d2 = DateOfClock 1
    /\ d1 <> d2.
Proof.
  do 4 eexists.
  split; [vm_compute; reflexivity|].
  split; [vm_compute; reflexivity|].
  cbn [success data date].
  repeat split; discriminate.
Qed.

(** The line-keyed variant reads the clock when the text has no date. *)
Example legacy_date_defaults_to_the_clock :
  exists r d,
    Legacy.parseRaceInfo defaultConfig Samples.noDateInfo 7 = Return r
    /\ success r = true /\ data r = Some d /\ date d = DateOfClock 7.
Proof.
  do 2 eexists. split; [vm_compute; reflexivity|].
  cbn [success data date]. repeat split.
Qed.

(** C5, as amended: when the text has no race-number marker, the
    layout-keyed extractor records the warning, records no error for the
    field, gives [raceNumber] the value 11 in the record it returns, and is
    unsuccessful only through an error on the title, the race details or the
    meeting line; the line-keyed extractor records an error for the field
    [raceNumber] and is unsuccessful. *)
Theorem C5_missing_race_number_marker :
  forall (cfg : ParserConfig) (text : jsstring) (now : Z),
    Regex.exec Layout.raceNumberGuess text = None ->
    (exists r,
        Layout.parseRaceInfo cfg text now = Return r
        /\ warnings r = [Layout.raceNumberWarning]
        /\ (forall e, In e (errors r) ->
              has_field "raceNumber" e = false /\ Layout.isCritical e = true)
        /\ (forall d, data r = Some d -> raceNumber d = 11%N)
        /\ success r = (List.length (errors r) =? 0)%nat)
    /\ (exists r,
        Legacy.parseRaceInfo cfg text now = Return r
        /\ success r = false
        /\ data r = None
        /\ In (Legacy.raceInfoError "raceNumber" "レース番号が見つかりません" text)
              (errors r)).
Proof.
  intros cfg text now Hnone. split.
  - exists (Layout.parseRaceInfoBody cfg text now).
    split; [reflexivity|].
    unfold Layout.parseRaceInfoBody. cbn zeta. rewrite Hnone.
    rewrite layout_critical_filter.
    set (errs := Layout.raceInfoErrors _ _ _ _).
    assert (Hall : forall e, In e errs ->
                     has_field "raceNumber" e = false /\ Layout.isCritical e = true).
    { intros e He. apply layout_errors_critical in He. tauto. }
    destruct errs as [|e0 errs'].
    + cbn [List.length Nat.ltb Nat.leb andb success data errors warnings].
      split; [reflexivity|]. split; [intros e []|].
      split; [intros d Hd; injection Hd as <-; reflexivity|reflexivity].
    + cbn [List.length Nat.ltb Nat.leb andb].
      destruct (strictMode cfg); cbn [success data errors warnings];
        (split; [reflexivity|]; split; [exact Hall|];
         split; [discriminate|reflexivity]).
  - exists (Legacy.parseRaceInfoBody cfg text now).
    split; [reflexivity|].
    unfold Legacy.parseRaceInfoBody. cbn zeta.
    change Legacy.raceNumberPattern with Layout.raceNumberGuess.
    rewrite Hnone. cbn [Legacy.missing].
    set (rn := Legacy.raceInfoError "raceNumber" _ text).
    set (pre := Legacy.missing (Regex.exec Legacy.venuePattern text) _).
    set (post := Legacy.missing (Regex.exec Legacy.titlePattern text) _ ++ _).
    assert (Hin : In rn (pre ++ [rn] ++ post)).
    { apply in_or_app. right. now left. }
    assert (Hlen : (0 <? List.length (pre ++ [rn] ++ post))%nat = true).
    { apply Nat.ltb_lt. rewrite length_app. cbn [app List.length]. lia. }
    assert (Hcrit : (0 <? List.length (filter Legacy.isCritical
                                          (pre ++ [rn] ++ post)))%nat = true).
    { apply Nat.ltb_lt. rewrite filter_app, length_app. cbn [app filter].
      replace (Legacy.isCritical rn) with true by reflexivity.
      cbn [List.length]. lia. }
    rewrite Hlen, Hcrit. cbn [andb].
    destruct (strictMode cfg); cbn [success data errors]; auto.
Qed.

(** The statement at the header of the real sample, which has no marker. *)
Lemma C5_missing_race_number_marker_witness :
  Regex.exec Layout.raceNumberGuess Samples.keenelandInfo = None
  /\ ((exists r,
        Layout.parseRaceInfo defaultConfig Samples.keenelandInfo 0 = Return r
        /\ warnings r = [Layout.raceNumberWarning]
        /\ (forall e, In e (errors r) ->
              has_field "raceNumber" e = false /\ Layout.isCritical e = true)
        /\ (forall d, data r = Some d -> raceNumber d = 11%N)
        /\ success r = (List.length (errors r) =? 0)%nat)
     /\ (exists r,
        Legacy.parseRaceInfo defaultConfig Samples.keenelandInfo 0 = Return r
        /\ success r = false
        /\ data r = None
        /\ In (Legacy.raceInfoError "raceNumber" "レース番号が見つかりません"
                 Samples.keenelandInfo)
              (errors r))).
Proof.
  split.
  - vm_compute. reflexivity.
  - apply (C5_missing_race_number_marker defaultConfig Samples.keenelandInfo 0).
    vm_compute. reflexivity.
Defined.

(** C5, as stated, fails on the line-keyed extractor: a text with venue,
    class, distance, condition and date but no race-number marker is
    unsuccessful, the only critical error is the one on [raceNumber], and no
    warning is recorded. *)
Lemma C5_legacy_marker_absence_is_a_critical_error :
  Regex.exec Legacy.raceNumberPattern Samples.noMarkerInfo = None
  /\ exists r,
      Legacy.parseRaceInfo defaultConfig Samples.noMarkerInfo 0 = Return r
      /\ success r = false
      /\ data r = None
      /\ map field (filter Legacy.isCritical (errors r)) = [js "raceNumber"]
      /\ warnings r = [].
Proof.
  split; [vm_compute; reflexivity|].
  eexists. split; [vm_compute; reflexivity|].
  repeat split; vm_compute; reflexivity.
Qed.

(** C6: in the line-keyed extractor, when neither the venue pattern nor the
    distance pattern matches and [strictMode] is off, the call is
    unsuccessful, returns no record, and its errors contain a [RACE_INFO]
    error with field [venue] and one with field [distance]. *)
Theorem C6_missing_venue_and_distance_abort :
  forall (cfg : ParserConfig) (text : jsstring) (now : Z),
    strictMode cfg = false ->
    Regex.exec Legacy.venuePattern text = None ->
    Regex.exec Legacy.distancePattern text = None ->
    exists r ev ed,
      Legacy.parseRaceInfo cfg text now = Return r
      /\ success r = false
      /\ data r = None
      /\ In ev (errors r) /\ type ev = RACE_INFO /\ field ev = js "venue"
      /\ In ed (errors r) /\ type ed = RACE_INFO /\ field ed = js "distance".
Proof.
  intros cfg text now Hstrict Hvenue Hdist.
  exists (Legacy.parseRaceInfoBody cfg text now),
         (Legacy.raceInfoError "venue" "競馬場名が見つかりません" text),
         (Legacy.raceInfoError "distance" "距離・コース情報が見つかりません" text).
  split; [reflexivity|].
  unfold Legacy.parseRaceInfoBody. cbn zeta.
  rewrite Hstrict, Hvenue, Hdist. cbn [Legacy.missing app].
  set (ev := Legacy.raceInfoError "venue" _ text).
  set (ed := Legacy.raceInfoError "distance" _ text).
  set (mid := Legacy.missing (Regex.exec Legacy.raceNumberPattern text) _).
  set (tl := Legacy.missing (Regex.exec Legacy.titlePattern text) _).
  set (dt := Legacy.missing (Regex.exec Legacy.datePattern text) _).
  cbn [List.length Nat.ltb Nat.leb filter andb].
  replace (Legacy.isCritical ev) with true by reflexivity.
  cbn [List.length Nat.ltb Nat.leb success data errors].
  repeat split.
  - now left.
  - right. apply in_or_app. right. apply in_or_app. right. now left.
Qed.

(** The statement at [INVALID_RACE_INFO] of the test data. *)
Lemma C6_missing_venue_and_distance_abort_witness :
  strictMode defaultConfig = false
  /\ Regex.exec Legacy.venuePattern Samples.invalidInfo = None
  /\ Regex.exec Legacy.distancePattern Samples.invalidInfo = None
  /\ exists r ev ed,
      Legacy.parseRaceInfo defaultConfig Samples.invalidInfo 0 = Return r
      /\ success r = false
      /\ data r = None
      /\ In ev (errors r) /\ type ev = RACE_INFO /\ field ev = js "venue"
      /\ In ed (errors r) /\ type ed = RACE_INFO /\ field ed = js "distance".
Proof.
  split; [reflexivity|].
  split; [vm_compute; reflexivity|].
  split; [vm_compute; reflexivity|].
  apply (C6_missing_venue_and_distance_abort defaultConfig Samples.invalidInfo 0).
  - reflexivity.
  - vm_compute. reflexivity.
  - vm_compute. reflexivity.
Defined.

(** ** Maps, sets and sorting *)

Lemma JsSet_has_In (x : N) (s : list N) : JsSet.has x s = true <-> In x s.
Proof.
  unfold JsSet.has. rewrite existsb_exists. split.
  - intros (y & Hy & Heq). apply N.eqb_eq in Heq. now subst.
  - intros Hin. exists x. split; [exact Hin|apply N.eqb_refl].
Qed.

Lemma JsSet_fold_add (l : list N) :
  forall acc,
    NoDup acc ->
    NoDup (fold_left JsSet.add l acc)
    /\ forall x, In x (fold_left JsSet.add l acc) <-> In x acc \/ In x l.
Proof.
  induction l as [|a l IH]; intros acc Hnd; cbn [fold_left].
  - split; [exact Hnd|]. intros x. cbn. tauto.
  - unfold JsSet.add at 2 4. destruct (JsSet.has a acc) eqn:Hhas.
    + apply JsSet_has_In in Hhas.
      destruct (IH acc Hnd) as (Hnd' & Hin'). split; [exact Hnd'|].
      intros x. rewrite Hin'. cbn. intuition (subst; auto).
    + assert (Hnot : ~ In a acc).
      { intros Hin. apply JsSet_has_In in Hin. congruence. }
      assert (Hnd2 : NoDup (acc ++ [a])).
      { apply NoDup_app; try assumption.
        - constructor; [intros []|constructor].
        - intros x Hx [Hxa|[]]. now subst. }
      destruct (IH (acc ++ [a]) Hnd2) as (Hnd' & Hin'). split; [exact Hnd'|].
      intros x. rewrite Hin', in_app_iff. cbn. tauto.
Qed.

Lemma JsSet_of_list_spec (l : list N) :
  NoDup (JsSet.of_list l) /\ forall x, In x (JsSet.of_list l) <-> In x l.
Proof.
  unfold JsSet.of_list. destruct (JsSet_fold_add l (NoDup_nil N)) as (Hnd & Hin).
  split; [exact Hnd|]. intros x. rewrite Hin. cbn. tauto.
Qed.

Lemma JsMap_get_None (V : Type) (k : N) (m : JsMap.t V) :
  JsMap.get k m = None <-> ~ In k (JsMap.keys m).
Proof.
  induction m as [|[k' v] m IH]; cbn.
  - tauto.
  - destruct (N.eqb_spec k k') as [->|Hne].
    + split; [discriminate|]. intros Hnot. exfalso. apply Hnot. now left.
    + rewrite IH. split.
      * intros Hnot [Heq|Hin]; [congruence|contradiction].
      * intros Hnot Hin. apply Hnot. now right.
Qed.

Lemma insertByNumber_perm (x : OddsData) (l : list OddsData) :
  Permutation (Layout.insertByNumber x l) (x :: l).
Proof.
  induction l as [|y l IH]; cbn; [reflexivity|].
  destruct (horseNumber x <=? horseNumber y)%N; [reflexivity|].
  rewrite IH. apply perm_swap.
Qed.

Lemma sortByNumber_perm (l : list OddsData) :
  Permutation (Layout.sortByNumber l) l.
Proof.
  induction l as [|x l IH]; cbn; [reflexivity|].
  rewrite insertByNumber_perm. now constructor.
Qed.

Lemma insertByNumber_sorted (x : OddsData) (l : list OddsData) :
  StronglySorted le_number l ->
  StronglySorted le_number (Layout.insertByNumber x l).
Proof.
  induction 1 as [|y l Hsorted IH Hall]; cbn.
  - repeat constructor.
  - destruct (N.leb_spec (horseNumber x) (horseNumber y)) as [Hle|Hgt].
    + constructor; [now constructor|].
      constructor; [exact Hle|].
      eapply Forall_impl; [|exact Hall].
      intros z Hz. unfold le_number in *. lia.
    + constructor; [exact IH|].
      apply Forall_forall. intros z Hz.
      apply (Permutation_in _ (insertByNumber_perm x l)) in Hz.
      destruct Hz as [<-|Hz].
      * unfold le_number. lia.
      * rewrite Forall_forall in Hall. now apply Hall.
Qed.

Lemma sortByNumber_sorted (l : list OddsData) :
  StronglySorted le_number (Layout.sortByNumber l).
Proof.
  induction l as [|x l IH]; cbn; [constructor|].
  now apply insertByNumber_sorted.
Qed.

Lemma sorted_numbers (l : list OddsData) :
  StronglySorted le_number l -> StronglySorted N.le (map horseNumber l).
Proof.
  induction 1 as [|x l Hsorted IH Hall]; cbn; constructor; [exact IH|].
  apply Forall_map. exact Hall.
Qed.

Lemma sorted_nodup_strict (l : list N) :
  StronglySorted N.le l -> NoDup l -> StronglySorted N.lt l.
Proof.
  induction 1 as [|x l Hsorted IH Hall]; intros Hnd; constructor.
  - apply IH. now inversion Hnd.
  - inversion Hnd as [|? ? Hnot Hnd']; subst.
    rewrite Forall_forall in *. intros y Hy.
    specialize (Hall y Hy).
    assert (x <> y) by (intros ->; contradiction).
    lia.
Qed.

Lemma combine_numbers cfg st (hs : list N) :
  map horseNumber (map (Layout.combine cfg st) hs) = hs.
Proof.
  rewrite map_map. cbn. apply map_id.
Qed.

(** ** Binary64 rounding *)

Module Binary64.

Import JsNumber.


Lemma pow2_pos (e : Z) : (0 < pow2 e)%Q.
Proof. apply Qpower_0_lt. reflexivity. Qed.

Lemma pow2_add (a b : Z) : (pow2 (a + b) == pow2 a * pow2 b)%Q.
Proof. apply Qpower_plus. discriminate. Qed.

Lemma pow2_le (a b : Z) : (a <= b)%Z -> (pow2 a <= pow2 b)%Q.
Proof. intros H. apply Qpower_le_compat_l; [exact H|]. discriminate. Qed.

Lemma pow2_Z (e : Z) : (0 <= e)%Z -> (pow2 e == inject_Z (2 ^ e))%Q.
Proof. intros H. unfold pow2. now rewrite (Zpower_Qpower 2 e H). Qed.

Lemma Qmake_mult_den (n : Z) (d : positive) :
  ((n # d) * inject_Z (Zpos d) == inject_Z n)%Q.
Proof. unfold Qeq, Qmult, inject_Z. cbn. lia. Qed.

(** [ilog2 q] is the integer part of the binary logarithm of [q]. *)
Lemma ilog2_spec (q : Q) :
  (0 < q)%Q -> (pow2 (ilog2 q) <= q)%Q /\ (q < pow2 (ilog2 q + 1))%Q.
Proof.
  destruct q as [n d]. intros Hq.
  assert (Hn : (0 < n)%Z) by (unfold Qlt in Hq; cbn in Hq; lia).
  unfold ilog2. cbn [Qnum Qden].
  set (a := Z.log2 n). set (b := Z.log2 (Zpos d)).
  destruct (Z.log2_spec n Hn) as (Ha1 & Ha2). fold a in Ha1, Ha2.
  destruct (Z.log2_spec (Zpos d) eq_refl) as (Hb1 & Hb2). fold b in Hb1, Hb2.
  assert (Ha0 : (0 <= a)%Z) by apply Z.log2_nonneg.
  assert (Hb0 : (0 <= b)%Z) by apply Z.log2_nonneg.
  assert (Hupper : (n # d < pow2 (a - b + 1))%Q).
  { apply (Qmult_lt_r _ _ (pow2 b) (pow2_pos b)).
    rewrite <- pow2_add. replace (a - b + 1 + b)%Z with (Z.succ a) by lia.
    apply Qle_lt_trans with ((n # d) * inject_Z (Zpos d))%Q.
    - apply Qmult_le_l; [exact Hq|]. rewrite (pow2_Z Hb0).
      rewrite <- Zle_Qle. exact Hb1.
    - rewrite Qmake_mult_den, (pow2_Z (Z.le_le_succ_r _ _ Ha0)).
      rewrite <- Zlt_Qlt. exact Ha2. }
  assert (Hlower : (pow2 (a - b - 1) <= n # d)%Q).
  { apply (Qmult_le_r _ _ (pow2 (b + 1)) (pow2_pos (b + 1))).
    rewrite <- pow2_add. replace (a - b - 1 + (b + 1))%Z with a by lia.
    apply Qle_trans with ((n # d) * inject_Z (Zpos d))%Q.
    - rewrite Qmake_mult_den, (pow2_Z Ha0). rewrite <- Zle_Qle. exact Ha1.
    - apply Qmult_le_l; [exact Hq|].
      assert (Hb1' : (0 <= b + 1)%Z) by lia. rewrite (pow2_Z Hb1').
      rewrite <- Zle_Qle. change (Z.succ b) with (b + 1)%Z in Hb2. lia. }
  destruct (Qle_bool (pow2 (a - b)) (n # d)) eqn:Hc.
  - apply Qle_bool_iff in Hc. split; [exact Hc|exact Hupper].
  - split; [exact Hlower|].
    replace (a - b - 1 + 1)%Z with (a - b)%Z by lia.
    apply Qnot_le_lt. intros Hle. apply Qle_bool_iff in Hle. congruence.
Qed.

Lemma nearest_even_bounds (x : Q) :
  (Qfloor x <= nearest_even x <= Qfloor x + 1)%Z.
Proof.
  unfold nearest_even. destruct (Qcompare _ _); [destruct (Z.even _)| |]; lia.
Qed.

Lemma nearest_even_Z (k : Z) : nearest_even (inject_Z k) = k.
Proof.
  unfold nearest_even. rewrite Qfloor_Z.
  assert (H : (inject_Z k - inject_Z k == 0)%Q) by ring.
  rewrite H. reflexivity.
Qed.

Lemma nearest_even_mono (x y : Q) :
  (x <= y)%Q -> (nearest_even x <= nearest_even y)%Z.
Proof.
  intros Hxy. pose proof (Qfloor_resp_le _ _ Hxy) as Hf.
  pose proof (nearest_even_bounds x) as Hx.
  pose proof (nearest_even_bounds y) as Hy.
  destruct (Z.eq_dec (Qfloor x) (Qfloor y)) as [Heq|Hne]; [|lia].
  assert (Hfrac : (x - inject_Z (Qfloor x) <= y - inject_Z (Qfloor y))%Q).
  { rewrite Heq. apply Qplus_le_compat; [exact Hxy|apply Qle_refl]. }
  unfold nearest_even. rewrite <- Heq in Hfrac |- *.
  set (f := Qfloor x) in *.
  destruct (Qcompare_spec (x - inject_Z f) (1 # 2)) as [Cx|Cx|Cx];
    destruct (Qcompare_spec (y - inject_Z f) (1 # 2)) as [Cy|Cy|Cy];
    try (destruct (Z.even f); lia); try lia; exfalso.
  - rewrite Cx in Hfrac. exact (Qlt_not_le _ _ Cy Hfrac).
  - apply (Qlt_not_le _ _ Cx). rewrite <- Cy. exact Hfrac.
  - apply (Qlt_not_le _ _ (Qlt_trans _ _ _ Cy Cx)). exact Hfrac.
Qed.

Lemma nearest_even_ge (k : Z) (x : Q) :
  (inject_Z k <= x)%Q -> (k <= nearest_even x)%Z.
Proof.
  intros H. rewrite <- (nearest_even_Z k). now apply nearest_even_mono.
Qed.

Lemma nearest_even_le (k : Z) (x : Q) :
  (x <= inject_Z k)%Q -> (nearest_even x <= k)%Z.
Proof.
  intros H. rewrite <- (nearest_even_Z k). now apply nearest_even_mono.
Qed.

Lemma round_pos_rounded (q : Q) :
  round_pos q
  = if Qle_bool (pow2 1024) (rounded q) then Infinity false
    else Finite (Qred (rounded q)).
Proof. reflexivity. Qed.

Lemma Qdiv_pow2_le (a b : Q) (e : Z) :
  (a <= b)%Q -> (a / pow2 e <= b / pow2 e)%Q.
Proof.
  intros H. unfold Qdiv. apply Qmult_le_compat_r; [exact H|].
  apply Qlt_le_weak, Qinv_lt_0_compat, pow2_pos.
Qed.

Lemma pow2_div (a b : Z) : (pow2 a / pow2 b == pow2 (a - b))%Q.
Proof.
  unfold Qdiv. replace (a - b)%Z with (a + - b)%Z by lia.
  rewrite pow2_add. unfold pow2 at 4. rewrite Qpower_opp. reflexivity.
Qed.

Lemma rounded_mono (q1 q2 : Q) :
  (0 < q1)%Q -> (q1 <= q2)%Q -> (rounded q1 <= rounded q2)%Q.
Proof.
  intros Hpos Hle.
  assert (Hpos2 : (0 < q2)%Q) by (eapply Qlt_le_trans; eassumption).
  destruct (ilog2_spec Hpos) as (Hl1 & Hu1).
  destruct (ilog2_spec Hpos2) as (Hl2 & Hu2).
  unfold rounded.
  set (e1 := Z.max (ilog2 q1) (-1022)). set (e2 := Z.max (ilog2 q2) (-1022)).
  assert (Hup : forall q e, (q < pow2 (ilog2 q + 1))%Q ->
                  e = Z.max (ilog2 q) (-1022) -> (q <= pow2 (e + 1))%Q).
  { intros q e Hu ->. apply Qlt_le_weak. eapply Qlt_le_trans; [exact Hu|].
    apply pow2_le. lia. }
  destruct (Z.lt_trichotomy e1 e2) as [Hlt|[Heq|Hgt]].
  - (* the larger one is normal and lies in a higher binade *)
    assert (He2 : e2 = ilog2 q2) by (unfold e1, e2 in *; lia).
    assert (Hm1 : (nearest_even (q1 / pow2 (e1 - 52)) <= 2 ^ 53)%Z).
    { apply nearest_even_le.
      apply Qle_trans with (pow2 (e1 + 1) / pow2 (e1 - 52))%Q.
      - apply Qdiv_pow2_le. now apply (Hup q1 e1).
      - rewrite pow2_div. replace (e1 + 1 - (e1 - 52))%Z with 53%Z by lia.
        apply Qle_refl. }
    assert (Hm2 : (2 ^ 52 <= nearest_even (q2 / pow2 (e2 - 52)))%Z).
    { apply nearest_even_ge.
      apply Qle_trans with (pow2 e2 / pow2 (e2 - 52))%Q.
      - rewrite pow2_div. replace (e2 - (e2 - 52))%Z with 52%Z by lia.
        apply Qle_refl.
      - apply Qdiv_pow2_le. rewrite He2. exact Hl2. }
    apply Qle_trans with (inject_Z (2 ^ 53) * pow2 (e1 - 52))%Q.
    { apply Qmult_le_compat_r; [|apply Qlt_le_weak, pow2_pos].
      rewrite <- Zle_Qle. exact Hm1. }
    apply Qle_trans with (inject_Z (2 ^ 52) * pow2 (e2 - 52))%Q.
    2:{ apply Qmult_le_compat_r; [|apply Qlt_le_weak, pow2_pos].
        rewrite <- Zle_Qle. exact Hm2. }
    change (inject_Z (2 ^ 53)) with (pow2 53).
    change (inject_Z (2 ^ 52)) with (pow2 52).
    rewrite <- !pow2_add. apply pow2_le. lia.
  - rewrite <- Heq.
    apply Qmult_le_compat_r; [|apply Qlt_le_weak, pow2_pos].
    rewrite <- Zle_Qle. apply nearest_even_mono. now apply Qdiv_pow2_le.
  - exfalso.
    assert (He1 : e1 = ilog2 q1) by (unfold e1, e2 in *; lia).
    apply (Qlt_not_le _ _ Hu2).
    apply Qle_trans with (pow2 e1); [apply pow2_le; unfold e2 in *; lia|].
    rewrite He1. now apply Qle_trans with q1.
Qed.

Lemma rounded_nonneg (q : Q) : (0 < q)%Q -> (0 <= rounded q)%Q.
Proof.
  intros Hq. unfold rounded. apply Qmult_le_0_compat.
  - change 0%Q with (inject_Z 0). rewrite <- Zle_Qle. apply nearest_even_ge.
    apply Qle_shift_div_l; [apply pow2_pos|].
    rewrite Qmult_0_l. now apply Qlt_le_weak.
  - apply Qlt_le_weak, pow2_pos.
Qed.

Lemma round_pos_nonneg (q : Q) : (0 < q)%Q -> leb (Finite 0) (round_pos q) = true.
Proof.
  intros Hq. rewrite round_pos_rounded.
  destruct (Qle_bool (pow2 1024) (rounded q)); [reflexivity|].
  cbn [leb]. apply Qle_bool_iff. rewrite Qred_correct. now apply rounded_nonneg.
Qed.

Lemma round_pos_mono (q1 q2 : Q) :
  (0 < q1)%Q -> (q1 <= q2)%Q -> leb (round_pos q1) (round_pos q2) = true.
Proof.
  intros Hpos Hle. pose proof (rounded_mono Hpos Hle) as Hr.
  rewrite !round_pos_rounded.
  destruct (Qle_bool (pow2 1024) (rounded q1)) eqn:H1.
  - apply Qle_bool_iff in H1.
    assert (H2 : Qle_bool (pow2 1024) (rounded q2) = true).
    { apply Qle_bool_iff. now apply Qle_trans with (rounded q1). }
    rewrite H2. reflexivity.
  - destruct (Qle_bool (pow2 1024) (rounded q2)); [reflexivity|].
    cbn [leb]. apply Qle_bool_iff. now rewrite !Qred_correct.
Qed.

Lemma Qnum_pos (q : Q) : (0 < q)%Q <-> (0 < Qnum q)%Z.
Proof. unfold Qlt. cbn. lia. Qed.

Lemma Qnum_nonneg (q : Q) : (0 <= q)%Q <-> (0 <= Qnum q)%Z.
Proof. unfold Qle. cbn. lia. Qed.

(** Rounding keeps the sign of a number that is not negative. *)
Lemma round64_nonneg (q : Q) : (0 <= q)%Q -> leb (Finite 0) (round64 q) = true.
Proof.
  intros Hq. apply Qnum_nonneg in Hq. unfold round64.
  destruct (Qnum q) as [|n|n] eqn:Hn; [reflexivity| |lia].
  apply round_pos_nonneg, Qnum_pos. lia.
Qed.

(** Rounding is monotone. *)
Lemma round64_mono (q1 q2 : Q) :
  (0 <= q1)%Q -> (q1 <= q2)%Q -> leb (round64 q1) (round64 q2) = true.
Proof.
  intros H1 Hle.
  assert (H2 : (0 <= q2)%Q) by (eapply Qle_trans; eassumption).
  unfold round64 at 1. apply Qnum_nonneg in H1.
  destruct (Qnum q1) as [|n|n] eqn:Hn; [now apply round64_nonneg| |lia].
  assert (Hp1 : (0 < q1)%Q) by (apply Qnum_pos; lia).
  assert (Hp2 : (0 < q2)%Q) by (eapply Qlt_le_trans; eassumption).
  unfold round64. apply Qnum_pos in Hp2.
  destruct (Qnum q2) as [|m|m] eqn:Hm; try lia.
  now apply round_pos_mono.
Qed.

Lemma nonneg_cases (x : float64) :
  leb (Finite 0) x = true ->
  (exists q, x = Finite q /\ (0 <= q)%Q) \/ x = Infinity false.
Proof.
  destruct x as [q|[|]|]; cbn [leb]; try discriminate.
  - intros H. left. exists q. split; [reflexivity|now apply Qle_bool_iff].
  - intros _. now right.
Qed.

Lemma Qdiv_pos_nonneg (q : Q) (d : positive) :
  (0 <= q)%Q -> (0 <= q / inject_Z (Zpos d))%Q.
Proof.
  intros H. apply Qle_shift_div_l; [reflexivity|]. now rewrite Qmult_0_l.
Qed.

(** [x / d] is not negative when [x] is not. *)
Lemma div_nonneg (x : float64) (d : positive) :
  leb (Finite 0) x = true -> leb (Finite 0) (div x d) = true.
Proof.
  intros H. destruct (nonneg_cases x H) as [(q & -> & Hq)| ->]; [|reflexivity].
  cbn [div]. now apply round64_nonneg, Qdiv_pos_nonneg.
Qed.

(** [x / 3 <= x / 2] for a number that is not negative. *)
Lemma third_le_half (x : float64) :
  leb (Finite 0) x = true -> leb (div x 3) (div x 2) = true.
Proof.
  intros H. destruct (nonneg_cases x H) as [(q & -> & Hq)| ->]; [|reflexivity].
  cbn [div]. apply round64_mono; [now apply Qdiv_pos_nonneg|].
  unfold Qdiv. rewrite (Qmult_comm q), (Qmult_comm q).
  apply Qmult_le_compat_r; [discriminate|exact Hq].
Qed.

(** [round64] against the division of the floating-point specification of
    the Standard Library, at decimal odds, at ties above [2^53], in the
    subnormal range (ties and underflow to zero) and at the overflow
    threshold. *)
Example round64_agrees_with_the_IEEE_division :
  forallb (fun nd =>
             match round64 (Zpos (fst nd) # snd nd),
                   of_spec (ieee_quotient (fst nd) (snd nd)) with
             | Finite a, Finite b =>
                 (Qnum a =? Qnum b)%Z && (Qden a =? Qden b)%positive
             | Infinity a, Infinity b => Bool.eqb a b
             | _, _ => false
             end)
          [ (999, 10); (152, 10); (76, 15); (1, 3); (2, 3); (1, 10); (5, 1);
            (176300, 1000); (5066666666666666, 1000000000000000);
            (9007199254740992, 1); (9007199254740993, 1);
            (9007199254740995, 1); (18014398509481986, 1);
            (99999999999999999999, 1); (4503599627370497, 2);
            (4503599627370499, 2); (123456789012345678901234567890, 7);
            (1, 10 ^ 400); (1, 10 ^ 320); (49, 10 ^ 325); (25, 10 ^ 325);
            (2470328229206232721, 10 ^ 342); (2470328229206232720, 10 ^ 342);
            (10 ^ 400, 1); (10 ^ 309, 1); (17976931348623157 * 10 ^ 292, 1);
            (17976931348623158 * 10 ^ 292, 1);
            (17976931348623159 * 10 ^ 292, 1) ]%positive
  = true.
Proof. vm_compute. reflexivity. Qed.

End Binary64.

(** ** Odds: union, order and fallbacks *)

Lemma JsMap_get_In (V : Type) (k : N) (v : V) (m : JsMap.t V) :
  JsMap.get k m = Some v -> In (k, v) m.
Proof.
  induction m as [|[k' v'] m IH]; cbn; [discriminate|].
  destruct (N.eqb_spec k k') as [->|Hne].
  - intros [= ->]. now left.
  - intros Hget. right. now apply IH.
Qed.

Lemma JsMap_get_keys (V : Type) (k : N) (v : V) (m : JsMap.t V) :
  JsMap.get k m = Some v -> In k (JsMap.keys m).
Proof.
  intros H. apply JsMap_get_In in H. unfold JsMap.keys.
  apply in_map_iff. now exists (k, v).
Qed.

Lemma layout_odds_records (cfg : ParserConfig) (text : jsstring) :
  exists l,
    Layout.parseOdds cfg text = Return (mkParseResult true (Some l) [] [])
    /\ forall r, In r l ->
         r = Layout.combine cfg (Layout.scanOdds text) (horseNumber r).
Proof.
  exists (Layout.sortByNumber
            (map (Layout.combine cfg (Layout.scanOdds text))
                 (Layout.allHorseNumbers (Layout.scanOdds text)))).
  split; [reflexivity|]. intros r Hr.
  apply (Permutation_in _ (sortByNumber_perm _)) in Hr.
  apply in_map_iff in Hr. destruct Hr as (h & <- & _). reflexivity.
Qed.

Lemma layout_odds_union_sorted (cfg : ParserConfig) (text : jsstring) (l : list OddsData) :
  Layout.parseOdds cfg text = Return (mkParseResult true (Some l) [] []) ->
  (forall h, In h (map horseNumber l) <->
             In h (JsMap.keys (Layout.winOddsData (Layout.scanOdds text)))
             \/ In h (JsMap.keys (Layout.placeOddsData (Layout.scanOdds text))))
  /\ StronglySorted N.lt (map horseNumber l).
Proof.
  unfold Layout.parseOdds, Layout.parseOddsBody. cbn [try_catch].
  set (st := Layout.scanOdds text). set (hs := Layout.allHorseNumbers st).
  intros [= <-].
  destruct (JsSet_of_list_spec
              (JsMap.keys (Layout.winOddsData st)
               ++ JsMap.keys (Layout.placeOddsData st))) as (Hnd & Hin).
  fold (Layout.allHorseNumbers st) in Hnd, Hin. fold hs in Hnd, Hin.
  assert (Hperm : Permutation
                    (map horseNumber
                       (Layout.sortByNumber (map (Layout.combine cfg st) hs))) hs).
  { rewrite (Permutation_map horseNumber (sortByNumber_perm _)).
    now rewrite combine_numbers. }
  split.
  - intros h. split.
    + intros Hh. apply (Permutation_in _ Hperm) in Hh.
      apply Hin in Hh. now apply in_app_iff.
    + intros Hh. apply (Permutation_in _ (Permutation_sym Hperm)).
      apply Hin. now apply in_app_iff.
  - apply sorted_nodup_strict.
    + apply sorted_numbers. apply sortByNumber_sorted.
    + apply (Permutation_NoDup (Permutation_sym Hperm)). exact Hnd.
Qed.

(** The fields of the record pushed for a horse number, by the entries of
    the two maps. *)
Lemma combine_fields (cfg : ParserConfig) (st : Layout.oddsState) (h : N) :
  let r := Layout.combine cfg st h in
  (forall w, JsMap.get h (Layout.winOddsData st) = Some w ->
             JsNumber.truthy w = true -> winOdds r = w)
  /\ (JsMap.get h (Layout.winOddsData st) = None
      \/ (exists w, JsMap.get h (Layout.winOddsData st) = Some w
                    /\ JsNumber.truthy w = false) ->
      winOdds r = defaultOdds cfg)
  /\ (forall mn mx, JsMap.get h (Layout.placeOddsData st) = Some (mn, mx) ->
                    JsNumber.truthy mn = true -> placeOddsMin r = mn)
  /\ (forall mn mx, JsMap.get h (Layout.placeOddsData st) = Some (mn, mx) ->
                    JsNumber.truthy mx = true -> placeOddsMax r = mx)
  /\ (JsMap.get h (Layout.placeOddsData st) = None
      \/ (exists mn mx, JsMap.get h (Layout.placeOddsData st) = Some (mn, mx)
                        /\ JsNumber.truthy mn = false) ->
      placeOddsMin r = JsNumber.div (winOdds r) 3)
  /\ (JsMap.get h (Layout.placeOddsData st) = None
      \/ (exists mn mx, JsMap.get h (Layout.placeOddsData st) = Some (mn, mx)
                        /\ JsNumber.truthy mx = false) ->
      placeOddsMax r = JsNumber.div (winOdds r) 2).
Proof.
  cbn zeta. unfold Layout.combine. cbn [winOdds placeOddsMin placeOddsMax].
  destruct (JsMap.get h (Layout.winOddsData st)) as [w|];
    destruct (JsMap.get h (Layout.placeOddsData st)) as [[mn mx]|];
    unfold JsNumber.or_else;
    repeat split;
    try (intros w' [= <-] Ht; now rewrite Ht);
    try (intros mn' mx' [= <- <-] Ht; now rewrite Ht);
    try (intros ? [= ]); try (intros ? ? [= ]);
    try (intros [Hn|(w' & [= <-] & Ht)]; [discriminate|now rewrite Ht]);
    try (intros [Hn|(mn' & mx' & [= <- <-] & Ht)]; [discriminate|now rewrite Ht]);
    try (intros [_|(w' & [= ] & _)]; reflexivity);
    try (intros [_|(mn' & mx' & [= ] & _)]; reflexivity).
Qed.

(** C4, as amended: the layout-keyed odds extractor returns one record per
    horse number of the win map or of the place map, in strictly ascending
    order of horse number.  Each record is built from the entries of its
    number, an entry that is absent or zero counting as missing: [winOdds]
    is the win entry when there is one and it is not zero, and
    [defaultOdds] otherwise; [placeOddsMin] (resp. [placeOddsMax]) is the
    minimum (resp. maximum) of the place entry when there is one and the
    value is not zero, and the record's [winOdds / 3] (resp. [winOdds / 2])
    otherwise. *)
Theorem C4_odds_cover_the_union_sorted_with_fallbacks :
  forall (cfg : ParserConfig) (text : jsstring),
    exists l,
      Layout.parseOdds cfg text = Return (mkParseResult true (Some l) [] [])
      /\ (forall h, In h (map horseNumber l) <->
                    In h (JsMap.keys (Layout.winOddsData (Layout.scanOdds text)))
                    \/ In h (JsMap.keys
                               (Layout.placeOddsData (Layout.scanOdds text))))
      /\ StronglySorted N.lt (map horseNumber l)
      /\ (forall r, In r l ->
            (forall w,
               JsMap.get (horseNumber r)
                 (Layout.winOddsData (Layout.scanOdds text)) = Some w ->
               JsNumber.truthy w = true -> winOdds r = w)
            /\ (JsMap.get (horseNumber r)
                  (Layout.winOddsData (Layout.scanOdds text)) = None
                \/ (exists w,
                      JsMap.get (horseNumber r)
                        (Layout.winOddsData (Layout.scanOdds text)) = Some w
                      /\ JsNumber.truthy w = false) ->
                winOdds r = defaultOdds cfg)
            /\ (forall mn mx,
                  JsMap.get (horseNumber r)
                    (Layout.placeOddsData (Layout.scanOdds text))
                  = Some (mn, mx) ->
                  JsNumber.truthy mn = true -> placeOddsMin r = mn)
            /\ (forall mn mx,
                  JsMap.get (horseNumber r)
                    (Layout.placeOddsData (Layout.scanOdds text))
                  = Some (mn, mx) ->
                  JsNumber.truthy mx = true -> placeOddsMax r = mx)
            /\ (JsMap.get (horseNumber r)
                  (Layout.placeOddsData (Layout.scanOdds text)) = None
                \/ (exists mn mx,
                      JsMap.get (horseNumber r)
                        (Layout.placeOddsData (Layout.scanOdds text))
                      = Some (mn, mx)
                      /\ JsNumber.truthy mn = false) ->
                placeOddsMin r = JsNumber.div (winOdds r) 3)
            /\ (JsMap.get (horseNumber r)
                  (Layout.placeOddsData (Layout.scanOdds text)) = None
                \/ (exists mn mx,
                      JsMap.get (horseNumber r)
                        (Layout.placeOddsData (Layout.scanOdds text))
                      = Some (mn, mx)
                      /\ JsNumber.truthy mx = false) ->
                placeOddsMax r = JsNumber.div (winOdds r) 2)).
Proof.
  intros cfg text.
  destruct (layout_odds_records cfg text) as (l & Hret & Hrec).
  exists l. split; [exact Hret|].
  destruct (layout_odds_union_sorted Hret) as (Hunion & Hsorted).
  split; [exact Hunion|]. split; [exact Hsorted|].
  intros r Hr.
  pose proof (combine_fields cfg (Layout.scanOdds text) (horseNumber r)) as Hf.
  cbn zeta in Hf. rewrite <- (Hrec r Hr) in Hf. exact Hf.
Qed.

(** C4, as stated, fails.  In [Samples.zeroWin] horse 1 is present only in
    the win section, with the win odds 0: its record does not carry these
    win odds but [defaultOdds], and its place odds are a third and a half
    of [defaultOdds], not of the win odds read. *)
Lemma C4_zero_win_odds_count_as_missing :
  JsMap.get 1%N (Layout.winOddsData (Layout.scanOdds Samples.zeroWin))
    = Some (JsNumber.Finite 0)
  /\ JsMap.get 1%N (Layout.placeOddsData (Layout.scanOdds Samples.zeroWin))
     = None
  /\ exists r,
       Layout.parseOdds defaultConfig Samples.zeroWin
         = Return (mkParseResult true (Some [r]) [] [])
       /\ horseNumber r = 1%N
       /\ winOdds r = defaultOdds defaultConfig
       /\ winOdds r <> JsNumber.Finite 0
       /\ placeOddsMin r <> JsNumber.div (JsNumber.Finite 0) 3
       /\ placeOddsMax r <> JsNumber.div (JsNumber.Finite 0) 2.
Proof.
  split; [vm_compute; reflexivity|]. split; [vm_compute; reflexivity|].
  eexists. split; [vm_compute; reflexivity|].
  cbn [horseNumber winOdds placeOddsMin placeOddsMax].
  split; [reflexivity|]. split; [vm_compute; reflexivity|].
  repeat split; vm_compute; discriminate.
Qed.

(** The scenario of the specification: win odds for horses 1 to 8 (listed
    out of order), place odds for horses 1 to 4 only. *)
Example win_eight_place_four :
  exists l,
    Layout.parseOdds defaultConfig Samples.winEightPlaceFour
      = Return (mkParseResult true (Some l) [] [])
    /\ map horseNumber l = [1; 2; 3; 4; 5; 6; 7; 8]%N
    /\ map winOdds (skipn 4 l)
       = map JsNumber.round64 [15.2; 2.1; 4.5; 6.7]%Q
    /\ map placeOddsMin (skipn 4 l)
       = map (fun q => JsNumber.div (JsNumber.round64 q) 3)
             [15.2; 2.1; 4.5; 6.7]%Q
    /\ map placeOddsMax (skipn 4 l)
       = map (fun q => JsNumber.div (JsNumber.round64 q) 2)
             [15.2; 2.1; 4.5; 6.7]%Q.
Proof.
  eexists. split; [vm_compute; reflexivity|].
  repeat split; vm_compute; reflexivity.
Qed.

(** The quotient is rounded: [15.2 / 3] is the Number value whose shortest
    decimal numeral is [5.066666666666666]. *)
Example rounded_quotient :
  JsNumber.div (JsNumber.parseFloat (js "15.2")) 3
  = JsNumber.parseFloat (js "5.066666666666666")
  /\ JsNumber.div (JsNumber.parseFloat (js "15.2")) 3
     <> JsNumber.Finite (76 # 15).
Proof. split; [vm_compute; reflexivity|vm_compute; discriminate]. Qed.

(** ** Odds: bounds *)

Lemma parseFloat_nonneg (s : jsstring) : nonneg (JsNumber.parseFloat s).
Proof.
  unfold nonneg, JsNumber.parseFloat.
  destruct (JsNumber.drop_digits s) as [|c s']; [|destruct (c =? 46)%N];
    apply Binary64.round64_nonneg; unfold Qle; cbn; lia.
Qed.

Lemma or_else_nonneg (a b : JsNumber.float64) :
  nonneg a -> nonneg b -> nonneg (JsNumber.or_else a b).
Proof. unfold JsNumber.or_else. now destruct (JsNumber.truthy a). Qed.

Lemma JsMap_set_Forall (V : Type) (P : N * V -> Prop) (k : N) (v : V)
    (m : JsMap.t V) :
  P (k, v) -> Forall P m -> Forall P (JsMap.set k v m).
Proof.
  intros Hkv. induction 1 as [|[k' v'] m Hhd Htl IH]; cbn.
  - now repeat constructor.
  - destruct (k =? k')%N; now constructor.
Qed.

Lemma layout_oddsLoop_nonneg (n : nat) :
  forall (lines : list jsstring) (st : Layout.oddsState),
    (List.length lines <= n)%nat ->
    nonneg_maps st -> nonneg_maps (Layout.oddsLoop lines st).
Proof.
  induction n as [|n IH]; intros lines st Hlen Hinv.
  - destruct lines; [exact Hinv|cbn in Hlen; lia].
  - destruct lines as [|raw rest]; [exact Hinv|].
    cbn in Hlen. cbn [Layout.oddsLoop].
    assert (Hrest : nonneg_maps (Layout.oddsLoop rest st)).
    { apply IH; [lia|exact Hinv]. }
    destruct (negb _); [exact Hrest|].
    destruct (is_lit _ "単勝").
    { apply IH; [lia|]. exact Hinv. }
    destruct (is_lit _ "複勝").
    { apply IH; [lia|]. exact Hinv. }
    destruct (Layout.isHeaderLine _); [exact Hrest|].
    destruct (Regex.exec Layout.frameHorseLine _) as [fm|]; [|exact Hrest].
    destruct rest as [|next rest']; [exact Hrest|].
    cbn in Hlen.
    destruct (Layout.currentSection st); [exact Hrest| |].
    + destruct (Regex.exec Layout.winLine _) as [wm|]; [|exact Hrest].
      apply IH; [lia|]. destruct Hinv as (Hw & Hp). split; [|exact Hp].
      cbn [Layout.winOddsData]. apply JsMap_set_Forall; [|exact Hw].
      apply parseFloat_nonneg.
    + destruct (Regex.exec Layout.placeLine _) as [pm|]; [|exact Hrest].
      apply IH; [lia|]. destruct Hinv as (Hw & Hp). split; [exact Hw|].
      cbn [Layout.placeOddsData]. apply JsMap_set_Forall; [|exact Hp].
      split; apply parseFloat_nonneg.
Qed.

Lemma scanOdds_nonneg (text : jsstring) : nonneg_maps (Layout.scanOdds text).
Proof.
  unfold Layout.scanOdds.
  apply (layout_oddsLoop_nonneg (n := List.length (Common.nonblank_lines text)));
    [lia|]. split; constructor.
Qed.

Lemma combine_nonneg cfg st h :
  nonneg (defaultOdds cfg) -> nonneg_maps st ->
  let r := Layout.combine cfg st h in
  nonneg (winOdds r) /\ nonneg (placeOddsMin r) /\ nonneg (placeOddsMax r).
Proof.
  intros Hdef (Hw & Hp). cbn zeta. unfold Layout.combine.
  cbn [winOdds placeOddsMin placeOddsMax].
  set (w := match JsMap.get h (Layout.winOddsData st) with
            | Some w0 => JsNumber.or_else w0 (defaultOdds cfg)
            | None => defaultOdds cfg
            end).
  assert (Hwn : nonneg w).
  { unfold w. destruct (JsMap.get h (Layout.winOddsData st)) as [w0|] eqn:Hget;
      [|exact Hdef].
    apply or_else_nonneg; [|exact Hdef].
    apply JsMap_get_In in Hget. rewrite Forall_forall in Hw.
    exact (Hw _ Hget). }
  split; [exact Hwn|].
  destruct (JsMap.get h (Layout.placeOddsData st)) as [[mn mx]|] eqn:Hget.
  - apply JsMap_get_In in Hget. rewrite Forall_forall in Hp.
    destruct (Hp _ Hget) as (Hmn & Hmx). cbn [fst snd] in Hmn, Hmx.
    split; apply or_else_nonneg; auto; now apply Binary64.div_nonneg.
  - split; now apply Binary64.div_nonneg.
Qed.

(** Where both place values of a record are approximated. *)
Lemma combine_approximated cfg st h :
  match JsMap.get h (Layout.placeOddsData st) with
  | Some (mn, mx) => JsNumber.truthy mn = false /\ JsNumber.truthy mx = false
  | None => True
  end ->
  let r := Layout.combine cfg st h in
  placeOddsMin r = JsNumber.div (winOdds r) 3
  /\ placeOddsMax r = JsNumber.div (winOdds r) 2.
Proof.
  cbn zeta. unfold Layout.combine. cbn [winOdds placeOddsMin placeOddsMax].
  destruct (JsMap.get h (Layout.placeOddsData st)) as [[mn mx]|];
    [|split; reflexivity].
  intros (Hmn & Hmx). unfold JsNumber.or_else. rewrite Hmn, Hmx.
  split; reflexivity.
Qed.

Lemma parseOddsLine_nonneg (line : jsstring) (n : nat) (r : OddsData) :
  Common.parseOddsLine line n = Return r ->
  nonneg (winOdds r) /\ nonneg (placeOddsMin r) /\ nonneg (placeOddsMax r)
  /\ (Regex.exec Common.oddsLinePattern line = None ->
      placeOddsMin r = JsNumber.div (winOdds r) 3
      /\ placeOddsMax r = JsNumber.div (winOdds r) 2
      /\ JsNumber.leb (placeOddsMin r) (placeOddsMax r) = true).
Proof.
  unfold Common.parseOddsLine.
  destruct (Regex.exec Common.oddsLinePattern line) as [m|].
  - intros [= <-]. cbn [winOdds placeOddsMin placeOddsMax].
    split; [apply parseFloat_nonneg|]. split; [apply parseFloat_nonneg|].
    split; [apply parseFloat_nonneg|discriminate].
  - destruct (Regex.exec Common.oddsSimplePattern line) as [m|]; [|discriminate].
    intros [= <-]. cbn [winOdds placeOddsMin placeOddsMax].
    pose proof (parseFloat_nonneg (Regex.group_str m 2)) as Hw.
    split; [exact Hw|].
    split; [now apply Binary64.div_nonneg|].
    split; [now apply Binary64.div_nonneg|].
    intros _. split; [reflexivity|]. split; [reflexivity|].
    now apply Binary64.third_le_half.
Qed.

Lemma legacy_oddsLoop_lines (lines : list jsstring) :
  forall (i : nat) (acc : list OddsData) (W : list jsstring) (r : OddsData),
    In r (fst (Legacy.oddsLoop lines i acc W)) ->
    In r acc
    \/ exists raw n,
         In raw lines /\ Common.parseOddsLine (JsString.trim raw) n = Return r.
Proof.
  induction lines as [|raw rest IH]; intros i acc W r; cbn [Legacy.oddsLoop].
  - cbn. tauto.
  - assert (Hrest : forall i' acc' W',
              In r (fst (Legacy.oddsLoop rest i' acc' W')) ->
              In r acc'
              \/ exists raw' n,
                   In raw' (raw :: rest)
                   /\ Common.parseOddsLine (JsString.trim raw') n = Return r).
    { intros i' acc' W' Hin. apply IH in Hin.
      destruct Hin as [Hin|(raw' & n & Hraw & Hn)]; [now left|right].
      exists raw', n. split; [now right|exact Hn]. }
    destruct (negb _); [apply Hrest|].
    destruct (Common.parseOddsLine (JsString.trim raw) (i + 1)) as [odds|error] eqn:Hp.
    + intros Hin. apply Hrest in Hin. destruct Hin as [Hin|Hin]; [|now right].
      apply in_app_iff in Hin. destruct Hin as [Hin|[<-|[]]]; [now left|].
      right. exists raw, (i + 1)%nat. split; [now left|exact Hp].
    + apply Hrest.
Qed.

(** C8, as amended: provided [defaultOdds] is not negative, every record
    returned by the odds extractors has [winOdds >= 0], [placeOddsMin >= 0]
    and [placeOddsMax >= 0], and [placeOddsMax >= placeOddsMin] holds when
    both place values are approximated from the record's win odds, as
    [winOdds / 3] and [winOdds / 2]: in the layout-keyed variant for a horse
    with no place entry or with a place entry whose two values are zero, in
    the line-keyed variant for a line without a place range. *)
Theorem C8_odds_non_negative_and_approximations_ordered :
  forall (cfg : ParserConfig) (text : jsstring),
    nonneg (defaultOdds cfg) ->
    (exists l,
        Layout.parseOdds cfg text = Return (mkParseResult true (Some l) [] [])
        /\ forall r, In r l ->
             nonneg (winOdds r) /\ nonneg (placeOddsMin r)
             /\ nonneg (placeOddsMax r)
             /\ (match JsMap.get (horseNumber r)
                         (Layout.placeOddsData (Layout.scanOdds text)) with
                 | Some (mn, mx) =>
                     JsNumber.truthy mn = false /\ JsNumber.truthy mx = false
                 | None => True
                 end ->
                 placeOddsMin r = JsNumber.div (winOdds r) 3
                 /\ placeOddsMax r = JsNumber.div (winOdds r) 2
                 /\ JsNumber.leb (placeOddsMin r) (placeOddsMax r) = true))
    /\ (exists l w,
        Legacy.parseOdds cfg text = Return (mkParseResult true (Some l) [] w)
        /\ forall r, In r l ->
             exists raw n,
               In raw (Common.nonblank_lines text)
               /\ Common.parseOddsLine (JsString.trim raw) n = Return r
               /\ nonneg (winOdds r) /\ nonneg (placeOddsMin r)
               /\ nonneg (placeOddsMax r)
               /\ (Regex.exec Common.oddsLinePattern (JsString.trim raw) = None ->
                   placeOddsMin r = JsNumber.div (winOdds r) 3
                   /\ placeOddsMax r = JsNumber.div (winOdds r) 2
                   /\ JsNumber.leb (placeOddsMin r) (placeOddsMax r) = true)).
Proof.
  intros cfg text Hdef. split.
  - destruct (layout_odds_records cfg text) as (l & Hret & Hrec).
    exists l. split; [exact Hret|]. intros r Hr.
    pose proof (Hrec r Hr) as Heq.
    destruct (@combine_nonneg cfg (Layout.scanOdds text) (horseNumber r) Hdef
                (scanOdds_nonneg text)) as (Hw & Hmn & Hmx).
    rewrite <- Heq in Hw, Hmn, Hmx.
    split; [exact Hw|]. split; [exact Hmn|]. split; [exact Hmx|].
    intros Happrox.
    destruct (@combine_approximated cfg (Layout.scanOdds text) (horseNumber r)
                Happrox) as (Emn & Emx).
    rewrite <- Heq in Emn, Emx.
    split; [exact Emn|]. split; [exact Emx|].
    rewrite Emn, Emx. now apply Binary64.third_le_half.
  - unfold Legacy.parseOdds, Legacy.parseOddsBody. cbn [try_catch].
    destruct (Legacy.oddsLoop (Common.nonblank_lines text) 0 [] []) as [l w] eqn:Hloop.
    exists l, w. split; [reflexivity|]. intros r Hr.
    pose proof (legacy_oddsLoop_lines (Common.nonblank_lines text) 0 [] [] r) as Hl.
    rewrite Hloop in Hl. destruct (Hl Hr) as [[]|(raw & n & Hraw & Hline)].
    exists raw, n. split; [exact Hraw|]. split; [exact Hline|].
    destruct (parseOddsLine_nonneg _ _ Hline) as (Hw & Hmn & Hmx & Happrox).
    repeat split; auto; now apply Happrox.
Qed.

(** The statement at the default configuration, whose [defaultOdds] is 99.9. *)
Lemma C8_odds_non_negative_and_approximations_ordered_witness :
  nonneg (defaultOdds defaultConfig)
  /\ ((exists l,
        Layout.parseOdds defaultConfig Samples.winEightPlaceFour
          = Return (mkParseResult true (Some l) [] [])
        /\ forall r, In r l ->
             nonneg (winOdds r) /\ nonneg (placeOddsMin r)
             /\ nonneg (placeOddsMax r)
             /\ (match JsMap.get (horseNumber r)
                         (Layout.placeOddsData
                            (Layout.scanOdds Samples.winEightPlaceFour)) with
                 | Some (mn, mx) =>
                     JsNumber.truthy mn = false /\ JsNumber.truthy mx = false
                 | None => True
                 end ->
                 placeOddsMin r = JsNumber.div (winOdds r) 3
                 /\ placeOddsMax r = JsNumber.div (winOdds r) 2
                 /\ JsNumber.leb (placeOddsMin r) (placeOddsMax r) = true))
      /\ (exists l w,
        Legacy.parseOdds defaultConfig Samples.winEightPlaceFour
          = Return (mkParseResult true (Some l) [] w)
        /\ forall r, In r l ->
             exists raw n,
               In raw (Common.nonblank_lines Samples.winEightPlaceFour)
               /\ Common.parseOddsLine (JsString.trim raw) n = Return r
               /\ nonneg (winOdds r) /\ nonneg (placeOddsMin r)
               /\ nonneg (placeOddsMax r)
               /\ (Regex.exec Common.oddsLinePattern (JsString.trim raw) = None ->
                   placeOddsMin r = JsNumber.div (winOdds r) 3
                   /\ placeOddsMax r = JsNumber.div (winOdds r) 2
                   /\ JsNumber.leb (placeOddsMin r) (placeOddsMax r) = true))).
Proof.
  assert (Hdef : nonneg (defaultOdds defaultConfig)) by (vm_compute; reflexivity).
  split; [exact Hdef|].
  apply (C8_odds_non_negative_and_approximations_ordered defaultConfig
           Samples.winEightPlaceFour Hdef).
Defined.

(** C8, as stated, fails: odds written below 1.0 and a place range written
    in the wrong order are returned as they are, by both variants. *)
Lemma C8_parsed_odds_are_neither_bounded_nor_ordered :
  (exists r,
      Layout.parseOdds defaultConfig Samples.invertedPlace
        = Return (mkParseResult true (Some [r]) [] [])
      /\ JsNumber.leb (placeOddsMin r) (placeOddsMax r) = false
      /\ JsNumber.leb (JsNumber.Finite 1) (placeOddsMin r) = false
      /\ JsNumber.leb (JsNumber.Finite 1) (winOdds r) = false)
  /\ (exists r,
      Legacy.parseOdds defaultConfig Samples.invertedLine
        = Return (mkParseResult true (Some [r]) [] [])
      /\ JsNumber.leb (placeOddsMin r) (placeOddsMax r) = false
      /\ JsNumber.leb (JsNumber.Finite 1) (placeOddsMin r) = false
      /\ JsNumber.leb (JsNumber.Finite 1) (winOdds r) = false).
Proof.
  split; eexists; (split; [vm_compute; reflexivity|]);
    repeat split; vm_compute; reflexivity.
Qed.

(** Where only one place value is approximated the range need not be
    ordered: with the win odds 3 and the place range written [5 - 0], the
    minimum 5 is kept and the maximum is [3 / 2]. *)
Example half_approximated_range_is_unordered :
  exists r,
    Layout.parseOdds defaultConfig Samples.halfZeroPlace
      = Return (mkParseResult true (Some [r]) [] [])
    /\ placeOddsMin r = JsNumber.Finite 5
    /\ placeOddsMax r = JsNumber.Finite (3 # 2)
    /\ JsNumber.leb (placeOddsMin r) (placeOddsMax r) = false.
Proof.
  eexists. split; [vm_compute; reflexivity|].
  repeat split; vm_compute; reflexivity.
Qed.

(** ** Odds: warnings *)

(** C7, at the failing input: in the layout-keyed variant a marker line
    whose data line carries no odds is dropped and the result has no
    warning. *)
Lemma C7_layout_unparsable_pair_leaves_no_warning :
  Layout.parseOdds defaultConfig Samples.brokenPair
    = Return (mkParseResult true (Some []) [] []).
Proof. vm_compute. reflexivity. Qed.

(** The layout-keyed odds extractor is always successful and never records
    a warning or an error. *)
Lemma layout_parseOdds_records_no_diagnostic (cfg : ParserConfig) (text : jsstring) :
  exists l, Layout.parseOdds cfg text = Return (mkParseResult true (Some l) [] []).
Proof. eexists. reflexivity. Qed.

Lemma legacy_oddsLoop_counts (lines : list jsstring) :
  Forall (fun line => JsString.truthy (JsString.trim line) = true) lines ->
  forall (i : nat) (acc : list OddsData) (W : list jsstring),
    let '(l, w) := Legacy.oddsLoop lines i acc W in
    (List.length l + List.length w
     = List.length acc + List.length W + List.length lines)%nat.
Proof.
  induction 1 as [|raw rest Hraw Hrest IH]; intros i acc W; cbn [Legacy.oddsLoop].
  - cbn. lia.
  - rewrite Hraw. cbn [negb].
    destruct (Common.parseOddsLine (JsString.trim raw) (i + 1)) as [odds|error].
    + specialize (IH (S i) (acc ++ [odds]) W).
      destruct (Legacy.oddsLoop rest (S i) (acc ++ [odds]) W) as [l w].
      rewrite length_app in IH. cbn in *. lia.
    + specialize (IH (S i) acc (W ++ [Legacy.oddsLineWarning i error])).
      destruct (Legacy.oddsLoop rest (S i) acc _) as [l w].
      rewrite length_app in IH. cbn in *. lia.
Qed.

(** The line-keyed odds extractor is always successful, records no error,
    and accounts for every non-blank line by a record or by a warning. *)
Lemma legacy_parseOdds_warns_per_unparsable_line (cfg : ParserConfig)
    (text : jsstring) :
  exists l w,
    Legacy.parseOdds cfg text = Return (mkParseResult true (Some l) [] w)
    /\ (List.length l + List.length w
        = List.length (Common.nonblank_lines text))%nat.
Proof.
  unfold Legacy.parseOdds, Legacy.parseOddsBody. cbn [try_catch].
  pose proof (legacy_oddsLoop_counts (nonblank_lines_nonblank text) 0 [] []) as Hc.
  destruct (Legacy.oddsLoop (Common.nonblank_lines text) 0 [] []) as [l w].
  exists l, w. split; [reflexivity|]. cbn in Hc. lia.
Qed.

Example legacy_invalid_odds_data_warns :
  summary (Legacy.parseOdds defaultConfig Samples.invalidOddsData)
    = Some (true, Some 1, 0, 2)%nat.
Proof. vm_compute. reflexivity. Qed.

(** ** Duplicate horse numbers *)

Lemma failures_type mkError (os : list Roster.fragment_outcome) :
  (forall i e f, type (mkError i e f) = HORSE_DATA) ->
  Forall (fun e => type e = HORSE_DATA) (Roster.failures mkError os).
Proof.
  intros Hty. induction os as [|[[i f] [h|e]] os IH]; cbn; auto.
Qed.

Lemma policy_error_types cfg text mkError os r :
  (forall i e f, type (mkError i e f) = HORSE_DATA) ->
  Roster.policy cfg text mkError os r ->
  Forall (fun e => type e = HORSE_DATA) (errors r).
Proof.
  intros Hty (_ & _ & Hpol).
  assert (Hno : Forall (fun e => type e = HORSE_DATA)
                       (Roster.noHorse text (Roster.records os))).
  { unfold Roster.noHorse. destruct (Roster.records os); repeat constructor. }
  destruct (skipInvalidHorses cfg); destruct Hpol as (-> & _); [exact Hno|].
  apply Forall_app. split; [now apply failures_type|exact Hno].
Qed.

Lemma validateParsedData_fields (v : JsValue) (e : ValidationError) :
  In e (v_errors (Common.validateParsedData v)) ->
  v_field e = js "data" \/ v_field e = js "venue"
  \/ v_field e = js "distance" \/ v_field e = js "raceNumber".
Proof.
  unfold Common.validateParsedData.
  destruct (negb (JsObject.truthy v) || negb (JsObject.is_object v)).
  - cbn. intros [<-|[]]. now left.
  - cbn [v_errors]. rewrite !in_app_iff.
    intros [Hin|[Hin|Hin]].
    + destruct (JsObject.get "venue" v) as [[]|]; try contradiction.
      destruct (_ || _); [|contradiction].
      destruct Hin as [<-|[]]. right. now left.
    + destruct (JsObject.get "distance" v) as [[]|]; try contradiction.
      destruct (_ || _); [|contradiction].
      destruct Hin as [<-|[]]. right. right. now left.
    + destruct (JsObject.get "raceNumber" v) as [[]|]; try contradiction.
      destruct (_ || _); [|contradiction].
      destruct Hin as [<-|[]]. right. right. now right.
Qed.

(** C9, as amended: the roster result keeps one record per fragment whose
    extraction succeeds, in order of appearance, whatever the horse numbers
    (two fragments with the same number give two records); every error of
    the roster extractor has type [HORSE_DATA], none has type [VALIDATION];
    and [validateParsedData], whose errors bear on [data], [venue],
    [distance] or [raceNumber] only, accepts every roster. *)
Theorem C9_roster_keeps_every_record_without_validation :
  forall (cfg : ParserConfig) (text : jsstring),
    (exists r,
        Layout.parseHorseDataInternal cfg text = Return r
        /\ data r = Some (Roster.records (layoutFragments text))
        /\ Forall (fun e => type e = HORSE_DATA) (errors r))
    /\ (exists r,
        Legacy.parseHorseDataInternal cfg text = Return r
        /\ data r = Some (Roster.records (legacyFragments text))
        /\ Forall (fun e => type e = HORSE_DATA) (errors r))
    /\ (forall horses,
        Common.validateParsedData (Common.rosterValue horses)
          = mkValidationResult true [])
    /\ (forall v e,
        In e (v_errors (Common.validateParsedData v)) ->
        v_field e = js "data" \/ v_field e = js "venue"
        \/ v_field e = js "distance" \/ v_field e = js "raceNumber").
Proof.
  intros cfg text. split; [|split; [|split]].
  - exists (Layout.parseHorseDataInternalBody cfg text).
    pose proof (layout_policy cfg text) as Hpol.
    split; [reflexivity|]. split; [apply Hpol|].
    apply (policy_error_types (mkError := Layout.blockError)) with (2 := Hpol).
    reflexivity.
  - exists (Legacy.parseHorseDataInternalBody cfg text).
    pose proof (legacy_policy cfg text) as Hpol.
    split; [reflexivity|]. split; [apply Hpol|].
    apply (policy_error_types (mkError := Legacy.lineError)) with (2 := Hpol).
    reflexivity.
  - intros horses. reflexivity.
  - exact validateParsedData_fields.
Qed.

(** C9, as stated, fails: two fragments carrying the same horse number give
    two records with that number, a successful result and no diagnostic at
    all, in both variants, and [validateParsedData] accepts the roster. *)
Lemma C9_duplicate_numbers_are_kept_silently :
  (exists r horses,
      Layout.parseHorseDataInternal defaultConfig Samples.duplicateFragments
        = Return r
      /\ data r = Some horses
      /\ map number horses = [4; 4]%N
      /\ success r = true /\ errors r = [] /\ warnings r = []
      /\ isValid (Common.validateParsedData (Common.rosterValue horses)) = true)
  /\ (exists r horses,
      Legacy.parseHorseDataInternal defaultConfig Samples.duplicateLines
        = Return r
      /\ data r = Some horses
      /\ map number horses = [4; 4]%N
      /\ success r = true /\ errors r = [] /\ warnings r = []
      /\ isValid (Common.validateParsedData (Common.rosterValue horses)) = true).
Proof.
  split; do 2 eexists; (split; [vm_compute; reflexivity|]);
    (split; [reflexivity|]); repeat split.
Qed.

(** ** Undeclared identifiers in the layout-keyed roster extractor *)

Lemma parseHorseBlock_throws_on_odds_or_weight (block : jsstring) (n : nat) :
  existsb (Regex.test Layout.oddsPattern) (JsString.split_lines block) = true
  \/ existsb (Regex.test Layout.weightPattern) (JsString.split_lines block) = true ->
  throws (Layout.parseHorseBlock block n).
Proof.
  intros Hline. unfold Layout.parseHorseBlock. cbn zeta.
  destruct (Regex.exec Layout.frameHorseHead _); [|eexists; reflexivity].
  destruct (negb _); [eexists; reflexivity|].
  destruct (existsb (Regex.test Layout.oddsPattern) _) eqn:Hodds;
    [eexists; reflexivity|].
  destruct Hline as [Hline|Hline]; [discriminate|]. rewrite Hline.
  destruct (Layout.firstMatch Layout.genderAgeColorPattern _);
    eexists; reflexivity.
Qed.

Lemma outcomesFrom_nth parse (frags : list jsstring) :
  forall (k i : nat) (f : jsstring),
    nth_error frags i = Some f ->
    nth_error (Roster.outcomesFrom parse k frags) i
      = Some ((k + i)%nat, f, parse f (k + i + 1)%nat).
Proof.
  induction frags as [|g frags IH]; intros k i f; destruct i as [|i]; cbn;
    try discriminate.
  - intros [= ->]. now rewrite Nat.add_0_r.
  - intros Hnth. rewrite (IH (S k) i f Hnth).
    now replace (S k + i)%nat with (k + S i)%nat by lia.
Qed.

Lemma failures_In mkError (os : list Roster.fragment_outcome) i f e :
  In (i, f, Throw e) os -> In (mkError i e f) (Roster.failures mkError os).
Proof.
  induction os as [|[[j g] [h|e']] os IH]; cbn; [tauto| |].
  - intros [Heq|Hin]; [discriminate|auto].
  - intros [Heq|Hin]; [injection Heq as -> -> ->; now left|right; auto].
Qed.

Lemma records_length (os : list Roster.fragment_outcome) :
  (List.length (Roster.records os) <= List.length os)%nat.
Proof.
  induction os as [|[[j g] [h|e']] os IH]; cbn; lia.
Qed.

Lemma records_length_strict (os : list Roster.fragment_outcome) i f e :
  In (i, f, Throw e) os ->
  (List.length (Roster.records os) < List.length os)%nat.
Proof.
  induction os as [|[[j g] [h|e']] os IH]; cbn; [tauto| |].
  - intros [Heq|Hin]; [discriminate|]. specialize (IH Hin). lia.
  - intros _. pose proof (records_length os). lia.
Qed.

Lemma outcomesFrom_length parse (frags : list jsstring) :
  forall k, List.length (Roster.outcomesFrom parse k frags) = List.length frags.
Proof.
  induction frags as [|g frags IH]; intros k; cbn; [reflexivity|].
  now rewrite IH.
Qed.

(** Past the marker and name checks, what is thrown is the
    [ReferenceError] of the assignment. *)
Lemma parseHorseBlock_reference_error (block : jsstring) (n : nat) (e : thrown) :
  Layout.parseHorseBlock block n = Throw e ->
  (exists m, e = ReferenceError m)
  \/ Regex.exec Layout.frameHorseHead (hd [] (JsString.split_lines block)) = None
  \/ filter Layout.isNameCandidate
       (map JsString.trim (firstn 4 (skipn 2 (JsString.split_lines block)))) = [].
Proof.
  unfold Layout.parseHorseBlock. cbn zeta.
  destruct (Regex.exec Layout.frameHorseHead _); [|now right; left].
  destruct (filter Layout.isNameCandidate _) as [|c1 [|c2 cs]] eqn:Hc.
  - now right; right.
  - destruct (negb (JsString.truthy c1)) eqn:Ht.
    + intros _. exfalso.
      assert (Hin : In c1 (filter Layout.isNameCandidate
                             (map JsString.trim
                                (firstn 4 (skipn 2 (JsString.split_lines block))))))
        by (rewrite Hc; now left).
      apply filter_In in Hin. destruct Hin as (_ & Hcand).
      unfold Layout.isNameCandidate in Hcand.
      apply andb_prop in Hcand. destruct Hcand as (Hcand & _).
      apply andb_prop in Hcand. destruct Hcand as (Htr & _).
      rewrite Htr in Ht. discriminate.
    + destruct (existsb (Regex.test Layout.oddsPattern) _);
        [intros [= <-]; left; eauto|].
      destruct (Layout.firstMatch Layout.genderAgeColorPattern _);
        (destruct (existsb (Regex.test Layout.weightPattern) _);
         [intros [= <-]; left; eauto|]);
        destruct (Layout.scanJockey _ _); discriminate.
  - destruct (negb (JsString.truthy c2)) eqn:Ht.
    + intros _. exfalso.
      assert (Hin : In c2 (filter Layout.isNameCandidate
                             (map JsString.trim
                                (firstn 4 (skipn 2 (JsString.split_lines block))))))
        by (rewrite Hc; right; now left).
      apply filter_In in Hin. destruct Hin as (_ & Hcand).
      unfold Layout.isNameCandidate in Hcand.
      apply andb_prop in Hcand. destruct Hcand as (Hcand & _).
      apply andb_prop in Hcand. destruct Hcand as (Htr & _).
      rewrite Htr in Ht. discriminate.
    + destruct (existsb (Regex.test Layout.oddsPattern) _);
        [intros [= <-]; left; eauto|].
      destruct (Layout.firstMatch Layout.genderAgeColorPattern _);
        (destruct (existsb (Regex.test Layout.weightPattern) _);
         [intros [= <-]; left; eauto|]);
        destruct (Layout.scanJockey _ _); discriminate.
Qed.

(** C10: in the layout-keyed roster extractor, a fragment with a line that
    matches the popularity-odds pattern or the body-weight pattern makes
    [parseHorseBlock] throw; the fragment contributes no record to the
    roster result, and is reported by a warning when [skipInvalidHorses] is
    on (and by no error), by an error otherwise. *)
Theorem C10_popularity_or_body_weight_line_fails_the_fragment :
  forall (cfg : ParserConfig) (text : jsstring) (i : nat) (block line : jsstring),
    nth_error (Layout.splitIntoHorseBlocks text) i = Some block ->
    In line (JsString.split_lines block) ->
    Regex.test Layout.oddsPattern line = true
    \/ Regex.test Layout.weightPattern line = true ->
    exists e r,
      Layout.parseHorseBlock block (i + 1) = Throw e
      /\ Layout.parseHorseDataInternal cfg text = Return r
      /\ nth_error (layoutFragments text) i = Some (i, block, Throw e)
      /\ data r = Some (Roster.records (layoutFragments text))
      /\ (List.length (Roster.records (layoutFragments text))
          < List.length (Layout.splitIntoHorseBlocks text))%nat
      /\ if skipInvalidHorses cfg
         then In (message (Layout.blockError i e block)) (warnings r)
              /\ ~ In (Layout.blockError i e block) (errors r)
         else In (Layout.blockError i e block) (errors r)
              /\ success r = false.
Proof.
  intros cfg text i block line Hnth Hline Hmatch.
  destruct (@parseHorseBlock_throws_on_odds_or_weight block (i + 1)) as (e & He).
  { destruct Hmatch as [Hm|Hm]; [left|right]; apply existsb_exists; eauto. }
  exists e, (Layout.parseHorseDataInternalBody cfg text).
  pose proof (layout_policy cfg text) as Hpol.
  assert (Hfrag : nth_error (layoutFragments text) i = Some (i, block, Throw e)).
  { unfold layoutFragments.
    rewrite (outcomesFrom_nth Layout.parseHorseBlock _ 0 i Hnth).
    cbn [Nat.add]. now rewrite He. }
  pose proof (nth_error_In _ _ Hfrag) as Hin.
  pose proof (failures_In Layout.blockError _ _ _ _ Hin) as Hfail.
  split; [exact He|]. split; [reflexivity|]. split; [exact Hfrag|].
  split; [apply Hpol|]. split.
  { pose proof (records_length_strict _ _ _ _ Hin) as Hlt.
    unfold layoutFragments in Hlt at 2. now rewrite outcomesFrom_length in Hlt. }
  destruct Hpol as (_ & Hs & Hpol).
  destruct (skipInvalidHorses cfg); destruct Hpol as (Herr & Hwarn).
  - split.
    + rewrite Hwarn. apply in_or_app. left. now apply in_map.
    + rewrite Herr. unfold Roster.noHorse.
      destruct (Roster.records (layoutFragments text)); [|intros []].
      intros [Heq|[]]. apply (f_equal field) in Heq.
      vm_compute in Heq. discriminate.
  - split.
    + rewrite Herr. apply in_or_app. now left.
    + rewrite Hs, Herr.
      destruct (Roster.failures Layout.blockError (layoutFragments text));
        [contradiction|reflexivity].
Qed.

(** The statement at the first entry of the real sample and its body-weight
    line. *)
Lemma C10_popularity_or_body_weight_line_fails_the_fragment_witness :
  nth_error (Layout.splitIntoHorseBlocks Samples.realRoster) 0
    = Some Samples.realBlock1
  /\ In (js "514kg(0)") (JsString.split_lines Samples.realBlock1)
  /\ (Regex.test Layout.oddsPattern (js "514kg(0)") = true
      \/ Regex.test Layout.weightPattern (js "514kg(0)") = true)
  /\ exists e r,
      Layout.parseHorseBlock Samples.realBlock1 (0 + 1) = Throw e
      /\ Layout.parseHorseDataInternal defaultConfig Samples.realRoster = Return r
      /\ nth_error (layoutFragments Samples.realRoster) 0
         = Some (0%nat, Samples.realBlock1, Throw e)
      /\ data r = Some (Roster.records (layoutFragments Samples.realRoster))
      /\ (List.length (Roster.records (layoutFragments Samples.realRoster))
          < List.length (Layout.splitIntoHorseBlocks Samples.realRoster))%nat
      /\ if skipInvalidHorses defaultConfig
         then In (message (Layout.blockError 0 e Samples.realBlock1)) (warnings r)
              /\ ~ In (Layout.blockError 0 e Samples.realBlock1) (errors r)
         else In (Layout.blockError 0 e Samples.realBlock1) (errors r)
              /\ success r = false.
Proof.
  assert (Hnth : nth_error (Layout.splitIntoHorseBlocks Samples.realRoster) 0
                 = Some Samples.realBlock1) by (vm_compute; reflexivity).
  assert (Hin : In (js "514kg(0)") (JsString.split_lines Samples.realBlock1)).
  { vm_compute. repeat (first [left; reflexivity | right]). }
  assert (Hm : Regex.test Layout.oddsPattern (js "514kg(0)") = true
               \/ Regex.test Layout.weightPattern (js "514kg(0)") = true).
  { right. vm_compute. reflexivity. }
  split; [exact Hnth|]. split; [exact Hin|]. split; [exact Hm|].
  exact (@C10_popularity_or_body_weight_line_fails_the_fragment
           defaultConfig Samples.realRoster 0 Samples.realBlock1 (js "514kg(0)")
           Hnth Hin Hm).
Defined.

(** The first entry of the real sample is lost to the [ReferenceError] on
    [odds], the popularity line coming before the body-weight check. *)
Example real_fragment_raises_reference_error :
  Layout.parseHorseBlock Samples.realBlock1 1
    = Throw (ReferenceError (js "odds is not defined"))
  /\ summary (Layout.parseHorseDataInternal defaultConfig Samples.realRoster)
     = Some (true, Some 1, 0, 1)%nat
  /\ summary (Layout.parseHorseDataInternal Samples.strictKeep Samples.realRoster)
     = Some (false, Some 1, 1, 0)%nat.
Proof. repeat split; vm_compute; reflexivity. Qed.

(** * Further properties *)

(** ** Accounting of the fragments *)

Lemma records_failures_length mkError (os : list Roster.fragment_outcome) :
  (List.length (Roster.records os) + List.length (Roster.failures mkError os)
   = List.length os)%nat.
Proof.
  induction os as [|[[i f] [h|e]] os IH]; cbn; lia.
Qed.

Lemma policy_accounts cfg text mkError os r :
  Roster.policy cfg text mkError os r ->
  exists horses,
    data r = Some horses
    /\ if skipInvalidHorses cfg then
         (List.length horses + List.length (warnings r)
          = List.length os
            + (if (maxHorses cfg <? Z.of_nat (List.length horses))%Z then 1 else 0))%nat
       else
         (List.length horses + List.length (errors r)
          = List.length os + (if (List.length horses =? 0)%nat then 1 else 0))%nat.
Proof.
  intros (Hd & _ & Hpol). exists (Roster.records os). split; [exact Hd|].
  pose proof (records_failures_length mkError os) as Hlen.
  destruct (skipInvalidHorses cfg); destruct Hpol as (He & Hw).
  - rewrite Hw, length_app, length_map. unfold Roster.overflow.
    destruct (maxHorses cfg <? _)%Z; cbn [List.length]; lia.
  - rewrite He, length_app. unfold Roster.noHorse.
    destruct (Roster.records os); cbn [List.length Nat.eqb] in *; lia.
Qed.

(** X1: no fragment is lost by the roster extractors.  With
    [skipInvalidHorses], the records and the warnings together count every
    fragment, plus one warning when there are more records than
    [maxHorses]; without it, the records and the errors together count every
    fragment, plus one error when there is no record.  A fragment is a block
    of [splitIntoHorseBlocks] in the layout-keyed variant and a non-blank
    line in the line-keyed one. *)
Theorem X1_roster_accounts_for_every_fragment :
  forall (cfg : ParserConfig) (text : jsstring),
    (exists r horses,
        Layout.parseHorseDataInternal cfg text = Return r
        /\ data r = Some horses
        /\ if skipInvalidHorses cfg then
             (List.length horses + List.length (warnings r)
              = List.length (Layout.splitIntoHorseBlocks text)
                + (if (maxHorses cfg <? Z.of_nat (List.length horses))%Z
                   then 1 else 0))%nat
           else
             (List.length horses + List.length (errors r)
              = List.length (Layout.splitIntoHorseBlocks text)
                + (if (List.length horses =? 0)%nat then 1 else 0))%nat)
    /\ (exists r horses,
        Legacy.parseHorseDataInternal cfg text = Return r
        /\ data r = Some horses
        /\ if skipInvalidHorses cfg then
             (List.length horses + List.length (warnings r)
              = List.length (Common.nonblank_lines text)
                + (if (maxHorses cfg <? Z.of_nat (List.length horses))%Z
                   then 1 else 0))%nat
           else
             (List.length horses + List.length (errors r)
              = List.length (Common.nonblank_lines text)
                + (if (List.length horses =? 0)%nat then 1 else 0))%nat).
Proof.
  intros cfg text. split.
  - destruct (policy_accounts (layout_policy cfg text)) as (horses & Hd & Hc).
    exists (Layout.parseHorseDataInternalBody cfg text), horses.
    split; [reflexivity|]. split; [exact Hd|].
    unfold layoutFragments in Hc. now rewrite outcomesFrom_length in Hc.
  - destruct (policy_accounts (legacy_policy cfg text)) as (horses & Hd & Hc).
    exists (Legacy.parseHorseDataInternalBody cfg text), horses.
    split; [reflexivity|]. split; [exact Hd|].
    unfold legacyFragments in Hc.
    now rewrite outcomesFrom_length, length_map in Hc.
Qed.

(** ** The public roster entry point and its caller *)

Lemma entry_point_nonempty_or_throws cfg text mkError os internal entry :
  Roster.policy cfg text mkError os
    (match internal with Return r => r | Throw _ => mkParseResult false None [] [] end) ->
  (exists r, internal = Return r) ->
  entry = bind internal Common.parseHorseDataOf ->
  match entry with
  | Return forms => forms <> []
  | Throw e =>
      if skipInvalidHorses cfg
      then e = ErrorObject (js "有効な馬データが見つかりませんでした")
      else exists m, e = ErrorObject m
  end.
Proof.
  intros Hpol (r & ->) ->. cbn [bind]. destruct Hpol as (Hd & Hs & Hpol).
  unfold Common.parseHorseDataOf. rewrite Hd, Hs.
  destruct (skipInvalidHorses cfg); destruct Hpol as (He & _); rewrite He.
  - unfold Roster.noHorse. destruct (Roster.records os) as [|h hs]; cbn.
    + reflexivity.
    + discriminate.
  - destruct (Roster.failures mkError os) as [|e es]; cbn [app].
    + unfold Roster.noHorse. destruct (Roster.records os) as [|h hs]; cbn.
      * eauto.
      * discriminate.
    + cbn. eauto.
Qed.

Lemma parseHorseData_nonempty_or_throws (cfg : ParserConfig) (text : jsstring) :
  match Layout.parseHorseData cfg text with
  | Return forms => forms <> []
  | Throw e =>
      if skipInvalidHorses cfg
      then e = ErrorObject (js "有効な馬データが見つかりませんでした")
      else exists m, e = ErrorObject m
  end
  /\ match Legacy.parseHorseData cfg text with
     | Return forms => forms <> []
     | Throw e =>
         if skipInvalidHorses cfg
         then e = ErrorObject (js "有効な馬データが見つかりませんでした")
         else exists m, e = ErrorObject m
     end.
Proof.
  split.
  - apply (@entry_point_nonempty_or_throws cfg text Layout.blockError
             (layoutFragments text) (Layout.parseHorseDataInternal cfg text)).
    + exact (layout_policy cfg text).
    + eexists. reflexivity.
    + reflexivity.
  - apply (@entry_point_nonempty_or_throws cfg text Legacy.lineError
             (legacyFragments text) (Legacy.parseHorseDataInternal cfg text)).
    + exact (legacy_policy cfg text).
    + eexists. reflexivity.
    + reflexivity.
Qed.

(** X2: the public roster entry point never returns an empty list.  In both
    variants [parseHorseData] either returns at least one record or throws
    an [Error]; with [skipInvalidHorses] the only message it can throw is the
    roster-level one, the failures of the fragments being warnings that the
    entry point drops. *)
Theorem X2_parseHorseData_returns_records_or_throws :
  forall (cfg : ParserConfig) (text : jsstring),
    match Layout.parseHorseData cfg text with
    | Return forms => forms <> []
    | Throw e =>
        if skipInvalidHorses cfg
        then e = ErrorObject (js "有効な馬データが見つかりませんでした")
        else exists m, e = ErrorObject m
    end
    /\ match Legacy.parseHorseData cfg text with
       | Return forms => forms <> []
       | Throw e =>
           if skipInvalidHorses cfg
           then e = ErrorObject (js "有効な馬データが見つかりませんでした")
           else exists m, e = ErrorObject m
       end.
Proof. exact parseHorseData_nonempty_or_throws. Qed.

Lemma step2_outcomes (parse : jsstring -> outcome (list HorseDataForm))
    (st : Step2.state) (rawData : option jsstring) :
  (forall raw,
      match parse raw with
      | Return forms => forms <> []
      | Throw e => e = ErrorObject (js "有効な馬データが見つかりませんでした")
      end) ->
  let st' := Step2.handleNetKeibaDataParse parse st rawData in
  st' = st
  \/ (exists raw forms,
        rawData = Some raw /\ parse raw = Return forms /\ forms <> []
        /\ st' = Step2.mkState forms Step2.manual None false)
  \/ st' = Step2.mkState (Step2.horses st) (Step2.activeTab st)
             (Some (js "有効な馬データが見つかりませんでした")) false.
Proof.
  intros Hparse. cbn zeta. unfold Step2.handleNetKeibaDataParse.
  destruct rawData as [raw|]; [|now left].
  destruct (negb (JsString.truthy raw)); [now left|].
  specialize (Hparse raw).
  destruct (parse raw) as [forms|e] eqn:Hp.
  - destruct forms as [|f forms]; [contradiction|].
    right. left. exists raw, (f :: forms).
    split; [reflexivity|]. split; [exact Hp|].
    split; [discriminate|reflexivity].
  - subst e. right. right. reflexivity.
Qed.

(** X3: pasting a roster in step 2 of the wizard has three possible
    outcomes, whichever parser variant is behind [NetKeibaParser]: the state
    is left as it is (no text); the form receives at least one horse, the
    error is cleared and the manual tab is shown; or the form and the tab
    are kept and the error is exactly the roster-level message of the
    parser.  The handler's own message for an empty list is never set. *)
Theorem X3_step2_paste_outcomes :
  forall (st : Step2.state) (rawData : option jsstring),
    (let st' := Step2.handleNetKeibaDataParse
                  (Layout.parseHorseData defaultConfig) st rawData in
     st' = st
     \/ (exists raw forms,
           rawData = Some raw
           /\ Layout.parseHorseData defaultConfig raw = Return forms
           /\ forms <> []
           /\ st' = Step2.mkState forms Step2.manual None false)
     \/ st' = Step2.mkState (Step2.horses st) (Step2.activeTab st)
                (Some (js "有効な馬データが見つかりませんでした")) false)
    /\ (let st' := Step2.handleNetKeibaDataParse
                     (Legacy.parseHorseData defaultConfig) st rawData in
        st' = st
        \/ (exists raw forms,
              rawData = Some raw
              /\ Legacy.parseHorseData defaultConfig raw = Return forms
              /\ forms <> []
              /\ st' = Step2.mkState forms Step2.manual None false)
        \/ st' = Step2.mkState (Step2.horses st) (Step2.activeTab st)
                   (Some (js "有効な馬データが見つかりませんでした")) false).
Proof.
  intros st rawData. split.
  - apply step2_outcomes. intros raw.
    exact (proj1 (parseHorseData_nonempty_or_throws defaultConfig raw)).
  - apply step2_outcomes. intros raw.
    exact (proj2 (parseHorseData_nonempty_or_throws defaultConfig raw)).
Qed.

Lemma layout_odds_sorted (cfg : ParserConfig) (text : jsstring) :
  exists l,
    Layout.parseOdds cfg text = Return (mkParseResult true (Some l) [] [])
    /\ StronglySorted N.lt (map horseNumber l).
Proof.
  set (st := Layout.scanOdds text).
  exists (Layout.sortByNumber
            (map (Layout.combine cfg st) (Layout.allHorseNumbers st))).
  split; [reflexivity|].
  assert (Hperm : Permutation
                    (map horseNumber
                       (Layout.sortByNumber
                          (map (Layout.combine cfg st) (Layout.allHorseNumbers st))))
                    (Layout.allHorseNumbers st)).
  { rewrite (Permutation_map horseNumber (sortByNumber_perm _)).
    now rewrite combine_numbers. }
  apply sorted_nodup_strict.
  - apply sorted_numbers, sortByNumber_sorted.
  - apply (Permutation_NoDup (Permutation_sym Hperm)).
    apply JsSet_of_list_spec.
Qed.

Lemma legacy_odds_returns (cfg : ParserConfig) (text : jsstring) :
  exists l w, Legacy.parseOdds cfg text = Return (mkParseResult true (Some l) [] w).
Proof.
  unfold Legacy.parseOdds, Legacy.parseOddsBody. cbn [try_catch].
  destruct (Legacy.oddsLoop (Common.nonblank_lines text) 0 [] []) as [l w].
  now exists l, w.
Qed.

(** X4: step 3 of the wizard reports every non-blank odds text as loaded.
    With either parser variant, a text that is blank after trimming leaves
    the form as it is and asks for a text; any other text replaces the rows
    of the form by the records of the parser, shows the success message
    with their count (which may be zero) and switches to manual input.  With
    the layout-keyed variant the rows are in strictly ascending order of
    horse number. *)
Theorem X4_step3_reports_every_text_as_loaded :
  forall (st : Step3.state) (text : jsstring),
    (let st' := Step3.handleParseNetKeibaText
                  (Layout.parseOdds defaultConfig) st text in
     if JsString.truthy (JsString.trim text) then
       exists l,
         Layout.parseOdds defaultConfig text
           = Return (mkParseResult true (Some l) [] [])
         /\ st' = Step3.mkState (map Step3.toRow l)
                    (Some (Step3.mkParseResultMessage true
                             (Step3.loadedMessage (List.length l)) (Some l)))
                    Step3.manual
         /\ StronglySorted N.lt (map row_number (Step3.horses st'))
     else
       st' = Step3.mkState (Step3.horses st)
               (Some (Step3.mkParseResultMessage false
                        (js "NetKeibaのオッズテキストを入力してください。") None))
               (Step3.method st))
    /\ (let st' := Step3.handleParseNetKeibaText
                     (Legacy.parseOdds defaultConfig) st text in
        if JsString.truthy (JsString.trim text) then
          exists l w,
            Legacy.parseOdds defaultConfig text
              = Return (mkParseResult true (Some l) [] w)
            /\ st' = Step3.mkState (map Step3.toRow l)
                       (Some (Step3.mkParseResultMessage true
                                (Step3.loadedMessage (List.length l)) (Some l)))
                       Step3.manual
        else
          st' = Step3.mkState (Step3.horses st)
                  (Some (Step3.mkParseResultMessage false
                           (js "NetKeibaのオッズテキストを入力してください。") None))
                  (Step3.method st)).
Proof.
  intros st text. split; cbn zeta; unfold Step3.handleParseNetKeibaText;
    destruct (JsString.truthy (JsString.trim text)); cbn [negb]; try reflexivity.
  - destruct (layout_odds_sorted defaultConfig text) as (l & Hret & Hsorted).
    exists l. rewrite Hret. cbn [success data].
    split; [reflexivity|]. split; [reflexivity|].
    cbn [Step3.horses]. rewrite map_map. exact Hsorted.
  - destruct (legacy_odds_returns defaultConfig text) as (l & w & Hret).
    exists l, w. rewrite Hret. cbn [success data]. split; reflexivity.
Qed.

(** ** Duplicate horse numbers at confirmation *)

Lemma indexOfFrom_fresh (num : N) (pre rest : list N) (i : Z) :
  ~ In num pre ->
  Step4.indexOfFrom num (pre ++ num :: rest) i = (i + Z.of_nat (List.length pre))%Z.
Proof.
  revert i. induction pre as [|x pre IH]; intros i Hnot; cbn.
  - rewrite N.eqb_refl. lia.
  - destruct (N.eqb_spec x num) as [->|Hne].
    + exfalso. apply Hnot. now left.
    + rewrite IH; [lia|]. intros Hin. apply Hnot. now right.
Qed.

Lemma indexOfFrom_seen (num : N) (pre rest : list N) (i : Z) :
  In num pre ->
  (Step4.indexOfFrom num (pre ++ rest) i < i + Z.of_nat (List.length pre))%Z.
Proof.
  revert i. induction pre as [|x pre IH]; intros i Hin; [destruct Hin|].
  cbn [app Step4.indexOfFrom List.length].
  destruct (N.eqb_spec x num) as [->|Hne]; [lia|].
  destruct Hin as [Heq|Hin]; [congruence|].
  specialize (IH (i + 1)%Z Hin). lia.
Qed.

Lemma notFirstFrom_nil (pre l : list N) :
  Step4.notFirstFrom (pre ++ l) l (Z.of_nat (List.length pre)) = []
  <-> NoDup l /\ forall x, In x l -> ~ In x pre.
Proof.
  revert pre. induction l as [|x l IH]; intros pre; cbn [Step4.notFirstFrom].
  - split; [intros _; split; [constructor|intros x []]|reflexivity].
  - unfold Step4.indexOf.
    specialize (IH (pre ++ [x])).
    rewrite <- app_assoc, length_app in IH. cbn [app List.length] in IH.
    replace (Z.of_nat (List.length pre + 1)) with (Z.of_nat (List.length pre) + 1)%Z
      in IH by lia.
    destruct (in_dec N.eq_dec x pre) as [Hin|Hnot].
    + pose proof (@indexOfFrom_seen x pre (x :: l) 0 Hin) as Hlt.
      destruct (Z.eqb_spec (Step4.indexOfFrom x (pre ++ x :: l) 0)
                           (Z.of_nat (List.length pre))) as [Heq|Hne]; [lia|].
      cbn [negb]. split; [discriminate|].
      intros (_ & Hfresh). exfalso. apply (Hfresh x); [now left|exact Hin].
    + rewrite (@indexOfFrom_fresh x pre l 0 Hnot). cbn [Z.add].
      rewrite Z.eqb_refl. cbn [negb]. rewrite IH. split.
      * intros (Hnd & Hfresh). split.
        -- constructor; [|exact Hnd].
           intros Hin. apply (Hfresh x Hin). apply in_or_app. right. now left.
        -- intros y [<-|Hy]; [exact Hnot|].
           intros Hin. apply (Hfresh y Hy). apply in_or_app. now left.
      * intros (Hnd & Hfresh). inversion Hnd as [|? ? Hx Hnd']; subst.
        split; [exact Hnd'|].
        intros y Hy Hin. apply in_app_or in Hin. destruct Hin as [Hin|[<-|[]]].
        -- apply (Hfresh y); [now right|exact Hin].
        -- contradiction.
Qed.

Lemma duplicates_nil (numbers : list N) :
  Step4.duplicates numbers = [] <-> NoDup numbers.
Proof.
  unfold Step4.duplicates.
  rewrite (notFirstFrom_nil [] numbers). cbn. intuition.
Qed.

(** X5: the confirmation step lets the race be saved exactly when the basic
    information is present, there is at least one horse, there is at least
    one odds row, no horse number occurs twice and no submission is under
    way; a difference between the number of horses and the number of odds
    rows is a warning and does not block. *)
Theorem X5_step4_can_submit_iff_complete_and_no_duplicate :
  forall (d : Step4.data) (isSubmitting : bool),
    Step4.canSubmit d isSubmitting = true
    <-> Step4.basicInfo d <> None
        /\ (exists horses,
               Step4.horsesData d = Some horses /\ horses <> []
               /\ NoDup (map form_number horses))
        /\ (exists rows, Step4.oddsData d = Some rows /\ rows <> [])
        /\ isSubmitting = false.
Proof.
  intros [basic hd od] sub. unfold Step4.canSubmit, Step4.errors.
  cbn [Step4.basicInfo Step4.horsesData Step4.oddsData].
  rewrite andb_true_iff, Nat.eqb_eq, negb_true_iff, length_zero_iff_nil.
  split.
  - intros (Hnil & Hsub).
    apply app_eq_nil in Hnil. destruct Hnil as (Hb & Hnil).
    apply app_eq_nil in Hnil. destruct Hnil as (Hh & Hnil).
    apply app_eq_nil in Hnil. destruct Hnil as (Ho & Hdup).
    split; [destruct basic; [discriminate|discriminate]|].
    split.
    + destruct hd as [hs|]; [|discriminate].
      exists hs. split; [reflexivity|]. split.
      * destruct hs; [discriminate|discriminate].
      * apply duplicates_nil.
        destruct (Step4.duplicates (map form_number hs)); [reflexivity|discriminate].
    + split; [|exact Hsub].
      destruct od as [os|]; [|discriminate].
      exists os. split; [reflexivity|]. destruct os; discriminate.
  - intros (Hb & (hs & -> & Hhs & Hnd) & (os & -> & Hos) & ->).
    split; [|reflexivity].
    destruct basic; [|contradiction].
    destruct hs; [contradiction|]. destruct os; [contradiction|].
    apply duplicates_nil in Hnd. rewrite Hnd. reflexivity.
Qed.

(** ** The error report *)

Lemma type_eqb_eq (a b : ParseErrorType) : Reporter.type_eqb a b = true <-> a = b.
Proof. destruct a, b; cbn; split; congruence. Qed.

Lemma type_eqb_refl (a : ParseErrorType) : Reporter.type_eqb a a = true.
Proof. now destruct a. Qed.

Lemma groupOf_addToGroup (e : ParseError) (t : ParseErrorType)
    (groups : list (ParseErrorType * list ParseError)) :
  groupOf t (Reporter.addToGroup e groups)
  = if Reporter.type_eqb (type e) t
    then Some (match groupOf t groups with Some es => es | None => [] end ++ [e])
    else groupOf t groups.
Proof.
  induction groups as [|[t' es] rest IH]; cbn.
  - destruct (Reporter.type_eqb (type e) t) eqn:Het.
    + apply type_eqb_eq in Het. subst t. now rewrite type_eqb_refl.
    + destruct (Reporter.type_eqb t (type e)) eqn:Hte; [|reflexivity].
      apply type_eqb_eq in Hte. subst t. now rewrite type_eqb_refl in Het.
  - destruct (Reporter.type_eqb (type e) t') eqn:Het'; cbn.
    + apply type_eqb_eq in Het'. subst t'.
      destruct (Reporter.type_eqb t (type e)) eqn:Hte.
      * apply type_eqb_eq in Hte. subst t. now rewrite type_eqb_refl.
      * destruct (Reporter.type_eqb (type e) t) eqn:Het; [|reflexivity].
        apply type_eqb_eq in Het. subst t. now rewrite type_eqb_refl in Hte.
    + destruct (Reporter.type_eqb t t') eqn:Htt'.
      * apply type_eqb_eq in Htt'. subst t'. now rewrite Het'.
      * exact IH.
Qed.

Lemma keys_addToGroup (e : ParseError)
    (groups : list (ParseErrorType * list ParseError)) :
  NoDup (map fst groups) -> NoDup (map fst (Reporter.addToGroup e groups)).
Proof.
  assert (Hkeys : forall t, In t (map fst (Reporter.addToGroup e groups)) ->
                            In t (map fst groups) \/ t = type e).
  { induction groups as [|[t' es] rest IH]; cbn.
    - intros t [<-|[]]. now right.
    - destruct (Reporter.type_eqb (type e) t'); cbn; intros t [<-|Hin]; auto.
      destruct (IH t Hin); auto. }
  revert Hkeys. induction groups as [|[t' es] rest IH]; cbn; intros Hkeys Hnd.
  - repeat constructor. intros [].
  - destruct (Reporter.type_eqb (type e) t') eqn:Het; cbn; [exact Hnd|].
    inversion Hnd as [|? ? Hnot Hnd']; subst. constructor.
    + intros Hin.
      assert (Hcase : forall t, In t (map fst (Reporter.addToGroup e rest)) ->
                                In t (map fst rest) \/ t = type e).
      { clear. induction rest as [|[t'' es'] rest IH]; cbn.
        - intros t [<-|[]]. now right.
        - destruct (Reporter.type_eqb (type e) t''); cbn; intros t [<-|Hin]; auto.
          destruct (IH t Hin); auto. }
      destruct (Hcase t' Hin) as [Hin'|Heq]; [contradiction|].
      subst t'. now rewrite type_eqb_refl in Het.
    + apply IH; [|exact Hnd'].
      clear. induction rest as [|[t'' es'] rest IH]; cbn.
      * intros t [<-|[]]. now right.
      * destruct (Reporter.type_eqb (type e) t''); cbn; intros t [<-|Hin]; auto.
        destruct (IH t Hin); auto.
Qed.

Lemma groupedCount_addToGroup (e : ParseError)
    (groups : list (ParseErrorType * list ParseError)) :
  groupedCount (Reporter.addToGroup e groups) = S (groupedCount groups).
Proof.
  unfold groupedCount, list_sum.
  induction groups as [|[t' es] rest IH];
    cbn [Reporter.addToGroup map fold_right snd List.length]; [reflexivity|].
  destruct (Reporter.type_eqb (type e) t'); cbn [map fold_right snd].
  - rewrite length_app. cbn [List.length]. lia.
  - rewrite IH. lia.
Qed.

Lemma ofType_snoc (t : ParseErrorType) (done : list ParseError) (e : ParseError) :
  ofType t (done ++ [e])
  = ofType t done ++ (if Reporter.type_eqb (type e) t then [e] else []).
Proof. unfold ofType. rewrite filter_app. reflexivity. Qed.

Lemma grouping_invariant (errors : list ParseError) :
  forall (done : list ParseError)
         (groups : list (ParseErrorType * list ParseError)),
    NoDup (map fst groups) ->
    groupedCount groups = List.length done ->
    (forall t, groupOf t groups
               = match ofType t done with [] => None | es => Some es end) ->
    let groups' := fold_left (fun g e => Reporter.addToGroup e g) errors groups in
    NoDup (map fst groups')
    /\ groupedCount groups' = List.length (done ++ errors)
    /\ forall t, groupOf t groups'
                 = match ofType t (done ++ errors) with
                   | [] => None
                   | es => Some es
                   end.
Proof.
  induction errors as [|e errors IH]; intros done groups Hnd Hcount Hgroups;
    cbn zeta; cbn [fold_left].
  - rewrite app_nil_r. auto.
  - replace (done ++ e :: errors) with ((done ++ [e]) ++ errors)
      by now rewrite <- app_assoc.
    apply IH.
    + now apply keys_addToGroup.
    + rewrite groupedCount_addToGroup, Hcount, length_app. cbn. lia.
    + intros t. rewrite groupOf_addToGroup, ofType_snoc, Hgroups.
      destruct (Reporter.type_eqb (type e) t).
      * destruct (ofType t done) as [|x xs]; reflexivity.
      * rewrite app_nil_r. reflexivity.
Qed.

(** X6: the grouping of the report loses and invents nothing.  In the
    report of any list of results, the keys of [errorsByType] are distinct,
    the group of a type is absent when no error has that type and otherwise
    holds exactly the errors of that type in their order of occurrence, and
    the group sizes add up to [totalErrors], the number of errors of all the
    results. *)
Theorem X6_report_groups_partition_the_errors :
  forall (T : Type) (results : list (ParseResult T)) (now : Z),
    let report := Reporter.generateReport results now in
    let allErrors := flat_map (@errors T) results in
    NoDup (map fst (Reporter.errorsByType report))
    /\ Reporter.totalErrors report = List.length allErrors
    /\ groupedCount (Reporter.errorsByType report) = Reporter.totalErrors report
    /\ forall t,
         groupOf t (Reporter.errorsByType report)
         = match ofType t allErrors with [] => None | es => Some es end.
Proof.
  intros T results now. cbn zeta.
  unfold Reporter.generateReport. cbn [Reporter.errorsByType Reporter.totalErrors].
  destruct (@grouping_invariant (flat_map (@errors T) results) [] [])
    as (Hnd & Hcount & Hgroups).
  - constructor.
  - reflexivity.
  - intros t. reflexivity.
  - cbn [app] in *. unfold Reporter.groupErrorsByType. auto.
Qed.

Lemma suggestions_nil (errors : list ParseError) :
  Reporter.generateSuggestions errors = [] <-> errors = [].
Proof.
  split.
  - destruct errors as [|e errors]; [reflexivity|].
    unfold Reporter.generateSuggestions. cbn [List.length Nat.ltb Nat.leb].
    intros Hnil. repeat (apply app_eq_nil in Hnil; destruct Hnil as (_ & Hnil)).
    discriminate.
  - intros ->. reflexivity.
Qed.

(** X7: the report suggests something exactly when there is an error.  The
    suggestions of a report are empty if and only if no result carries an
    error; warnings alone give none, and as soon as there is an error the
    list ends with the two general suggestions. *)
Theorem X7_report_suggests_iff_errors :
  forall (T : Type) (results : list (ParseResult T)) (now : Z),
    let report := Reporter.generateReport results now in
    (Reporter.suggestions report = [] <-> Reporter.totalErrors report = 0%nat)
    /\ (Reporter.totalErrors report <> 0%nat ->
        exists before,
          Reporter.suggestions report
          = before
            ++ [js "NetKeibaから最新の形式でデータをコピーしているか確認してください";
                js "不要な空行や特殊文字が含まれていないか確認してください"]).
Proof.
  intros T results now. cbn zeta.
  unfold Reporter.generateReport. cbn [Reporter.suggestions Reporter.totalErrors].
  split.
  - rewrite suggestions_nil. now rewrite length_zero_iff_nil.
  - intros Hne. unfold Reporter.generateSuggestions.
    destruct (flat_map (@errors T) results) as [|e es] eqn:Hall; [contradiction|].
    cbn [List.length Nat.ltb Nat.leb Reporter.pushIf map].
    rewrite !app_assoc. eexists. reflexivity.
Qed.

Lemma flat_map_all_nil {A B : Type} (f : A -> list B) (l : list A) :
  (forall x, In x l -> f x = []) -> flat_map f l = [].
Proof.
  induction l as [|x l IH]; intros Hall; [reflexivity|]. cbn.
  rewrite (Hall x (or_introl eq_refl)), IH; [reflexivity|].
  intros y Hy. apply Hall. now right.
Qed.

(** X8: a report without diagnostics is the clean report.  When no result
    carries an error or a warning, the summary is the completion message,
    both totals are zero, there is no group and no suggestion. *)
Theorem X8_report_without_diagnostics_is_clean :
  forall (T : Type) (results : list (ParseResult T)) (now : Z),
    (forall r, In r results -> errors r = [] /\ warnings r = []) ->
    Reporter.generateReport results now
    = Reporter.mkErrorReport Reporter.cleanSummary 0 0 [] [] now.
Proof.
  intros T results now Hclean.
  assert (He : flat_map (@errors T) results = []).
  { apply flat_map_all_nil. intros r Hr. now apply Hclean. }
  assert (Hw : flat_map (@warnings T) results = []).
  { apply flat_map_all_nil. intros r Hr. now apply Hclean. }
  unfold Reporter.generateReport. rewrite He, Hw. reflexivity.
Qed.

Lemma X8_report_without_diagnostics_is_clean_witness :
  (forall r,
      In r [mkParseResult true (Some tt) [] []; mkParseResult true (Some tt) [] []] ->
      errors r = [] /\ warnings r = [])
  /\ Reporter.generateReport
       [mkParseResult true (Some tt) [] []; mkParseResult true (Some tt) [] []] 0
     = Reporter.mkErrorReport Reporter.cleanSummary 0 0 [] [] 0.
Proof.
  assert (H : forall r,
             In r [mkParseResult true (Some tt) [] [];
                   mkParseResult true (Some tt) [] []] ->
             errors r = [] /\ warnings r = []).
  { intros r Hin.
    assert (Hr : r = mkParseResult true (Some tt) [] [])
      by (cbn in Hin; intuition congruence).
    rewrite Hr. split; reflexivity. }
  split; [exact H|].
  exact (@X8_report_without_diagnostics_is_clean unit _ 0 H).
Defined.

(** ** Validation of parsed data *)

Lemma trim_nil_of_falsy (v : jsstring) :
  negb (JsString.truthy v) || (List.length (JsString.trim v) =? 0)%nat = true
  <-> JsString.trim v = [].
Proof.
  destruct v as [|c v]; cbn [JsString.truthy negb orb].
  - split; reflexivity.
  - rewrite Nat.eqb_eq. apply length_zero_iff_nil.
Qed.

(** X9: what [validateParsedData] accepts.  A value that is falsy or not an
    object is rejected with the single error [data]; an object (or array) is
    valid exactly when its [venue], if it is a string, is not blank, its
    [distance], if it is a number, is neither below 1000 nor above 4000,
    and its [raceNumber], if it is a number, is neither below 1 nor above
    12 (both comparisons are false for NaN, which passes); a property that
    is absent or of another type is not checked. *)
Theorem X9_validateParsedData_accepts :
  forall (v : JsValue),
    (JsObject.truthy v && JsObject.is_object v = false ->
     Common.validateParsedData v
     = mkValidationResult false
         [mkValidationError (js "data") (js "データが無効です") v])
    /\ (JsObject.truthy v && JsObject.is_object v = true ->
        (isValid (Common.validateParsedData v) = true
         <-> (forall s, JsObject.get "venue" v = Some (VString s) ->
                        JsString.trim s <> [])
             /\ (forall d, JsObject.get "distance" v = Some (VNumber d) ->
                           JsNumber.ltb d (JsNumber.Finite 1000) = false
                           /\ JsNumber.ltb (JsNumber.Finite 4000) d = false)
             /\ (forall n, JsObject.get "raceNumber" v = Some (VNumber n) ->
                           JsNumber.ltb n (JsNumber.Finite 1) = false
                           /\ JsNumber.ltb (JsNumber.Finite 12) n = false))).
Proof.
  intros v. unfold Common.validateParsedData. split; intros Hobj.
  - apply andb_false_iff in Hobj.
    destruct (JsObject.truthy v), (JsObject.is_object v);
      destruct Hobj; try discriminate; reflexivity.
  - apply andb_prop in Hobj. destruct Hobj as (-> & ->). cbn [negb orb].
    cbn [isValid]. rewrite Nat.eqb_eq, length_zero_iff_nil. split.
    + intros Hnil.
      apply app_eq_nil in Hnil. destruct Hnil as (Hv & Hnil).
      apply app_eq_nil in Hnil. destruct Hnil as (Hd & Hn).
      split; [|split].
      * intros s Hs. rewrite Hs in Hv.
        destruct (negb (JsString.truthy s) || _) eqn:Hc; [discriminate|].
        intros Htrim. apply trim_nil_of_falsy in Htrim. congruence.
      * intros d Hget. rewrite Hget in Hd.
        destruct (JsNumber.ltb d _ || _) eqn:Hc; [discriminate|].
        now apply orb_false_iff in Hc.
      * intros n Hget. rewrite Hget in Hn.
        destruct (JsNumber.ltb n _ || _) eqn:Hc; [discriminate|].
        now apply orb_false_iff in Hc.
    + intros (Hv & Hd & Hn).
      assert (E1 : match JsObject.get "venue" v with
                   | Some (VString s) =>
                       if negb (JsString.truthy s)
                          || (List.length (JsString.trim s) =? 0)%nat
                       then [mkValidationError (js "venue")
                               (js "競馬場名は必須です") (VString s)]
                       else []
                   | _ => []
                   end = []).
      { destruct (JsObject.get "venue" v) as [[]|]; try reflexivity.
        destruct (negb (JsString.truthy s) || _) eqn:Hc; [|reflexivity].
        apply trim_nil_of_falsy in Hc. now apply Hv in Hc. }
      assert (E2 : match JsObject.get "distance" v with
                   | Some (VNumber d) =>
                       if JsNumber.ltb d (JsNumber.Finite 1000)
                          || JsNumber.ltb (JsNumber.Finite 4000) d
                       then [mkValidationError (js "distance")
                               (js "距離は1000m-4000mの範囲で入力してください")
                               (VNumber d)]
                       else []
                   | _ => []
                   end = []).
      { destruct (JsObject.get "distance" v) as [[]|]; try reflexivity.
        destruct (JsNumber.ltb x _ || _) eqn:Hc; [|reflexivity].
        rewrite (proj2 (orb_false_iff _ _) (Hd x eq_refl)) in Hc.
        discriminate. }
      assert (E3 : match JsObject.get "raceNumber" v with
                   | Some (VNumber n) =>
                       if JsNumber.ltb n (JsNumber.Finite 1)
                          || JsNumber.ltb (JsNumber.Finite 12) n
                       then [mkValidationError (js "raceNumber")
                               (js "レース番号は1-12の範囲で入力してください")
                               (VNumber n)]
                       else []
                   | _ => []
                   end = []).
      { destruct (JsObject.get "raceNumber" v) as [[]|]; try reflexivity.
        destruct (JsNumber.ltb x _ || _) eqn:Hc; [|reflexivity].
        rewrite (proj2 (orb_false_iff _ _) (Hn x eq_refl)) in Hc.
        discriminate. }
      rewrite E1, E2, E3. reflexivity.
Qed.

(** ** Success of the race-info extractors *)

(** X10: the configuration has no effect on the layout-keyed race-info
    extractor.  Every error it can record (title, race details, meeting) is
    critical, so [strictMode] changes nothing: the result is the same under
    any two configurations, it is successful exactly when no error is
    recorded, and a record is returned exactly when it is successful. *)
Theorem X10_layout_race_info_ignores_the_configuration :
  forall (cfg cfg' : ParserConfig) (text : jsstring) (now : Z),
    exists r,
      Layout.parseRaceInfo cfg text now = Return r
      /\ Layout.parseRaceInfo cfg' text now = Return r
      /\ (success r = true <-> errors r = [])
      /\ (data r <> None <-> success r = true).
Proof.
  intros cfg cfg' text now.
  exists (Layout.parseRaceInfoBody cfg text now).
  split; [reflexivity|].
  unfold Layout.parseRaceInfo, try_catch, Layout.parseRaceInfoBody. cbn zeta.
  rewrite layout_critical_filter.
  destruct (Regex.exec Layout.raceNumberGuess text) as [m|];
    destruct (Layout.raceInfoErrors _ _ _ _) as [|e es];
    cbn [List.length Nat.ltb Nat.leb andb];
    destruct (strictMode cfg), (strictMode cfg');
    cbn [success data errors];
    (split; [reflexivity|]); split; split; congruence.
Qed.

Lemma missing_nil {A : Type} (m : option A) (e : ParseError) :
  Legacy.missing m e = [] <-> m <> None.
Proof. destruct m; cbn; split; congruence. Qed.

Lemma filter_missing {A : Type} (f : ParseError -> bool) (m : option A)
    (e : ParseError) :
  filter f (Legacy.missing m e) = if f e then Legacy.missing m e else [].
Proof. destruct m; cbn; destruct (f e); reflexivity. Qed.

Lemma positive_length_false {A : Type} (l : list A) :
  (0 <? List.length l)%nat = false <-> l = [].
Proof. destruct l; cbn; split; congruence. Qed.

(** X11: when the line-keyed race-info extractor succeeds.  Without
    [strictMode] the result is successful exactly when the venue, the
    race-number marker and the distance are found, even if the title or the
    date is missing (the errors for them are then returned with the
    record); with [strictMode] it is successful exactly when no error is
    recorded.  A record is returned exactly when the result is
    successful. *)
Theorem X11_legacy_race_info_success :
  forall (cfg : ParserConfig) (text : jsstring) (now : Z),
    exists r,
      Legacy.parseRaceInfo cfg text now = Return r
      /\ (success r = true
          <-> Regex.exec Legacy.venuePattern text <> None
              /\ Regex.exec Legacy.raceNumberPattern text <> None
              /\ Regex.exec Legacy.distancePattern text <> None
              /\ (strictMode cfg = true ->
                  Regex.exec Legacy.titlePattern text <> None
                  /\ Regex.exec Legacy.datePattern text <> None))
      /\ (strictMode cfg = true -> (success r = true <-> errors r = []))
      /\ (data r <> None <-> success r = true).
Proof.
  intros cfg text now.
  exists (Legacy.parseRaceInfoBody cfg text now).
  split; [reflexivity|].
  unfold Legacy.parseRaceInfoBody. cbn zeta.
  generalize (Regex.exec Legacy.venuePattern text) as V.
  generalize (Regex.exec Legacy.raceNumberPattern text) as R.
  generalize (Regex.exec Legacy.titlePattern text) as T.
  generalize (Regex.exec Legacy.distancePattern text) as D.
  generalize (Regex.exec Legacy.datePattern text) as A.
  intros A D T R V.
  set (ev := Legacy.raceInfoError "venue" _ text).
  set (en := Legacy.raceInfoError "raceNumber" _ text).
  set (et := Legacy.raceInfoError "title" _ text).
  set (ed := Legacy.raceInfoError "distance" _ text).
  set (ea := Legacy.raceInfoError "date" _ text).
  set (errs := Legacy.missing V ev ++ Legacy.missing R en ++ Legacy.missing T et
               ++ Legacy.missing D ed ++ Legacy.missing A ea).
  assert (Hall : errs = [] <-> V <> None /\ R <> None /\ T <> None
                               /\ D <> None /\ A <> None).
  { unfold errs.
    destruct V, R, T, D, A; cbn [Legacy.missing app];
      split; try discriminate; try (intros _; repeat split; discriminate);
      intros (H1 & H2 & H3 & H4 & H5); congruence. }
  assert (Hcrit : filter Legacy.isCritical errs = []
                  <-> V <> None /\ R <> None /\ D <> None).
  { unfold errs. rewrite !filter_app, !filter_missing.
    replace (Legacy.isCritical ev) with true by reflexivity.
    replace (Legacy.isCritical en) with true by reflexivity.
    replace (Legacy.isCritical et) with false by reflexivity.
    replace (Legacy.isCritical ed) with true by reflexivity.
    replace (Legacy.isCritical ea) with false by reflexivity.
    destruct V, R, D; cbn [Legacy.missing app];
      split; try discriminate; try (intros _; repeat split; discriminate);
      intros (H1 & H2 & H3); congruence. }
  clearbody errs.
  destruct ((0 <? List.length errs)%nat) eqn:Hlen.
  - assert (Hne : errs <> []).
    { intros Hnil. apply positive_length_false in Hnil. congruence. }
    destruct (strictMode cfg) eqn:Hstrict; cbn [andb success data errors].
    + split; [|split].
      * split; [discriminate|]. intros (H1 & H2 & H3 & H4).
        destruct (H4 eq_refl) as (H5 & H6). exfalso. apply Hne. now apply Hall.
      * intros _. split; [discriminate|]. intros Hnil. contradiction.
      * split; [intros H; now contradiction H|discriminate].
    + destruct ((0 <? List.length (filter Legacy.isCritical errs))%nat) eqn:Hc;
        cbn [success data errors].
      * split; [|split].
        -- split; [discriminate|]. intros (H1 & H2 & H3 & _).
           assert (Hnil : filter Legacy.isCritical errs = []) by now apply Hcrit.
           rewrite Hnil in Hc. discriminate.
        -- discriminate.
        -- split; [intros H; now contradiction H|discriminate].
      * apply positive_length_false in Hc. apply Hcrit in Hc.
        destruct Hc as (H1 & H2 & H3).
        split; [|split].
        -- split; [|reflexivity]. intros _. repeat split; auto; discriminate.
        -- discriminate.
        -- split; [reflexivity|discriminate].
  - apply positive_length_false in Hlen. cbn [andb success data errors].
    pose proof (proj1 Hall Hlen) as (H1 & H2 & H3 & H4 & H5).
    split; [|split].
    + split; [|reflexivity]. intros _. repeat split; auto.
    + intros _. split; [intros _; exact Hlen|reflexivity].
    + split; [reflexivity|discriminate].
Qed.

(** ** Odds outside the sections *)

Lemma oddsLoop_without_header (lines : list jsstring) (st : Layout.oddsState) :
  Layout.currentSection st = Layout.NoSection ->
  (forall line, In line lines ->
     is_lit (JsString.trim line) "単勝" = false
     /\ is_lit (JsString.trim line) "複勝" = false) ->
  Layout.oddsLoop lines st = st.
Proof.
  intros Hsec. induction lines as [|raw rest IH]; intros Hno; [reflexivity|].
  cbn [Layout.oddsLoop].
  destruct (Hno raw (or_introl eq_refl)) as (Hw & Hp). rewrite Hw, Hp.
  assert (Hrest : Layout.oddsLoop rest st = st).
  { apply IH. intros line Hin. apply Hno. now right. }
  destruct (negb _); [exact Hrest|].
  destruct (Layout.isHeaderLine _); [exact Hrest|].
  destruct (Regex.exec Layout.frameHorseLine _); [|exact Hrest].
  destruct rest as [|next rest']; [exact Hrest|].
  rewrite Hsec. exact Hrest.
Qed.

(** X12: the layout-keyed odds extractor reads nothing outside a section.
    When no line of the text is, after trimming, one of the two section
    headers, the result is the empty list, successful and without
    diagnostics, whatever the lines contain; in particular a text in the
    line layout gives no record. *)
Theorem X12_layout_odds_need_a_section_header :
  forall (cfg : ParserConfig) (text : jsstring),
    (forall line, In line (Common.nonblank_lines text) ->
       is_lit (JsString.trim line) "単勝" = false
       /\ is_lit (JsString.trim line) "複勝" = false) ->
    Layout.parseOdds cfg text = Return (mkParseResult true (Some []) [] []).
Proof.
  intros cfg text Hno.
  unfold Layout.parseOdds, Layout.parseOddsBody, Layout.scanOdds. cbn [try_catch].
  rewrite (@oddsLoop_without_header (Common.nonblank_lines text)
             (Layout.mkOddsState Layout.NoSection [] []) eq_refl Hno).
  reflexivity.
Qed.

(** The statement at [SAMPLE_ODDS_DATA_1]-like lines of the line layout. *)
Lemma X12_layout_odds_need_a_section_header_witness :
  (forall line, In line (Common.nonblank_lines Samples.invalidOddsData) ->
     is_lit (JsString.trim line) "単勝" = false
     /\ is_lit (JsString.trim line) "複勝" = false)
  /\ Layout.parseOdds defaultConfig Samples.invalidOddsData
     = Return (mkParseResult true (Some []) [] []).
Proof.
  assert (H : forall line,
             In line (Common.nonblank_lines Samples.invalidOddsData) ->
             is_lit (JsString.trim line) "単勝" = false
             /\ is_lit (JsString.trim line) "複勝" = false).
  { intros line Hin. vm_compute in Hin.
    repeat (destruct Hin as [<-|Hin]; [split; vm_compute; reflexivity|]).
    destruct Hin. }
  split; [exact H|].
  exact (@X12_layout_odds_need_a_section_header defaultConfig
           Samples.invalidOddsData H).
Defined.

(** ** Records of the layout-keyed roster *)

Lemma isJockeyName_length (line : jsstring) :
  Layout.isJockeyName line = true -> (2 <= List.length line <= 8)%nat.
Proof.
  unfold Layout.isJockeyName. intros H.
  repeat (apply andb_prop in H; destruct H as (H & ?)).
  repeat match goal with
         | Hb : (_ <=? _)%nat = true |- _ => apply Nat.leb_le in Hb
         end.
  lia.
Qed.

Lemma scanJockey_invariant (lines : list jsstring) :
  forall (found : bool) (jockey : jsstring) (w : JsNumber.float64),
    Layout.scanJockey lines found = (jockey, w) ->
    (jockey = [] /\ w = JsNumber.Finite 55)
    \/ (Layout.isJockeyName jockey = true /\ nonneg w
        /\ exists raw, In raw lines /\ jockey = JsString.trim raw).
Proof.
  induction lines as [|raw rest IH]; intros found jockey w; cbn [Layout.scanJockey].
  - intros [= <- <-]. now left.
  - destruct (Regex.test Layout.genderAgeColorPattern (JsString.trim raw)).
    { intros H. apply IH in H. destruct H as [H|(Hj & Hw & raw' & Hin & Heq)];
        [now left|right]. repeat split; auto. exists raw'. split; [now right|exact Heq]. }
    destruct (is_lit (JsString.trim raw) "" && found).
    { intros H. apply IH in H. destruct H as [H|(Hj & Hw & raw' & Hin & Heq)];
        [now left|right]. repeat split; auto. exists raw'. split; [now right|exact Heq]. }
    destruct (found && Layout.isJockeyName (JsString.trim raw)) eqn:Hc.
    + apply andb_prop in Hc. destruct Hc as (_ & Hj).
      intros [= <- <-]. right. split; [exact Hj|]. split.
      * destruct rest as [|next rest']; [reflexivity|].
        destruct (Regex.exec Layout.weightHead (JsString.trim next));
          [apply parseFloat_nonneg|reflexivity].
      * exists raw. split; [now left|reflexivity].
    + intros H. apply IH in H. destruct H as [H|(Hj & Hw & raw' & Hin & Heq)];
        [now left|right]. repeat split; auto. exists raw'. split; [now right|exact Heq].
Qed.

Lemma parseHorseBlock_wellFormed (block : jsstring) (n : nat) (h : HorseData) :
  Layout.parseHorseBlock block n = Return h ->
  wellFormedHorse h
  /\ In (name h)
        (map JsString.trim (firstn 4 (skipn 2 (JsString.split_lines block))))
  /\ existsb (Regex.test Layout.oddsPattern) (JsString.split_lines block) = false
  /\ existsb (Regex.test Layout.weightPattern) (JsString.split_lines block) = false.
Proof.
  unfold Layout.parseHorseBlock. cbn zeta.
  destruct (Regex.exec Layout.frameHorseHead _) as [fm|]; [|discriminate].
  set (cands := filter Layout.isNameCandidate _).
  assert (Hcand : forall c, In c cands ->
            Layout.isNameCandidate c = true
            /\ In c (map JsString.trim
                       (firstn 4 (skipn 2 (JsString.split_lines block))))).
  { intros c Hc. apply filter_In in Hc. tauto. }
  set (chosen := match cands with
                 | _ :: second :: _ => second
                 | [first] => first
                 | [] => []
                 end).
  assert (Hchosen : JsString.truthy chosen = true -> In chosen cands).
  { unfold chosen. destruct cands as [|c1 [|c2 cs]]; cbn.
    - discriminate.
    - intros _. now left.
    - intros _. right. now left. }
  clearbody chosen.
  destruct (JsString.truthy chosen) eqn:Ht; cbn [negb]; [|discriminate].
  destruct (existsb (Regex.test Layout.oddsPattern) _) eqn:Ho; [discriminate|].
  destruct (Layout.firstMatch Layout.genderAgeColorPattern _) as [gm|];
    (destruct (existsb (Regex.test Layout.weightPattern) _) eqn:Hw;
     [discriminate|]);
    destruct (Layout.scanJockey _ false) as [jockey w] eqn:Hscan;
    intros [= <-];
    (destruct (Hcand chosen (Hchosen eq_refl)) as (Hname & Hin);
     split; [|split; [exact Hin|split; reflexivity]];
     unfold wellFormedHorse; cbn [name jockeyName weight];
     split; [intros ->; discriminate|];
     split; [exact Hname|];
     apply scanJockey_invariant in Hscan;
     destruct Hscan as [(-> & ->)|(Hj & Hwn & _)];
     [split; [now left|reflexivity]
     |split; [right; split; [exact Hj|now apply isJockeyName_length]|exact Hwn]]).
Qed.

Lemma records_from_outcomes parse (frags : list jsstring) :
  forall (i : nat) (h : HorseData),
    In h (Roster.records (Roster.outcomesFrom parse i frags)) ->
    exists f n, In f frags /\ parse f n = Return h.
Proof.
  induction frags as [|f frags IH]; intros i h; cbn; [intros []|].
  destruct (parse f (i + 1)%nat) as [h'|e] eqn:Hp.
  - intros [<-|Hin].
    + exists f, (i + 1)%nat. split; [now left|exact Hp].
    + destruct (IH _ _ Hin) as (f' & n & Hf & Hn). exists f', n. split; [now right|exact Hn].
  - intros Hin. destruct (IH _ _ Hin) as (f' & n & Hf & Hn).
    exists f', n. split; [now right|exact Hn].
Qed.

(** X13: what a record of the layout-keyed roster always satisfies.  Every
    record returned by [parseHorseDataInternal] has a non-empty name that
    passes the name filter (a trimmed candidate line of its fragment, with
    no parenthesis and none of the noise tokens); its jockey name is either
    empty or a line of 2 to 8 code units that passes the jockey filter; its
    weight is not negative; and its fragment has no line matching the
    popularity or the body-weight pattern. *)
Theorem X13_layout_records_are_well_formed :
  forall (cfg : ParserConfig) (text : jsstring),
    exists r horses,
      Layout.parseHorseDataInternal cfg text = Return r
      /\ data r = Some horses
      /\ forall h, In h horses ->
           wellFormedHorse h
           /\ exists block,
                In block (Layout.splitIntoHorseBlocks text)
                /\ In (name h)
                      (map JsString.trim
                         (firstn 4 (skipn 2 (JsString.split_lines block))))
                /\ existsb (Regex.test Layout.oddsPattern)
                     (JsString.split_lines block) = false
                /\ existsb (Regex.test Layout.weightPattern)
                     (JsString.split_lines block) = false.
Proof.
  intros cfg text.
  exists (Layout.parseHorseDataInternalBody cfg text),
         (Roster.records (layoutFragments text)).
  split; [reflexivity|]. split; [apply (layout_policy cfg text)|].
  intros h Hh. unfold layoutFragments in Hh.
  apply records_from_outcomes in Hh. destruct Hh as (block & n & Hblock & Hparse).
  apply parseHorseBlock_wellFormed in Hparse.
  destruct Hparse as (Hwf & Hname & Ho & Hw).
  split; [exact Hwf|]. exists block. auto.
Qed.

(** ** Line-keyed odds: one record or one warning per line *)

Lemma legacy_oddsLoop_keeps (lines : list jsstring) :
  forall (i : nat) (acc : list OddsData) (W : list jsstring),
    (forall r, In r acc -> In r (fst (Legacy.oddsLoop lines i acc W)))
    /\ (forall x, In x W -> In x (snd (Legacy.oddsLoop lines i acc W))).
Proof.
  induction lines as [|raw rest IH]; intros i acc W; cbn [Legacy.oddsLoop].
  - cbn. tauto.
  - destruct (negb _); [apply IH|].
    destruct (Common.parseOddsLine (JsString.trim raw) (i + 1)) as [odds|error].
    + destruct (IH (S i) (acc ++ [odds]) W) as (Ha & Hw). split; [|exact Hw].
      intros r Hr. apply Ha, in_app_iff. now left.
    + destruct (IH (S i) acc (W ++ [Legacy.oddsLineWarning i error])) as (Ha & Hw).
      split; [exact Ha|]. intros x Hx. apply Hw, in_app_iff. now left.
Qed.

Lemma legacy_oddsLoop_each (lines : list jsstring) :
  Forall (fun line => JsString.truthy (JsString.trim line) = true) lines ->
  forall (i : nat) (acc : list OddsData) (W : list jsstring) (k : nat)
         (raw : jsstring),
    nth_error lines k = Some raw ->
    match Common.parseOddsLine (JsString.trim raw) (i + k + 1) with
    | Return r => In r (fst (Legacy.oddsLoop lines i acc W))
    | Throw e =>
        In (Legacy.oddsLineWarning (i + k) e) (snd (Legacy.oddsLoop lines i acc W))
    end.
Proof.
  induction 1 as [|first rest Hfirst Hrest IH]; intros i acc W k raw Hk.
  - destruct k; discriminate.
  - cbn [Legacy.oddsLoop]. rewrite Hfirst. cbn [negb].
    destruct k as [|k]; cbn [nth_error] in Hk.
    + injection Hk as ->. rewrite Nat.add_0_r.
      change (Common.parseOddsLine (JsString.trim raw) (i + 1))
        with (Common.parseOddsLine (JsString.trim raw) 0).
      destruct (Common.parseOddsLine (JsString.trim raw) 0) as [odds|error].
      * apply (legacy_oddsLoop_keeps rest (S i) (acc ++ [odds]) W).
        apply in_app_iff. right. now left.
      * apply (legacy_oddsLoop_keeps rest (S i) acc
                 (W ++ [Legacy.oddsLineWarning i error])).
        apply in_app_iff. right. now left.
    + replace (i + S k)%nat with (S i + k)%nat by lia.
      destruct (Common.parseOddsLine (JsString.trim first) (i + 1)) as [odds|error];
        apply IH; exact Hk.
Qed.

(** X14: the line-keyed odds extractor accounts for every non-blank line.
    It always returns a successful result without errors; the records and
    the warnings together are as many as the non-blank lines; and the line
    at position [k] (from 0) among them contributes its record when
    [parseOddsLine] accepts it and otherwise the warning that names the
    line number [k + 1] and carries the message thrown. *)
Theorem X14_legacy_odds_account_for_every_line :
  forall (cfg : ParserConfig) (text : jsstring),
    exists l w,
      Legacy.parseOdds cfg text = Return (mkParseResult true (Some l) [] w)
      /\ (List.length l + List.length w
          = List.length (Common.nonblank_lines text))%nat
      /\ forall (k : nat) (raw : jsstring),
           nth_error (Common.nonblank_lines text) k = Some raw ->
           match Common.parseOddsLine (JsString.trim raw) (k + 1) with
           | Return r => In r l
           | Throw e =>
               In (JsString.of_nat (k + 1)
                     ++ js "行目のオッズデータパースに失敗: " ++ thrown_message e) w
           end.
Proof.
  intros cfg text.
  unfold Legacy.parseOdds, Legacy.parseOddsBody. cbn [try_catch].
  pose proof (legacy_oddsLoop_counts (nonblank_lines_nonblank text) 0 [] []) as Hc.
  pose proof (legacy_oddsLoop_each (nonblank_lines_nonblank text) 0 [] []) as He.
  destruct (Legacy.oddsLoop (Common.nonblank_lines text) 0 [] []) as [l w].
  exists l, w. split; [reflexivity|]. split; [cbn in Hc; lia|].
  intros k raw Hk. specialize (He k raw Hk). cbn [Nat.add fst snd] in He.
  exact He.
Qed.

(** ** The matcher against the declarative semantics *)

Lemma run_sound (r : Regex.regex) :
  forall p s c (k : Regex.cont) a,
    Regex.run r p s c k = Some a ->
    exists p' s' c', RegexSpec.matches r p s c p' s' c' /\ k p' s' c' = Some a.
Proof.
  induction r as [|ch|neg rs| | | |r1 IH1 r2 IH2|r1 IH1 r2 IH2|g r IH|i r IH];
    intros p s c k a; cbn [Regex.run].
  - intros H. exists p, s, c. split; [constructor|exact H].
  - destruct s as [|b s']; [discriminate|].
    destruct (ch =? b)%N eqn:Hb; [|discriminate].
    apply N.eqb_eq in Hb. subst b. intros H.
    exists (S p), s', c. split; [constructor|exact H].
  - destruct s as [|b s']; [discriminate|].
    destruct (xorb neg (JsString.in_ranges rs b)) eqn:Hb; [|discriminate].
    intros H. exists (S p), s', c. split; [now constructor|exact H].
  - destruct s as [|b s']; [discriminate|].
    destruct (JsString.in_ranges Regex.line_terminators b) eqn:Hb; [discriminate|].
    intros H. exists (S p), s', c. split; [now constructor|exact H].
  - destruct (p =? 0)%nat eqn:Hp; [|discriminate].
    apply Nat.eqb_eq in Hp. subst p. intros H.
    exists 0%nat, s, c. split; [constructor|exact H].
  - destruct s as [|b s']; [|discriminate].
    intros H. exists p, [], c. split; [constructor|exact H].
  - intros H. apply IH1 in H. destruct H as (p1 & s1 & c1 & H1 & H).
    apply IH2 in H. destruct H as (p2 & s2 & c2 & H2 & H).
    exists p2, s2, c2. split; [econstructor; eassumption|exact H].
  - destruct (Regex.run r1 p s c k) as [a1|] eqn:H1.
    + intros [= <-]. apply IH1 in H1. destruct H1 as (p' & s' & c' & H1 & H).
      exists p', s', c'. split; [now apply RegexSpec.M_AltL|exact H].
    + intros H2. apply IH2 in H2. destruct H2 as (p' & s' & c' & H2 & H).
      exists p', s', c'. split; [now apply RegexSpec.M_AltR|exact H].
  - generalize (List.length s) as n. intros n. revert p s c.
    induction n as [|n IHn]; intros p s c.
    + intros H. exists p, s, c. split; [constructor|exact H].
    + set (again := fun p' s' c' => if (p <? p')%nat then _ else None).
      assert (Hagain : Regex.run r p s c again = Some a ->
                exists p' s' c',
                  RegexSpec.matches (Regex.Star g r) p s c p' s' c'
                  /\ k p' s' c' = Some a).
      { intros H. apply IH in H. destruct H as (p1 & s1 & c1 & H1 & H).
        unfold again in H. destruct (p <? p1)%nat eqn:Hlt; [|discriminate].
        apply Nat.ltb_lt in Hlt. apply IHn in H.
        destruct H as (p2 & s2 & c2 & H2 & H).
        exists p2, s2, c2. split; [|exact H].
        eapply RegexSpec.M_StarS; eassumption. }
      assert (Hstop : k p s c = Some a ->
                exists p' s' c',
                  RegexSpec.matches (Regex.Star g r) p s c p' s' c'
                  /\ k p' s' c' = Some a).
      { intros H. exists p, s, c. split; [constructor|exact H]. }
      destruct g.
      * destruct (Regex.run r p s c again) as [a1|] eqn:H1.
        -- intros [= <-]. now apply Hagain.
        -- exact Hstop.
      * destruct (k p s c) as [a1|] eqn:H1.
        -- intros [= <-]. now apply Hstop.
        -- exact Hagain.
  - intros H. apply IH in H. destruct H as (p' & s' & c' & H1 & H).
    exists p', s', ((i, firstn (p' - p) s) :: c'). split; [now constructor|exact H].
Qed.

Lemma orelse_some (A : Type) (o1 o2 : option A) :
  match o1 with Some a => Some a | None => o2 end <> None
  <-> o1 <> None \/ o2 <> None.
Proof.
  destruct o1, o2; split; intros H;
    solve [ left; discriminate | right; discriminate | discriminate
          | contradiction | destruct H; contradiction ].
Qed.

(** Whether the matcher succeeds does not depend on the captures, and it
    succeeds with a continuation that accepts more. *)
Lemma run_mono (r : Regex.regex) :
  forall p s c c' (k k' : Regex.cont),
    (forall p1 s1 c1 c1', k p1 s1 c1 <> None -> k' p1 s1 c1' <> None) ->
    Regex.run r p s c k <> None -> Regex.run r p s c' k' <> None.
Proof.
  induction r as [|ch|neg rs| | | |r1 IH1 r2 IH2|r1 IH1 r2 IH2|g r IH|i r IH];
    intros p s c c' k k' Hk; cbn [Regex.run].
  - apply Hk.
  - destruct s as [|b s']; [tauto|]. destruct (ch =? b)%N; [apply Hk|tauto].
  - destruct s as [|b s']; [tauto|].
    destruct (xorb neg (JsString.in_ranges rs b)); [apply Hk|tauto].
  - destruct s as [|b s']; [tauto|].
    destruct (JsString.in_ranges Regex.line_terminators b); [tauto|apply Hk].
  - destruct (p =? 0)%nat; [apply Hk|tauto].
  - destruct s as [|b s']; [apply Hk|tauto].
  - apply IH1. intros p1 s1 c1 c1'. apply IH2. exact Hk.
  - rewrite !orelse_some. intros [H|H]; [left|right].
    + now apply (IH1 p s c c' k k' Hk).
    + now apply (IH2 p s c c' k k' Hk).
  - generalize (List.length s) as n. intros n. revert p s c c'.
    induction n as [|n IHn]; intros p s c c'; [apply Hk|].
    cbv beta iota fix.
    match goal with
    | |- context [Regex.run r p s c ?f] => set (again := f)
    end.
    match goal with
    | |- context [Regex.run r p s c' ?f] => set (again' := f)
    end.
    assert (Hagain : Regex.run r p s c again <> None ->
                     Regex.run r p s c' again' <> None).
    { apply IH. intros p1 s1 c1 c1'. unfold again, again'.
      destruct (p <? p1)%nat; [apply IHn|tauto]. }
    clearbody again again'.
    destruct g; rewrite !orelse_some; intros [H|H]; auto;
      (left + right); now apply (Hk p s c c').
  - apply IH. intros p1 s1 c1 c1'. apply Hk.
Qed.

(** An expression that starts with [^] matches at the start or nowhere. *)
Lemma search_from_anchored (r : Regex.regex) (s : jsstring) :
  forall p, Regex.search_from (Regex.Seq Regex.Bol r) (S p) s = None.
Proof.
  induction s as [|b s IH]; intros p; cbn [Regex.search_from];
    unfold Regex.match_at; cbn [Regex.run Nat.eqb]; [reflexivity|apply IH].
Qed.

Lemma exec_anchored (r : Regex.regex) (s : jsstring) :
  Regex.exec (Regex.Seq Regex.Bol r) s = Regex.match_at (Regex.Seq Regex.Bol r) 0 s.
Proof.
  unfold Regex.exec. destruct s as [|b s]; cbn [Regex.search_from];
    destruct (Regex.match_at _ 0 _); try reflexivity.
  apply search_from_anchored.
Qed.

Lemma match_at_sound (r : Regex.regex) (p : nat) (s : jsstring)
    (m : Regex.match_result) :
  Regex.match_at r p s = Some m ->
  exists p' s',
    RegexSpec.matches r p s [] p' s' (Regex.groups m)
    /\ Regex.index m = p /\ Regex.matched m = firstn (p' - p) s.
Proof.
  unfold Regex.match_at.
  destruct (Regex.run r p s [] _) as [[[p' s'] c']|] eqn:Hrun; [|discriminate].
  intros [= <-]. apply run_sound in Hrun.
  destruct Hrun as (p1 & s1 & c1 & Hm & [= -> -> ->]).
  exists p', s'. auto.
Qed.

(** What a match consumes is a prefix of what was left to read. *)
Lemma matches_consumes r p s c p' s' c' :
  RegexSpec.matches r p s c p' s' c' ->
  exists u, s = u ++ s' /\ p' = (p + List.length u)%nat.
Proof.
  induction 1;
    try (exists []; split; [reflexivity|cbn; lia]);
    try (eexists [_]; split; [reflexivity|cbn; lia]);
    try assumption.
  - destruct IHmatches1 as (u1 & -> & ->). destruct IHmatches2 as (u2 & -> & ->).
    exists (u1 ++ u2). rewrite <- app_assoc, length_app. split; [reflexivity|lia].
  - destruct IHmatches1 as (u1 & -> & ->). destruct IHmatches2 as (u2 & -> & ->).
    exists (u1 ++ u2). rewrite <- app_assoc, length_app. split; [reflexivity|lia].
Qed.

(** Groups that an expression does not contain keep their capture. *)
Lemma matches_keeps r p s c p' s' c' :
  RegexSpec.matches r p s c p' s' c' ->
  forall i, ~ In i (RegexSpec.groups_of r) -> Regex.lookup i c' = Regex.lookup i c.
Proof.
  induction 1; intros j Hj; cbn [RegexSpec.groups_of] in Hj; try reflexivity.
  - rewrite IHmatches2, IHmatches1; [reflexivity| |];
      intros Hin; apply Hj, in_app_iff; tauto.
  - apply IHmatches. intros Hin. apply Hj, in_app_iff. tauto.
  - apply IHmatches. intros Hin. apply Hj, in_app_iff. tauto.
  - rewrite IHmatches2, IHmatches1; auto.
  - cbn [Regex.lookup]. destruct (j =? i)%nat eqn:Hji.
    + apply Nat.eqb_eq in Hji. subst j. exfalso. apply Hj. now left.
    + apply IHmatches. intros Hin. apply Hj. now right.
Qed.

(** What a group captures is what its expression consumed. *)
Lemma matches_group i r p s c p' s' c' :
  RegexSpec.matches (Regex.Grp i r) p s c p' s' c' ->
  exists u c1,
    RegexSpec.matches r p s c p' s' c1
    /\ s = u ++ s' /\ p' = (p + List.length u)%nat
    /\ c' = (i, u) :: c1.
Proof.
  intros H. inversion H; subst; clear H.
  match goal with Hm : RegexSpec.matches _ _ _ _ _ _ _ |- _ =>
    destruct (matches_consumes Hm) as (u & -> & ->) end.
  eexists u, _. split; [eassumption|]. split; [reflexivity|]. split; [reflexivity|].
  replace (p + List.length u - p)%nat with (List.length u) by lia.
  now rewrite firstn_app, firstn_all, Nat.sub_diag, firstn_O, app_nil_r.
Qed.

Lemma matches_seq r1 r2 p s c p2 s2 c2 :
  RegexSpec.matches (Regex.Seq r1 r2) p s c p2 s2 c2 ->
  exists p1 s1 c1,
    RegexSpec.matches r1 p s c p1 s1 c1 /\ RegexSpec.matches r2 p1 s1 c1 p2 s2 c2.
Proof. inversion 1; subst. eauto. Qed.

(** A repetition of a class consumes code units of the class. *)
Lemma matches_star_class g neg rs p s c p' s' c' :
  RegexSpec.matches (Regex.Star g (Regex.Cls neg rs)) p s c p' s' c' ->
  exists u,
    s = u ++ s' /\ c' = c
    /\ Forall (fun b => xorb neg (JsString.in_ranges rs b) = true) u.
Proof.
  remember (Regex.Star g (Regex.Cls neg rs)) as r eqn:Hr.
  induction 1; try discriminate.
  - exists []. auto.
  - injection Hr as -> ->.
    match goal with Hm : RegexSpec.matches (Regex.Cls _ _) _ _ _ _ _ _ |- _ =>
      inversion Hm; subst end.
    destruct (IHmatches2 eq_refl) as (u & -> & -> & Hu).
    exists (b :: u). auto.
Qed.

Lemma matches_plus_class g neg rs p s c p' s' c' :
  RegexSpec.matches (Regex.Plus g (Regex.Cls neg rs)) p s c p' s' c' ->
  exists b u,
    s = (b :: u) ++ s' /\ c' = c
    /\ Forall (fun b => xorb neg (JsString.in_ranges rs b) = true) (b :: u).
Proof.
  unfold Regex.Plus. intros H. apply matches_seq in H.
  destruct H as (p1 & s1 & c1 & H1 & H2).
  inversion H1; subst. apply matches_star_class in H2.
  destruct H2 as (u & -> & -> & Hu). exists b, u. auto.
Qed.

Lemma matches_groupless r p s c p' s' c' :
  RegexSpec.matches r p s c p' s' c' -> RegexSpec.groups_of r = [] -> c' = c.
Proof.
  induction 1; intros Hg; cbn [RegexSpec.groups_of] in Hg; try reflexivity.
  - apply app_eq_nil in Hg. destruct Hg as (Hg1 & Hg2).
    rewrite IHmatches2, IHmatches1; auto.
  - apply app_eq_nil in Hg. apply IHmatches. tauto.
  - apply app_eq_nil in Hg. apply IHmatches. tauto.
  - rewrite IHmatches2, IHmatches1; auto.
  - discriminate.
Qed.

Lemma matches_plain_group i r p s c p' s' c' :
  RegexSpec.matches (Regex.Grp i r) p s c p' s' c' ->
  RegexSpec.groups_of r = [] ->
  exists u, RegexSpec.matches r p s c p' s' c /\ s = u ++ s' /\ c' = (i, u) :: c.
Proof.
  intros H Hg. apply matches_group in H.
  destruct H as (u & c1 & Hm & Hs & _ & ->).
  pose proof (matches_groupless Hm Hg) as ->. eauto.
Qed.

(** ** Code units *)

Lemma digit_unit_spec (b : N) :
  JsString.in_ranges [(48, 57)%N] b = true <-> RegexSpec.digit_unit b.
Proof.
  unfold JsString.in_ranges, RegexSpec.digit_unit. cbn [existsb fst snd].
  rewrite orb_false_r, andb_true_iff, !N.leb_le. tauto.
Qed.

Lemma digit_not_space (b : N) :
  RegexSpec.digit_unit b -> JsString.is_space b = false.
Proof.
  unfold RegexSpec.digit_unit. intros Hb.
  unfold JsString.is_space, JsString.in_ranges, JsString.whitespace_ranges.
  cbn [existsb fst snd].
  repeat (apply orb_false_iff; split); try reflexivity;
    apply andb_false_iff; rewrite !N.leb_gt; lia.
Qed.

Lemma trimStart_last (l : jsstring) (b : N) :
  JsString.is_space b = false ->
  exists l', JsString.trimStart (l ++ [b]) = l' ++ [b].
Proof.
  intros Hb. induction l as [|a l IH]; cbn [app JsString.trimStart].
  - rewrite Hb. now exists [].
  - destruct (JsString.is_space a); [exact IH|]. now exists (a :: l).
Qed.

(** [trim] keeps a first code unit that is not white space. *)
Lemma trim_head (b : N) (rest : jsstring) :
  JsString.is_space b = false ->
  exists rest', JsString.trim (b :: rest) = b :: rest'.
Proof.
  intros Hb. unfold JsString.trim, JsString.trimEnd.
  cbn [JsString.trimStart]. rewrite Hb. cbn [rev].
  destruct (@trimStart_last (rev rest) b Hb) as (l' & ->).
  rewrite rev_app_distr. cbn [rev app]. eauto.
Qed.

Lemma trimStart_nonspace (u : jsstring) :
  Forall RegexSpec.nonspace_unit u -> JsString.trimStart u = u.
Proof.
  destruct 1 as [|b u Hb Hu]; cbn [JsString.trimStart]; [reflexivity|].
  now rewrite Hb.
Qed.

(** [trim] leaves a string without white space as it is. *)
Lemma trim_nonspace (u : jsstring) :
  Forall RegexSpec.nonspace_unit u -> JsString.trim u = u.
Proof.
  intros Hu. unfold JsString.trim, JsString.trimEnd.
  rewrite (@trimStart_nonspace u Hu), trimStart_nonspace, rev_involutive;
    [reflexivity|].
  apply Forall_rev. exact Hu.
Qed.

(** ** Segmentation of the roster text *)

Lemma anchored_group_head (i : nat) (g neg : bool) (rs : list (N * N))
    (r : Regex.regex) (s : jsstring) :
  Regex.test
    (Regex.Seq Regex.Bol
       (Regex.Seq (Regex.Grp i (Regex.Plus g (Regex.Cls neg rs))) r)) s = true ->
  exists b rest, s = b :: rest /\ xorb neg (JsString.in_ranges rs b) = true.
Proof.
  unfold Regex.test. rewrite exec_anchored.
  destruct (Regex.match_at _ 0 s) as [m|] eqn:Hm; [|discriminate]. intros _.
  apply match_at_sound in Hm. destruct Hm as (p' & s' & Hm & _).
  apply matches_seq in Hm. destruct Hm as (p1 & s1 & c1 & Hbol & Hm).
  inversion Hbol; subst.
  apply matches_seq in Hm. destruct Hm as (p2 & s2 & c2 & Hg & _).
  apply matches_group in Hg. destruct Hg as (u & c3 & Hplus & _).
  apply matches_plus_class in Hplus.
  destruct Hplus as (b & u' & -> & _ & Hall).
  exists b, (u' ++ s2). split; [reflexivity|]. now inversion Hall.
Qed.

Lemma marker_line_head (line : jsstring) :
  Regex.test Layout.frameHorseLine line = true ->
  exists b rest, line = b :: rest /\ RegexSpec.digit_unit b.
Proof.
  intros H.
  destruct (@anchored_group_head 1 true false [(48, 57)%N] _ line H)
    as (b & rest & -> & Hb).
  exists b, rest. split; [reflexivity|]. apply digit_unit_spec. exact Hb.
Qed.

Lemma splitLoop_count (lines : list jsstring) :
  forall (blocks : list jsstring) (cur : jsstring) (inHorseData : bool),
    (inHorseData = true ->
     exists b rest, cur = b :: rest /\ RegexSpec.digit_unit b) ->
    List.length (Layout.splitLoop lines blocks cur inHorseData)
    = (List.length blocks + (if inHorseData then 1 else 0)
       + List.length (filter (Regex.test Layout.frameHorseLine) lines))%nat.
Proof.
  assert (Hpush : forall blocks cur (inHorseData : bool),
            (inHorseData = true ->
             exists b rest, cur = b :: rest /\ RegexSpec.digit_unit b) ->
            List.length
              (if JsString.truthy (JsString.trim cur) && inHorseData
               then blocks ++ [JsString.trim cur] else blocks)
            = (List.length blocks + (if inHorseData then 1 else 0))%nat).
  { intros blocks cur [|] Hinv; [|rewrite andb_false_r; lia].
    destruct (Hinv eq_refl) as (b & rest & -> & Hb).
    destruct (@trim_head b rest (digit_not_space Hb)) as (rest' & ->).
    cbn [JsString.truthy andb]. rewrite length_app. reflexivity. }
  induction lines as [|line rest IH]; intros blocks cur inHorseData Hinv;
    cbn [Layout.splitLoop filter].
  - rewrite Hpush by exact Hinv. cbn [List.length]. now rewrite Nat.add_0_r.
  - destruct (Regex.test Layout.frameHorseLine line) eqn:Hmark.
    + destruct (marker_line_head line Hmark) as (b & tl & -> & Hb).
      rewrite IH.
      * rewrite Hpush by exact Hinv. cbn [List.length].
        now rewrite <- (Nat.add_assoc _ 1).
      * intros _. destruct rest as [|next rest']; cbn [app]; eauto.
    + destruct inHorseData eqn:Hin.
      * rewrite IH; [reflexivity|]. intros _.
        destruct (Hinv eq_refl) as (b & tl & -> & Hb). cbn [app]. eauto.
      * rewrite IH; [reflexivity|discriminate].
Qed.

Lemma splitIntoHorseBlocks_count (text : jsstring) :
  List.length (Layout.splitIntoHorseBlocks text)
  = List.length (filter (Regex.test Layout.frameHorseLine)
                   (JsString.split_lines text)).
Proof.
  unfold Layout.splitIntoHorseBlocks. rewrite splitLoop_count; [reflexivity|].
  discriminate.
Qed.

Lemma splitLoop_heads (lines : list jsstring) :
  forall (blocks : list jsstring) (cur : jsstring) (inHorseData : bool),
    (inHorseData = true ->
     exists b rest, cur = b :: rest /\ RegexSpec.digit_unit b) ->
    Forall (fun block => exists b rest, block = b :: rest /\ RegexSpec.digit_unit b)
           blocks ->
    Forall (fun block => exists b rest, block = b :: rest /\ RegexSpec.digit_unit b)
           (Layout.splitLoop lines blocks cur inHorseData).
Proof.
  assert (Hpush : forall blocks cur (inHorseData : bool),
            (inHorseData = true ->
             exists b rest, cur = b :: rest /\ RegexSpec.digit_unit b) ->
            Forall (fun block =>
                      exists b rest, block = b :: rest /\ RegexSpec.digit_unit b)
                   blocks ->
            Forall (fun block =>
                      exists b rest, block = b :: rest /\ RegexSpec.digit_unit b)
                   (if JsString.truthy (JsString.trim cur) && inHorseData
                    then blocks ++ [JsString.trim cur] else blocks)).
  { intros blocks cur [|] Hinv Hall; [|now rewrite andb_false_r].
    destruct (Hinv eq_refl) as (b & rest & -> & Hb).
    destruct (@trim_head b rest (digit_not_space Hb)) as (rest' & ->).
    cbn [JsString.truthy andb]. apply Forall_app. split; [exact Hall|].
    constructor; [eauto|constructor]. }
  induction lines as [|line rest IH]; intros blocks cur inHorseData Hinv Hall;
    cbn [Layout.splitLoop].
  - now apply Hpush.
  - destruct (Regex.test Layout.frameHorseLine line) eqn:Hmark.
    + destruct (marker_line_head line Hmark) as (b & tl & -> & Hb).
      apply IH; [|now apply Hpush].
      intros _. destruct rest as [|next rest']; cbn [app]; eauto.
    + destruct inHorseData eqn:Hin; apply IH; auto.
      intros _. destruct (Hinv eq_refl) as (b & tl & -> & Hb). cbn [app]. eauto.
Qed.

(** X15: the roster text is cut into one fragment per marker line.  The
    fragments returned by [splitIntoHorseBlocks] are as many as the lines
    of the text that match the marker pattern (two numbers separated by
    white space), and each fragment starts with a digit: a text line that
    is not a marker line never opens a fragment, and no marker line is
    lost. *)
Theorem X15_one_fragment_per_marker_line :
  forall text : jsstring,
    List.length (Layout.splitIntoHorseBlocks text)
    = List.length (filter (Regex.test Layout.frameHorseLine)
                     (JsString.split_lines text))
    /\ Forall (fun block =>
                 exists b rest, block = b :: rest /\ RegexSpec.digit_unit b)
              (Layout.splitIntoHorseBlocks text).
Proof.
  intros text. split; [apply splitIntoHorseBlocks_count|].
  unfold Layout.splitIntoHorseBlocks. apply splitLoop_heads; [discriminate|].
  constructor.
Qed.

(** ** Texts without a usable line *)

Lemma layout_no_marker_no_block (text : jsstring) :
  (forall line, In line (JsString.split_lines text) ->
     Regex.test Layout.frameHorseLine line = false) ->
  Layout.splitIntoHorseBlocks text = [].
Proof.
  intros Hno. apply length_zero_iff_nil.
  rewrite splitIntoHorseBlocks_count.
  induction (JsString.split_lines text) as [|line rest IH]; [reflexivity|].
  cbn [filter]. rewrite (Hno line (or_introl eq_refl)).
  apply IH. intros l Hl. apply Hno. now right.
Qed.

Lemma noHorse_message (text : jsstring) :
  Common.firstErrorMessage [Common.noHorseError text]
  = js "有効な馬データが見つかりませんでした".
Proof.
  unfold Common.firstErrorMessage, Common.noHorseError. cbn [message].
  assert (H : JsString.truthy (js "有効な馬データが見つかりませんでした") = true)
    by (vm_compute; reflexivity).
  now rewrite H.
Qed.

Lemma finishRoster_empty (cfg : ParserConfig) (text : jsstring) :
  exists w,
    Common.finishRoster cfg text ([], [], [])
    = mkParseResult false (Some []) [Common.noHorseError text] w.
Proof.
  unfold Common.finishRoster. cbn [List.length Nat.eqb app].
  eexists. reflexivity.
Qed.

Lemma layout_no_block_throws (cfg : ParserConfig) (text : jsstring) :
  Layout.splitIntoHorseBlocks text = [] ->
  (exists w,
     Layout.parseHorseDataInternal cfg text
     = Return (mkParseResult false (Some []) [Common.noHorseError text] w))
  /\ Layout.parseHorseData cfg text
     = Throw (ErrorObject (js "有効な馬データが見つかりませんでした")).
Proof.
  intros Hnil.
  unfold Layout.parseHorseData, Layout.parseHorseDataInternal,
    Layout.parseHorseDataInternalBody.
  rewrite Hnil. cbn [Layout.blockLoop try_catch bind].
  destruct (finishRoster_empty cfg text) as (w & ->).
  split; [now exists w|].
  unfold Common.parseHorseDataOf. cbn [success data errors].
  now rewrite noHorse_message.
Qed.

Lemma legacy_no_line_throws (cfg : ParserConfig) (text : jsstring) :
  Common.nonblank_lines text = [] ->
  Legacy.parseHorseData cfg text
  = Throw (ErrorObject (js "有効な馬データが見つかりませんでした")).
Proof.
  intros Hnil.
  unfold Legacy.parseHorseData, Legacy.parseHorseDataInternal,
    Legacy.parseHorseDataInternalBody.
  rewrite Hnil. cbn [Legacy.lineLoop try_catch bind].
  destruct (finishRoster_empty cfg text) as (w & ->).
  unfold Common.parseHorseDataOf. cbn [success data errors].
  now rewrite noHorse_message.
Qed.

(** X16: a roster text without a marker line is refused.  When no line of
    the text matches the marker pattern, the layout-keyed
    [parseHorseDataInternal] returns a failed result with an empty roster
    and the single error that no valid horse data was found, and the entry
    point [parseHorseData] throws that message, whatever the
    configuration. *)
Theorem X16_layout_roster_without_marker_line_is_refused :
  forall (cfg : ParserConfig) (text : jsstring),
    (forall line, In line (JsString.split_lines text) ->
       Regex.test Layout.frameHorseLine line = false) ->
    (exists w,
       Layout.parseHorseDataInternal cfg text
       = Return (mkParseResult false (Some []) [Common.noHorseError text] w))
    /\ Layout.parseHorseData cfg text
       = Throw (ErrorObject (js "有効な馬データが見つかりませんでした")).
Proof.
  intros cfg text Hno. apply layout_no_block_throws.
  now apply layout_no_marker_no_block.
Qed.

Lemma X16_layout_roster_without_marker_line_is_refused_witness :
  (forall line, In line (JsString.split_lines Samples.invalidHorseData) ->
     Regex.test Layout.frameHorseLine line = false)
  /\ (exists w,
        Layout.parseHorseDataInternal defaultConfig Samples.invalidHorseData
        = Return (mkParseResult false (Some [])
                    [Common.noHorseError Samples.invalidHorseData] w))
  /\ Layout.parseHorseData defaultConfig Samples.invalidHorseData
     = Throw (ErrorObject (js "有効な馬データが見つかりませんでした")).
Proof.
  assert (H : forall line,
             In line (JsString.split_lines Samples.invalidHorseData) ->
             Regex.test Layout.frameHorseLine line = false).
  { intros line Hin. vm_compute in Hin.
    repeat (destruct Hin as [<-|Hin]; [vm_compute; reflexivity|]).
    destruct Hin. }
  split; [exact H|].
  exact (@X16_layout_roster_without_marker_line_is_refused defaultConfig
           Samples.invalidHorseData H).
Defined.

Lemma blank_text_no_marker (text : jsstring) :
  Common.nonblank_lines text = [] ->
  forall line, In line (JsString.split_lines text) ->
    Regex.test Layout.frameHorseLine line = false.
Proof.
  intros Hblank line Hin.
  destruct (Regex.test Layout.frameHorseLine line) eqn:Hmark; [|reflexivity].
  exfalso.
  destruct (marker_line_head line Hmark) as (b & rest & -> & Hb).
  destruct (@trim_head b rest (digit_not_space Hb)) as (rest' & Htrim).
  assert (Hin' : In (b :: rest) (Common.nonblank_lines text)).
  { unfold Common.nonblank_lines. apply filter_In. split; [exact Hin|].
    now rewrite Htrim. }
  rewrite Hblank in Hin'. destruct Hin'.
Qed.

(** X17: blank input.  On a text all of whose lines are blank, the roster
    entry points of both variants throw the message that no valid horse
    data was found, and the odds extractors of both variants return a
    successful result with no record, no error and no warning. *)
Theorem X17_blank_text :
  forall (cfg : ParserConfig) (text : jsstring),
    Common.nonblank_lines text = [] ->
    Layout.parseHorseData cfg text
      = Throw (ErrorObject (js "有効な馬データが見つかりませんでした"))
    /\ Legacy.parseHorseData cfg text
      = Throw (ErrorObject (js "有効な馬データが見つかりませんでした"))
    /\ Layout.parseOdds cfg text = Return (mkParseResult true (Some []) [] [])
    /\ Legacy.parseOdds cfg text = Return (mkParseResult true (Some []) [] []).
Proof.
  intros cfg text Hblank. split; [|split; [|split]].
  - apply layout_no_block_throws, layout_no_marker_no_block.
    now apply blank_text_no_marker.
  - now apply legacy_no_line_throws.
  - unfold Layout.parseOdds, Layout.parseOddsBody, Layout.scanOdds.
    rewrite Hblank. reflexivity.
  - unfold Legacy.parseOdds, Legacy.parseOddsBody. rewrite Hblank. reflexivity.
Qed.

Lemma X17_blank_text_witness :
  Common.nonblank_lines (js "  ") = []
  /\ Layout.parseHorseData defaultConfig (js "  ")
      = Throw (ErrorObject (js "有効な馬データが見つかりませんでした"))
  /\ Legacy.parseHorseData defaultConfig (js "  ")
      = Throw (ErrorObject (js "有効な馬データが見つかりませんでした"))
  /\ Layout.parseOdds defaultConfig (js "  ")
      = Return (mkParseResult true (Some []) [] [])
  /\ Legacy.parseOdds defaultConfig (js "  ")
      = Return (mkParseResult true (Some []) [] []).
Proof.
  assert (H : Common.nonblank_lines (js "  ") = []) by (vm_compute; reflexivity).
  split; [exact H|].
  exact (@X17_blank_text defaultConfig (js "  ") H).
Defined.

(** ** Lines accepted by [parseOddsLine] *)

Lemma match_at_some (r : Regex.regex) (p : nat) (s : jsstring) :
  Regex.match_at r p s <> None
  <-> Regex.run r p s [] (fun p' s' c' => Some (p', s', c')) <> None.
Proof.
  unfold Regex.match_at.
  destruct (Regex.run r p s [] _) as [[[p' s'] c']|]; split; intros H;
    solve [discriminate | exfalso; now apply H].
Qed.

Lemma run_seq_cong (r r1 r2 : Regex.regex) p s c c' (k1 k2 : Regex.cont) :
  (forall p1 s1 c1 c1',
     Regex.run r1 p1 s1 c1 k1 <> None -> Regex.run r2 p1 s1 c1' k2 <> None) ->
  Regex.run (Regex.Seq r r1) p s c k1 <> None ->
  Regex.run (Regex.Seq r r2) p s c' k2 <> None.
Proof. intros H. cbn [Regex.run]. apply run_mono. exact H. Qed.

Lemma run_seq_drop (r1 r2 : Regex.regex) p s c c' (k : Regex.cont) :
  (forall p1 s1 c1, k p1 s1 c1 <> None) ->
  Regex.run (Regex.Seq r1 r2) p s c k <> None -> Regex.run r1 p s c' k <> None.
Proof.
  intros Hk. cbn [Regex.run]. apply run_mono. intros p1 s1 c1 c1' _. apply Hk.
Qed.

(** A line with a place range is also a line without one. *)
Lemma oddsLinePattern_is_simple (line : jsstring) :
  Regex.exec Common.oddsLinePattern line <> None ->
  Regex.exec Common.oddsSimplePattern line <> None.
Proof.
  unfold Common.oddsLinePattern, Common.oddsSimplePattern. cbn [Regex.Seqs].
  rewrite !exec_anchored, !match_at_some.
  apply run_seq_cong. intros p1 s1 c1 c1'.
  apply run_seq_cong. intros p2 s2 c2 c2'.
  apply run_seq_cong. intros p3 s3 c3 c3'.
  apply run_seq_drop. discriminate.
Qed.

(** X18: the lines that [parseOddsLine] accepts.  A line is accepted exactly
    when it starts with a number, white space and a decimal (the pattern
    without place range); any other line is refused with the message that
    carries the line.  The place range is read when the line has one and is
    approximated from the win odds otherwise. *)
Theorem X18_parseOddsLine_accepts_numbered_lines :
  forall (line : jsstring) (n : nat),
    (Regex.test Common.oddsSimplePattern line = true ->
     exists r,
       Common.parseOddsLine line n = Return r
       /\ (Regex.test Common.oddsLinePattern line = false ->
           placeOddsMin r = JsNumber.div (winOdds r) 3
           /\ placeOddsMax r = JsNumber.div (winOdds r) 2))
    /\ (Regex.test Common.oddsSimplePattern line = false ->
        Common.parseOddsLine line n
        = Throw (ErrorObject
                   (js "オッズデータの形式が正しくありません: " ++ line))).
Proof.
  intros line n. pose proof (oddsLinePattern_is_simple line) as Himp.
  unfold Common.parseOddsLine, Regex.test in *.
  destruct (Regex.exec Common.oddsLinePattern line) as [m|];
    destruct (Regex.exec Common.oddsSimplePattern line) as [sm|];
    split; intros H; try discriminate.
  - eexists. split; [reflexivity|discriminate].
  - exfalso. apply Himp; [discriminate|reflexivity].
  - eexists. split; [reflexivity|]. intros _. split; reflexivity.
  - reflexivity.
Qed.

(** ** Records of the line-keyed roster *)

Lemma nonspace_class (b : N) :
  xorb true (JsString.in_ranges JsString.whitespace_ranges b) = true
  <-> RegexSpec.nonspace_unit b.
Proof.
  unfold RegexSpec.nonspace_unit, JsString.is_space.
  destruct (JsString.in_ranges _ b); cbn; split; congruence.
Qed.

Lemma matches_group_nonspace i g p s c p' s' c' :
  RegexSpec.matches (Regex.Grp i (Regex.Plus g Regex.nonspace)) p s c p' s' c' ->
  exists u, c' = (i, u) :: c /\ u <> [] /\ Forall RegexSpec.nonspace_unit u.
Proof.
  intros H. apply matches_plain_group in H; [|reflexivity].
  destruct H as (u & Hm & Hs & ->).
  apply matches_plus_class in Hm. destruct Hm as (b & u' & Hs' & _ & Hall).
  rewrite Hs in Hs'. apply app_inv_tail in Hs'. subst u.
  exists (b :: u'). split; [reflexivity|]. split; [discriminate|].
  eapply Forall_impl; [|exact Hall]. intros a Ha. now apply nonspace_class.
Qed.

Lemma matches_group_any i r p s c p' s' c' :
  RegexSpec.matches (Regex.Grp i r) p s c p' s' c' ->
  RegexSpec.groups_of r = [] ->
  exists u, c' = (i, u) :: c.
Proof.
  intros H Hg. destruct (matches_plain_group H Hg) as (u & _ & _ & ->). eauto.
Qed.

Ltac next_part H p s c Hp :=
  apply matches_seq in H; destruct H as (p & s & c & Hp & H).

Lemma horseLinePattern_groups (line : jsstring) (m : Regex.match_result) :
  Regex.exec Legacy.horseLinePattern line = Some m ->
  exists u1 u2 u3 u4 u5 u6 u7,
    Regex.groups m
    = [(7, u7); (6, u6); (5, u5); (4, u4); (3, u3); (2, u2); (1, u1)]%nat
    /\ (u2 <> [] /\ Forall RegexSpec.nonspace_unit u2)
    /\ (u6 <> [] /\ Forall RegexSpec.nonspace_unit u6)
    /\ (u7 <> [] /\ Forall RegexSpec.nonspace_unit u7).
Proof.
  unfold Legacy.horseLinePattern. cbn [Regex.Seqs].
  rewrite exec_anchored. intros Hm. apply match_at_sound in Hm.
  destruct Hm as (p' & s' & Hm & _).
  generalize dependent (Regex.groups m). intros cs Hm.
  next_part Hm p0 s0 c0 H0. apply matches_groupless in H0; [|reflexivity]. subst c0.
  next_part Hm p1 s1 c1 H1.
  apply matches_group_any in H1; [|reflexivity]. destruct H1 as (u1 & ->).
  next_part Hm p2 s2 c2 H2. apply matches_groupless in H2; [|reflexivity]. subst c2.
  next_part Hm p3 s3 c3 H3.
  apply matches_group_nonspace in H3. destruct H3 as (u2 & -> & Hu2).
  next_part Hm p4 s4 c4 H4. apply matches_groupless in H4; [|reflexivity]. subst c4.
  next_part Hm p5 s5 c5 H5.
  apply matches_group_any in H5; [|vm_compute; reflexivity]. destruct H5 as (u3 & ->).
  next_part Hm p6 s6 c6 H6.
  apply matches_group_any in H6; [|reflexivity]. destruct H6 as (u4 & ->).
  next_part Hm p7 s7 c7 H7. apply matches_groupless in H7; [|reflexivity]. subst c7.
  next_part Hm p8 s8 c8 H8.
  apply matches_group_any in H8; [|vm_compute; reflexivity]. destruct H8 as (u5 & ->).
  next_part Hm p9 s9 c9 H9. apply matches_groupless in H9; [|reflexivity]. subst c9.
  next_part Hm p10 s10 c10 H10.
  apply matches_group_nonspace in H10. destruct H10 as (u6 & -> & Hu6).
  next_part Hm p11 s11 c11 H11. apply matches_groupless in H11; [|reflexivity]. subst c11.
  apply matches_group_nonspace in Hm. destruct Hm as (u7 & -> & Hu7).
  exists u1, u2, u3, u4, u5, u6, u7. auto.
Qed.

Lemma parseHorseLine_fields (line : jsstring) (n : nat) (h : HorseData) :
  Legacy.parseHorseLine line n = Return h ->
  (name h <> [] /\ Forall RegexSpec.nonspace_unit (name h))
  /\ (jockeyName h <> [] /\ Forall RegexSpec.nonspace_unit (jockeyName h))
  /\ (trainerName h <> [] /\ Forall RegexSpec.nonspace_unit (trainerName h))
  /\ nonneg (weight h).
Proof.
  unfold Legacy.parseHorseLine.
  destruct (Regex.exec Legacy.horseLinePattern line) as [m|] eqn:Hm; [|discriminate].
  intros [= <-]. cbn [name jockeyName trainerName weight].
  destruct (horseLinePattern_groups line Hm)
    as (u1 & u2 & u3 & u4 & u5 & u6 & u7 & Hg & (Hn2 & Hu2) & (Hn6 & Hu6)
        & (Hn7 & Hu7)).
  unfold Regex.group_str, Regex.group. rewrite Hg.
  cbn [Regex.lookup Nat.eqb].
  rewrite !trim_nonspace by assumption.
  repeat split; try assumption. apply parseFloat_nonneg.
Qed.

(** X19: what a record of the line-keyed roster always satisfies.  Every
    record returned by [parseHorseDataInternal] comes from a non-blank line
    of the text that [parseHorseLine] accepts; its name, its jockey name and
    its trainer name are not empty and contain no white space (a name
    written in two words is not read as one), and its weight is not
    negative. *)
Theorem X19_legacy_records_are_well_formed :
  forall (cfg : ParserConfig) (text : jsstring),
    exists r horses,
      Legacy.parseHorseDataInternal cfg text = Return r
      /\ data r = Some horses
      /\ forall h, In h horses ->
           (exists raw n,
              In raw (Common.nonblank_lines text)
              /\ Legacy.parseHorseLine (JsString.trim raw) n = Return h)
           /\ (name h <> [] /\ Forall RegexSpec.nonspace_unit (name h))
           /\ (jockeyName h <> []
               /\ Forall RegexSpec.nonspace_unit (jockeyName h))
           /\ (trainerName h <> []
               /\ Forall RegexSpec.nonspace_unit (trainerName h))
           /\ nonneg (weight h).
Proof.
  intros cfg text.
  exists (Legacy.parseHorseDataInternalBody cfg text),
         (Roster.records (legacyFragments text)).
  split; [reflexivity|]. split; [apply (legacy_policy cfg text)|].
  intros h Hh. unfold legacyFragments in Hh.
  apply records_from_outcomes in Hh. destruct Hh as (line & n & Hline & Hparse).
  apply in_map_iff in Hline. destruct Hline as (raw & <- & Hraw).
  split; [exists raw, n; auto|].
  now apply (parseHorseLine_fields _ _ Hparse).
Qed.

(** ** Completeness of the matcher *)

Lemma run_star (g : bool) (r : Regex.regex) p s c (k : Regex.cont) :
  Regex.run (Regex.Star g r) p s c k = star_loop g r k (List.length s) p s c.
Proof. reflexivity. Qed.

Lemma star_loop_stop (g : bool) (r : Regex.regex) (k : Regex.cont) p s :
  (forall c1, k p s c1 <> None) ->
  forall n c0, star_loop g r k n p s c0 <> None.
Proof.
  intros Hk [|n] c0; cbn [star_loop]; [apply Hk|].
  destruct g; apply orelse_some; [right|left]; apply Hk.
Qed.

(** Every way of matching is found by the matcher: if [r] can lead from a
    state to another one that the continuation accepts whatever the
    captures, the run succeeds. *)
Lemma run_complete_aux r p s c p' s' c' :
  RegexSpec.matches r p s c p' s' c' ->
  (forall c0 (k : Regex.cont),
     (forall c1, k p' s' c1 <> None) -> Regex.run r p s c0 k <> None)
  /\ (forall g r0, r = Regex.Star g r0 ->
      forall n c0 (k : Regex.cont),
        (List.length s <= n)%nat ->
        (forall c1, k p' s' c1 <> None) ->
        star_loop g r0 k n p s c0 <> None).
Proof.
  induction 1 as
    [p s c|a p s c|neg rs b p s c Hb|b p s c Hb|s c|p c
    |r1 r2 p s c p1 s1 c1 p2 s2 c2 H1 IH1 H2 IH2
    |r1 r2 p s c p' s' c' H1 IH1|r1 r2 p s c p' s' c' H2 IH2
    |g r p s c
    |g r p s c p1 s1 c1 p2 s2 c2 H1 IH1 Hlt H2 IH2
    |i r p s c p' s' c' H1 IH1];
    (split; [|try solve [intros g0 r0 Heq; discriminate Heq]]).
  - intros c0 k Hk. apply Hk.
  - intros c0 k Hk. cbn [Regex.run]. rewrite N.eqb_refl. apply Hk.
  - intros c0 k Hk. cbn [Regex.run]. rewrite Hb. apply Hk.
  - intros c0 k Hk. cbn [Regex.run]. rewrite Hb. apply Hk.
  - intros c0 k Hk. apply Hk.
  - intros c0 k Hk. apply Hk.
  - intros c0 k Hk. cbn [Regex.run]. apply (proj1 IH1).
    intros c3. now apply (proj1 IH2).
  - intros c0 k Hk. cbn [Regex.run]. apply orelse_some. left.
    now apply (proj1 IH1).
  - intros c0 k Hk. cbn [Regex.run]. apply orelse_some. right.
    now apply (proj1 IH2).
  - intros c0 k Hk. rewrite run_star. now apply star_loop_stop.
  - intros g0 r0 [= <- <-] n c0 k _ Hk. now apply star_loop_stop.
  - intros c0 k Hk. rewrite run_star.
    destruct (matches_consumes H1) as (u & Hs & Hp).
    assert (Hlen : (List.length s1 < List.length s)%nat).
    { subst s p1. rewrite length_app. destruct u; cbn in *; lia. }
    destruct (List.length s) as [|n]; [lia|]. cbn [star_loop].
    assert (Hagain : Regex.run r p s c0
                       (fun p' s' c' =>
                          if (p <? p')%nat then star_loop g r k n p' s' c'
                          else None) <> None).
    { apply (proj1 IH1). intros c3.
      apply Nat.ltb_lt in Hlt. rewrite Hlt.
      apply (proj2 IH2 g r eq_refl); [lia|exact Hk]. }
    destruct g; apply orelse_some; [left|right]; exact Hagain.
  - intros g0 r0 [= <- <-] n c0 k Hn Hk.
    destruct (matches_consumes H1) as (u & Hs & Hp).
    assert (Hlen : (List.length s1 < List.length s)%nat).
    { subst s p1. rewrite length_app. destruct u; cbn in *; lia. }
    destruct n as [|n]; [lia|]. cbn [star_loop].
    assert (Hagain : Regex.run r p s c0
                       (fun p' s' c' =>
                          if (p <? p')%nat then star_loop g r k n p' s' c'
                          else None) <> None).
    { apply (proj1 IH1). intros c3.
      apply Nat.ltb_lt in Hlt. rewrite Hlt.
      apply (proj2 IH2 g r eq_refl); [lia|exact Hk]. }
    destruct g; apply orelse_some; [left|right]; exact Hagain.
  - intros c0 k Hk. cbn [Regex.run]. apply (proj1 IH1). intros c3. apply Hk.
Qed.

Lemma run_complete r p s c p' s' c' c0 (k : Regex.cont) :
  RegexSpec.matches r p s c p' s' c' ->
  (forall c1, k p' s' c1 <> None) -> Regex.run r p s c0 k <> None.
Proof. intros H. apply (proj1 (run_complete_aux H)). Qed.

(** A non-empty run of code units of a class is matched by [c+]. *)
Lemma matches_plus_class_intro g neg rs (u : jsstring) :
  u <> [] ->
  Forall (fun b => xorb neg (JsString.in_ranges rs b) = true) u ->
  forall p s c,
    RegexSpec.matches (Regex.Plus g (Regex.Cls neg rs)) p (u ++ s) c
      (p + List.length u)%nat s c.
Proof.
  intros Hne Hall.
  assert (Hstar : forall v, Forall (fun b => xorb neg (JsString.in_ranges rs b) = true) v ->
            forall p s c,
              RegexSpec.matches (Regex.Star g (Regex.Cls neg rs)) p (v ++ s) c
                (p + List.length v)%nat s c).
  { induction 1 as [|b v Hb Hv IH]; intros p s c; cbn [app List.length].
    - rewrite Nat.add_0_r. constructor.
    - replace (p + S (List.length v))%nat with (S p + List.length v)%nat by lia.
      eapply RegexSpec.M_StarS; [now constructor|lia|apply IH]. }
  destruct u as [|b u]; [contradiction|]. inversion Hall; subst.
  intros p s c. unfold Regex.Plus. cbn [app List.length].
  replace (p + S (List.length u))%nat with (S p + List.length u)%nat by lia.
  eapply RegexSpec.M_Seq; [now constructor|now apply Hstar].
Qed.

(** ** The first line of a fragment *)

(** The shape of a marker line: two numbers separated by white space. *)
Lemma marker_line_shape (line : jsstring) :
  Regex.test Layout.frameHorseLine line = true ->
  exists d1 w1 d2 w2,
    line = d1 ++ w1 ++ d2 ++ w2
    /\ d1 <> [] /\ Forall RegexSpec.digit_unit d1
    /\ w1 <> []
    /\ Forall (fun b => JsString.is_space b = true) w1
    /\ d2 <> [] /\ Forall RegexSpec.digit_unit d2.
Proof.
  unfold Regex.test, Layout.frameHorseLine. cbn [Regex.Seqs].
  rewrite exec_anchored.
  destruct (Regex.match_at _ 0 line) as [m|] eqn:Hm; [|discriminate]. intros _.
  apply match_at_sound in Hm. destruct Hm as (p' & s' & Hm & _).
  generalize dependent (Regex.groups m). intros cs Hm.
  next_part Hm p0 s0 c0 H0. inversion H0; subst.
  next_part Hm p1 s1 c1 H1.
  apply matches_plain_group in H1; [|reflexivity].
  destruct H1 as (u1 & H1 & -> & ->).
  apply matches_plus_class in H1. destruct H1 as (b1 & d1 & E1 & _ & Hd1).
  apply app_inv_tail in E1. subst u1.
  next_part Hm p2 s2 c2 H2.
  apply matches_plus_class in H2. destruct H2 as (b2 & w1 & -> & _ & Hw1).
  next_part Hm p3 s3 c3 H3.
  apply matches_plain_group in H3; [|reflexivity].
  destruct H3 as (u2 & H3 & -> & ->).
  apply matches_plus_class in H3. destruct H3 as (b3 & d2 & E3 & _ & Hd2).
  apply app_inv_tail in E3. subst u2.
  exists (b1 :: d1), (b2 :: w1), (b3 :: d2), s3.
  split; [reflexivity|]. split; [discriminate|].
  split; [eapply Forall_impl; [|exact Hd1]; intros a Ha; now apply digit_unit_spec|].
  split; [discriminate|].
  split; [eapply Forall_impl; [|exact Hw1]; intros a Ha; exact Ha|].
  split; [discriminate|].
  eapply Forall_impl; [|exact Hd2]. intros a Ha. now apply digit_unit_spec.
Qed.

(** A line that starts with two numbers separated by white space is
    matched by the head pattern of [parseHorseBlock]. *)
Lemma frameHorseHead_matches (d1 w1 d2 x : jsstring) :
  d1 <> [] -> Forall RegexSpec.digit_unit d1 ->
  w1 <> [] -> Forall (fun b => JsString.is_space b = true) w1 ->
  d2 <> [] -> Forall RegexSpec.digit_unit d2 ->
  Regex.exec Layout.frameHorseHead (d1 ++ w1 ++ d2 ++ x) <> None.
Proof.
  intros N1 D1 Nw W1 N2 D2.
  assert (D1' : Forall (fun b => xorb false (JsString.in_ranges [(48, 57)%N] b) = true) d1).
  { eapply Forall_impl; [|exact D1]. intros a Ha. now apply digit_unit_spec. }
  assert (D2' : Forall (fun b => xorb false (JsString.in_ranges [(48, 57)%N] b) = true) d2).
  { eapply Forall_impl; [|exact D2]. intros a Ha. now apply digit_unit_spec. }
  assert (W1' : Forall (fun b => xorb false
                                   (JsString.in_ranges JsString.whitespace_ranges b)
                                 = true) w1).
  { eapply Forall_impl; [|exact W1]. intros a Ha. exact Ha. }
  unfold Layout.frameHorseHead. cbn [Regex.Seqs].
  rewrite exec_anchored. apply match_at_some.
  eapply run_complete; [|discriminate].
  eapply RegexSpec.M_Seq; [apply RegexSpec.M_Bol|].
  eapply RegexSpec.M_Seq.
  { apply RegexSpec.M_Grp.
    exact (@matches_plus_class_intro true false [(48, 57)%N] d1 N1 D1' 0%nat
             (w1 ++ d2 ++ x) []). }
  eapply RegexSpec.M_Seq.
  { exact (@matches_plus_class_intro true false JsString.whitespace_ranges w1
             Nw W1' _ (d2 ++ x) _). }
  apply RegexSpec.M_Grp.
  exact (@matches_plus_class_intro true false [(48, 57)%N] d2 N2 D2' _ x _).
Qed.

Lemma split_lines_aux_hd (s : jsstring) :
  forall cur, exists x, hd [] (JsString.split_lines_aux cur s) = rev cur ++ x.
Proof.
  induction s as [|c s IH]; intros cur; cbn [JsString.split_lines_aux hd].
  - exists []. now rewrite app_nil_r.
  - destruct (c =? JsString.newline)%N.
    + exists []. cbn [hd]. now rewrite app_nil_r.
    + destruct (IH (c :: cur)) as (x & ->). cbn [rev].
      exists (c :: x). now rewrite <- app_assoc.
Qed.

(** The first line of a text starts with any prefix of the text that has
    no line feed. *)
Lemma split_lines_hd (a t : jsstring) :
  ~ In JsString.newline a ->
  exists x, hd [] (JsString.split_lines (a ++ t)) = a ++ x.
Proof.
  unfold JsString.split_lines.
  assert (H : forall cur, ~ In JsString.newline a ->
            exists x, hd [] (JsString.split_lines_aux cur (a ++ t))
                      = rev cur ++ a ++ x).
  { induction a as [|c a IH]; intros cur Hno; cbn [app].
    - apply split_lines_aux_hd.
    - cbn [JsString.split_lines_aux].
      destruct (N.eqb_spec c JsString.newline) as [->|Hne].
      + exfalso. apply Hno. now left.
      + destruct (IH (c :: cur)) as (x & ->); [intros Hin; apply Hno; now right|].
        exists x. cbn [rev]. now rewrite <- app_assoc. }
  intros Hno. destruct (H [] Hno) as (x & ->). now exists x.
Qed.

Lemma split_lines_aux_no_newline (s : jsstring) :
  forall cur l,
    ~ In JsString.newline cur ->
    In l (JsString.split_lines_aux cur s) -> ~ In JsString.newline l.
Proof.
  induction s as [|c s IH]; intros cur l Hcur; cbn [JsString.split_lines_aux].
  - intros [<-|[]]. now rewrite <- in_rev.
  - destruct (N.eqb_spec c JsString.newline) as [->|Hne].
    + intros [<-|Hin]; [now rewrite <- in_rev|].
      apply (IH [] l); [intros []|exact Hin].
    + apply IH. intros [Heq|Hin]; [now apply Hne|now apply Hcur].
Qed.

(** No line of [s.split('\n')] has a line feed. *)
Lemma split_lines_no_newline (s l : jsstring) :
  In l (JsString.split_lines s) -> ~ In JsString.newline l.
Proof. apply split_lines_aux_no_newline. intros []. Qed.

Lemma trimStart_app_nonspace (l r : jsstring) (b : N) :
  JsString.is_space b = false ->
  exists l', JsString.trimStart (l ++ b :: r) = l' ++ b :: r.
Proof.
  intros Hb. induction l as [|a l IH]; cbn [app JsString.trimStart].
  - rewrite Hb. now exists [].
  - destruct (JsString.is_space a); [exact IH|]. now exists (a :: l).
Qed.

(** [trim] keeps what lies between two code units that are not white
    space. *)
Lemma trim_keeps_core (b0 bl : N) (m t : jsstring) :
  JsString.is_space b0 = false -> JsString.is_space bl = false ->
  exists t', JsString.trim ((b0 :: m) ++ bl :: t) = (b0 :: m) ++ bl :: t'.
Proof.
  intros H0 Hl. unfold JsString.trim, JsString.trimEnd.
  cbn [app JsString.trimStart]. rewrite H0.
  change (b0 :: m ++ bl :: t) with ((b0 :: m) ++ bl :: t).
  rewrite rev_app_distr. cbn [rev]. rewrite <- app_assoc. cbn [app].
  destruct (@trimStart_app_nonspace (rev t) (rev (b0 :: m)) bl Hl) as (l' & Hl').
  cbn [rev] in Hl'. rewrite Hl'.
  rewrite rev_app_distr. cbn [rev]. rewrite rev_app_distr, rev_involutive.
  cbn [rev app]. exists (rev l'). now rewrite <- !app_assoc.
Qed.

Lemma fragment_first_line (block : jsstring) :
  starts_with_marker block ->
  Regex.exec Layout.frameHorseHead (hd [] (JsString.split_lines block)) <> None.
Proof.
  intros (line & tail & -> & Hmark & Hno).
  destruct (marker_line_shape line Hmark)
    as (d1 & w1 & d2 & w2 & -> & N1 & D1 & Nw & W1 & N2 & D2).
  destruct d1 as [|b0 d1']; [contradiction|].
  destruct (exists_last N2) as (d2' & bl & ->).
  assert (H0 : JsString.is_space b0 = false).
  { apply digit_not_space. now inversion D1. }
  assert (Hl : JsString.is_space bl = false).
  { apply digit_not_space. apply Forall_app in D2. destruct D2 as (_ & D2).
    now inversion D2. }
  assert (Hshape : ((b0 :: d1') ++ w1 ++ (d2' ++ [bl]) ++ w2) ++ tail
                   = (b0 :: d1' ++ w1 ++ d2') ++ bl :: (w2 ++ tail)).
  { cbn [app]. now rewrite <- !app_assoc. }
  rewrite Hshape.
  destruct (@trim_keeps_core b0 bl (d1' ++ w1 ++ d2') (w2 ++ tail) H0 Hl)
    as (t' & ->).
  assert (Hcore : (b0 :: d1' ++ w1 ++ d2') ++ bl :: t'
                  = ((b0 :: d1') ++ w1 ++ d2' ++ [bl]) ++ t').
  { cbn [app]. now rewrite <- !app_assoc. }
  rewrite Hcore.
  assert (Hcore_no : ~ In JsString.newline ((b0 :: d1') ++ w1 ++ d2' ++ [bl])).
  { intros Hin. apply Hno. rewrite !in_app_iff in *. tauto. }
  destruct (@split_lines_hd ((b0 :: d1') ++ w1 ++ d2' ++ [bl]) t' Hcore_no)
    as (x & ->).
  replace (((b0 :: d1') ++ w1 ++ d2' ++ [bl]) ++ x)
    with ((b0 :: d1') ++ w1 ++ (d2' ++ [bl]) ++ x)
    by (cbn [app]; now rewrite <- !app_assoc).
  apply frameHorseHead_matches; auto.
Qed.

Lemma splitLoop_fragments (lines : list jsstring) :
  Forall (fun l => ~ In JsString.newline l) lines ->
  forall (blocks : list jsstring) (cur : jsstring) (inHorseData : bool),
    Forall starts_with_marker blocks ->
    (inHorseData = true ->
     exists line tail,
       cur = line ++ tail
       /\ Regex.test Layout.frameHorseLine line = true
       /\ ~ In JsString.newline line) ->
    Forall starts_with_marker (Layout.splitLoop lines blocks cur inHorseData).
Proof.
  assert (Hpush : forall blocks cur (inHorseData : bool),
            Forall starts_with_marker blocks ->
            (inHorseData = true ->
             exists line tail,
               cur = line ++ tail
               /\ Regex.test Layout.frameHorseLine line = true
               /\ ~ In JsString.newline line) ->
            Forall starts_with_marker
              (if JsString.truthy (JsString.trim cur) && inHorseData
               then blocks ++ [JsString.trim cur] else blocks)).
  { intros blocks cur [|] Hall Hinv; [|now rewrite andb_false_r].
    destruct (JsString.truthy _); cbn [andb]; [|exact Hall].
    apply Forall_app. split; [exact Hall|]. constructor; [|constructor].
    destruct (Hinv eq_refl) as (line & tail & -> & Hm & Hno).
    now exists line, tail. }
  induction 1 as [|line rest Hline Hrest IH]; intros blocks cur inHorseData Hall Hinv;
    cbn [Layout.splitLoop].
  - now apply Hpush.
  - destruct (Regex.test Layout.frameHorseLine line) eqn:Hmark.
    + apply IH; [now apply Hpush|]. intros _.
      destruct rest as [|next rest'].
      * exists line, []. now rewrite app_nil_r.
      * exists line, (Layout.nl ++ next). auto.
    + destruct inHorseData eqn:Hin; apply IH; auto.
      intros _. destruct (Hinv eq_refl) as (l0 & tail & -> & Hm & Hno).
      exists l0, (tail ++ Layout.nl ++ line). split; [now rewrite <- app_assoc|auto].
Qed.

Lemma fragments_start_with_marker (text : jsstring) :
  Forall starts_with_marker (Layout.splitIntoHorseBlocks text).
Proof.
  unfold Layout.splitIntoHorseBlocks. apply splitLoop_fragments.
  - apply Forall_forall. intros l Hl. now apply split_lines_no_newline in Hl.
  - constructor.
  - discriminate.
Qed.

Lemma fragment_failures (text block : jsstring) (n : nat) :
  In block (Layout.splitIntoHorseBlocks text) ->
  Regex.exec Layout.frameHorseHead (hd [] (JsString.split_lines block)) <> None
  /\ forall e, Layout.parseHorseBlock block n = Throw e -> fragment_cause n e.
Proof.
  intros Hin.
  pose proof (fragments_start_with_marker text) as Hall.
  rewrite Forall_forall in Hall.
  pose proof (fragment_first_line (Hall block Hin)) as Hhead.
  split; [exact Hhead|].
  intros e. unfold Layout.parseHorseBlock, fragment_cause. cbn zeta.
  destruct (Regex.exec Layout.frameHorseHead _) as [fm|]; [|contradiction].
  destruct (negb (JsString.truthy _)); [intros [= <-]; now left|].
  destruct (existsb (Regex.test Layout.oddsPattern) _);
    [intros [= <-]; right; now left|].
  destruct (Layout.firstMatch Layout.genderAgeColorPattern _) as [gm|];
    (destruct (existsb (Regex.test Layout.weightPattern) _);
     [intros [= <-]; right; now right|]);
    destruct (Layout.scanJockey _ false); discriminate.
Qed.

(** X20: why a fragment can fail.  The first line of every fragment of
    [splitIntoHorseBlocks] is matched by the head pattern of
    [parseHorseBlock], so that its first [throw] (frame and horse number not
    found) is never reached from the roster extractor: a fragment fails only
    for want of a name, with the message that carries the block number, or
    by the [ReferenceError] of one of the two assignments to an undeclared
    identifier. *)
Theorem X20_fragment_failures :
  forall (text block : jsstring) (n : nat),
    In block (Layout.splitIntoHorseBlocks text) ->
    Regex.exec Layout.frameHorseHead (hd [] (JsString.split_lines block)) <> None
    /\ forall e,
         Layout.parseHorseBlock block n = Throw e ->
         e = ErrorObject (js "馬名が見つかりません: ブロック" ++ JsString.of_nat n)
         \/ e = ReferenceError (js "odds is not defined")
         \/ e = ReferenceError (js "bodyWeight is not defined").
Proof. exact fragment_failures. Qed.

Lemma X20_fragment_failures_witness :
  In (hd [] (Layout.splitIntoHorseBlocks Samples.realRoster))
     (Layout.splitIntoHorseBlocks Samples.realRoster)
  /\ Regex.exec Layout.frameHorseHead
       (hd [] (JsString.split_lines
                 (hd [] (Layout.splitIntoHorseBlocks Samples.realRoster))))
     <> None
  /\ forall e,
       Layout.parseHorseBlock
         (hd [] (Layout.splitIntoHorseBlocks Samples.realRoster)) 1 = Throw e ->
       e = ErrorObject (js "馬名が見つかりません: ブロック" ++ JsString.of_nat 1)
       \/ e = ReferenceError (js "odds is not defined")
       \/ e = ReferenceError (js "bodyWeight is not defined").
Proof.
  assert (H : In (hd [] (Layout.splitIntoHorseBlocks Samples.realRoster))
                 (Layout.splitIntoHorseBlocks Samples.realRoster)).
  { vm_compute. left. reflexivity. }
  split; [exact H|].
  exact (@X20_fragment_failures Samples.realRoster
           (hd [] (Layout.splitIntoHorseBlocks Samples.realRoster)) 1%nat H).
Defined.

Lemma failures_inv mkError (os : list Roster.fragment_outcome) (x : ParseError) :
  In x (Roster.failures mkError os) ->
  exists i f e, In (i, f, Throw e) os /\ x = mkError i e f.
Proof.
  induction os as [|[[j g] [h|e']] os IH]; cbn; [tauto| |].
  - intros Hin. destruct (IH Hin) as (i & f & e & Hos & ->). eauto 8.
  - intros [<-|Hin]; [eauto 8|].
    destruct (IH Hin) as (i & f & e & Hos & ->). eauto 8.
Qed.

Lemma outcomesFrom_inv parse (frags : list jsstring) :
  forall k i f o,
    In (i, f, o) (Roster.outcomesFrom parse k frags) ->
    In f frags /\ o = parse f (i + 1)%nat.
Proof.
  induction frags as [|g frags IH]; intros k i f o; cbn; [tauto|].
  intros [[= <- <- <-]|Hin]; [auto|].
  destruct (IH _ _ _ _ Hin) as (Hf & Ho). auto.
Qed.

Lemma layout_failure_causes (text : jsstring) (x : ParseError) :
  In x (Roster.failures Layout.blockError (layoutFragments text)) ->
  exists i block cause,
    In block (Layout.splitIntoHorseBlocks text)
    /\ x = Layout.blockError i cause block
    /\ fragment_cause (i + 1) cause.
Proof.
  intros Hin. apply failures_inv in Hin.
  destruct Hin as (i & block & cause & Hos & ->).
  unfold layoutFragments in Hos. apply outcomesFrom_inv in Hos.
  destruct Hos as (Hblock & Hparse).
  exists i, block, cause. split; [exact Hblock|]. split; [reflexivity|].
  destruct (@fragment_failures text block (i + 1)%nat Hblock) as (_ & Hcause).
  now apply Hcause.
Qed.

(** X21: the diagnostics of the layout-keyed roster.  Every error of
    [parseHorseDataInternal] is the roster-level error (no valid horse data)
    or the error of a fragment of the text, and every warning is the
    roster-level warning (more records than [maxHorses]) or the message of
    such an error; the error of the fragment of index [i] has the type
    [HORSE_DATA], the field [horseBlock], the fragment as raw data, the line
    number [i + 1] and the message that starts with that number and ends
    with one of the three causes: no name found, or the [ReferenceError] of
    the popularity line or of the body-weight line. *)
Theorem X21_layout_roster_diagnostics :
  forall (cfg : ParserConfig) (text : jsstring),
    exists r,
      Layout.parseHorseDataInternal cfg text = Return r
      /\ (forall e, In e (errors r) ->
            e = Common.noHorseError text
            \/ exists i block cause,
                 In block (Layout.splitIntoHorseBlocks text)
                 /\ fragment_cause (i + 1) cause
                 /\ e = mkParseError HORSE_DATA (js "horseBlock")
                          (JsString.of_nat (i + 1)
                             ++ js "番目の馬データパースに失敗: "
                             ++ thrown_message cause)
                          (Some block) (Some (i + 1)%nat))
      /\ (forall w, In w (warnings r) ->
            w = Common.maxHorsesWarning cfg
            \/ exists i block cause,
                 In block (Layout.splitIntoHorseBlocks text)
                 /\ fragment_cause (i + 1) cause
                 /\ w = JsString.of_nat (i + 1)
                          ++ js "番目の馬データパースに失敗: "
                          ++ thrown_message cause).
Proof.
  intros cfg text. exists (Layout.parseHorseDataInternalBody cfg text).
  split; [reflexivity|].
  destruct (layout_policy cfg text) as (_ & _ & Hpol).
  assert (Hno : forall e hs, In e (Roster.noHorse text hs) ->
                             e = Common.noHorseError text).
  { intros e [|h hs]; cbn; [intros [<-|[]]; reflexivity|intros []]. }
  assert (Hov : forall w hs, In w (Roster.overflow cfg hs) ->
                             w = Common.maxHorsesWarning cfg).
  { intros w hs. unfold Roster.overflow. destruct (_ <? _)%Z; cbn;
      [intros [<-|[]]; reflexivity|intros []]. }
  destruct (skipInvalidHorses cfg); destruct Hpol as (-> & ->); split.
  - intros e He. left. eapply Hno. exact He.
  - intros w Hw. apply in_app_iff in Hw. destruct Hw as [Hw|Hw].
    + right. apply in_map_iff in Hw. destruct Hw as (x & <- & Hx).
      destruct (layout_failure_causes text x Hx) as (i & block & cause & Hb & -> & Hc).
      exists i, block, cause. auto.
    + left. eapply Hov. exact Hw.
  - intros e He. apply in_app_iff in He. destruct He as [He|He].
    + right.
      destruct (layout_failure_causes text e He) as (i & block & cause & Hb & -> & Hc).
      exists i, block, cause. auto.
    + left. eapply Hno. exact He.
  - intros w Hw. left. eapply Hov. exact Hw.
Qed.
